(** * Ticket booking: the POST /api/book transaction of backend/index.ts

    A shallow embedding of the booking handler and of the three tables it
    works on (backend/schema.ts, backend/migrations/01_schema-setup.sql),
    followed by the properties of the booking engine.

    Modelling conventions.
    - A JavaScript [number] is an IEEE-754 binary64 value: the Standard
      Library's [spec_float] at precision 53 and maximal exponent 1024.
    - A [NUMERIC(10,2)] column is a fixed-point value, kept as an integer
      number of cents; node-postgres hands it to the handler as a decimal
      string, which [parseFloat] turns into the nearest double.
    - An [INTEGER] column and a cart quantity are integers in [Z] (the
      column refuses a quantity that is not an integer when its line is
      inserted).
    - The [tickets] table has a UNIQUE key [tier]: a finite map from tier to
      row.  [orders] and [order_items] only ever grow: lists in insertion
      order, an order's id being its position.
    - [client.query] runs one statement on the connection.  A statement can
      be rejected by the server (a value that does not fit its column, a
      lock timeout, a deadlock) or lost with the connection; the promise
      then rejects, the statement has no effect, and the handler's [catch]
      block runs.  Which statements fail is an input of the model
      ([throws]).
    - [Math.random()] is an input of the model ([random]).
    - [getClient()] is taken to succeed: it is called before the [try].
    - The handler casts the parsed body to its type [BookingRequest] without
      checking it.  [handle] is the handler on bodies of that type;
      [Json.handle] is the handler on the other bodies too that can make it
      throw by itself: a [userId] that is no string, a [null] among the
      cart lines.  Every other cart element is read as a line with a tier
      and an integer quantity.

    Around the handler, the file also embeds the two read endpoints of
    backend/index.ts, the seed script, the helpers of tests/helpers/setup.ts,
    the cart of the home page with components/Cart.tsx, and the text helpers
    of the frontend's utils.
    - A statement sent outside a transaction ([pool.query], [db.select],
      [db.insert]) is committed at once, or fails without effect; which do
      is again an input.  [pool.end()] is taken to succeed.
    - The column [created_at] of [orders] is given apart, as a function of
      the order id.
    - On the home page each event handler runs on the state the previous
      one left; [fetch] is taken to reach the API. *)

From Stdlib Require Import ZArith QArith Qpower Qround Qabs Lqa String Ascii List
  Sorted Permutation Lia.
From Stdlib Require Import Floats.SpecFloat.
From stdpp Require Import gmap strings list fin_maps.

Local Open Scope string_scope.
Local Open Scope list_scope.
Local Open Scope Z_scope.

(** ** JavaScript numbers *)

Module Number.

Definition t := spec_float.

Definition prec : Z := 53.
Definition emax : Z := 1024.

(** An integer as a number (round to nearest, ties to even). *)
Definition of_Z (z : Z) : t := binary_normalize prec emax z 0 false.

Definition add (x y : t) : t := SFadd prec emax x y.
Definition mul (x y : t) : t := SFmul prec emax x y.
Definition div (x y : t) : t := SFdiv prec emax x y.
Definition ltb (x y : t) : bool := SFltb x y.

(** The rational a finite number stands for. *)
Definition value (x : t) : option Q :=
  match x with
  | S754_zero _ => Some 0%Q
  | S754_finite s m e =>
      let a := (inject_Z (Z.pos m) * Qpower 2 e)%Q in
      Some (if s then Qopp a else a)
  | S754_infinity _ | S754_nan => None
  end.

End Number.

(** A decimal with two fractional digits, as PostgreSQL's [numeric] reads the
    text the handler sends: a number of cents, or one of the special values
    that [Number.prototype.toFixed] prints for a non-finite number. *)
Inductive numeric :=
| Cents (c : Z)
| NotANumber
| Infinite (negative : bool).

(** [parseFloat(s)] for the text [s] of a [NUMERIC(10,2)] value of [c] cents:
    the double nearest to [c / 100].  Both [c] and [100] are doubles, and the
    IEEE division rounds their exact quotient to nearest. *)
Definition parseFloat (c : Z) : Number.t :=
  Number.div (Number.of_Z c) (Number.of_Z 100).

(** [x.toFixed(2)]: the integer [n] for which [n / 100 - x] is closest to
    zero, the larger [n] when there are two; a negative [x] is printed as
    the negation of [(-x).toFixed(2)]. *)
Definition round_half_up (q : Q) : Z := Qfloor (q + (1 # 2)).

Definition toFixed2 (x : Number.t) : numeric :=
  match x with
  | S754_nan => NotANumber
  | S754_infinity s => Infinite s
  | S754_zero _ => Cents 0
  | S754_finite s m e =>
      let n := round_half_up (inject_Z (Z.pos m) * Qpower 2 e * 100) in
      Cents (if s then - n else n)
  end.

(** The double [x] is less than half a cent away from [c] cents. *)
Definition within_half_cent (x : Number.t) (c : Z) : Prop :=
  exists v, Number.value x = Some v /\ (Qabs (v * 100 - inject_Z c) < 1 # 2)%Q.

(** ** The tables *)

(** A row of [tickets], without its key [tier]. *)
Record Ticket := mkTicket {
  price_usd : Z;            (* NUMERIC(10,2), in cents *)
  quantity_available : Z;   (* INTEGER *)
  total_quantity : Z        (* INTEGER *)
}.

Inductive OrderStatus := PAID | FAILED | PENDING.

(** A row of [orders]; [id] is the row's position, [created_at] is left out. *)
Record Order := mkOrder {
  user_id : string;
  total_amount : numeric;
  status : OrderStatus
}.

(** A row of [order_items]. *)
Record OrderItem := mkOrderItem {
  order_id : nat;
  ticket_tier : string;
  item_quantity : Z;        (* column quantity *)
  price_at_purchase : Z     (* NUMERIC(10,2), in cents *)
}.

Record Db := mkDb {
  tickets : gmap string Ticket;
  orders : list Order;
  order_items : list OrderItem
}.

(** backend/migrations/02_schema_seed.sql *)
Definition seed : Db :=
  {| tickets :=
       <["VIP" := mkTicket 10000 10 10]>
         (<["FRONT_ROW" := mkTicket 5000 50 50]>
            (<["GA" := mkTicket 1000 200 200]> ∅));
     orders := [];
     order_items := [] |}.

(** ** Requests and responses *)

Record CartItem := mkCartItem {
  tier : string;
  quantity : Z
}.

(** The JSON body; a field is [None] when the key is missing (for
    [cartItems] also when it is not an array). *)
Record BookingRequest := mkRequest {
  userId : option string;
  cartItems : option (list CartItem)
}.

(** The objects pushed on the handler's [orderItems] array. *)
Record PendingItem := mkPending {
  pending_tier : string;
  pending_quantity : Z;
  priceAtPurchase : Z
}.

Inductive Body :=
| InvalidRequest
| InvalidTier (t : string)
| InsufficientStock (t : string) (requested available : Z)
| PaymentFailed
| Booked (orderId : nat) (user : string) (totalAmount : numeric)
         (items : list PendingItem) (st : OrderStatus)
| ServerError.

Record Response := mkResponse {
  http_status : Z;
  body : Body
}.

(** ** The connection *)

Inductive Stmt :=
| BEGIN
| COMMIT
| ROLLBACK
| SELECT_FOR_UPDATE (t : string)
| INSERT_ORDER (user : string) (total : numeric) (st : OrderStatus)
| INSERT_ORDER_ITEM (oid : nat) (t : string) (qty : Z) (price : Z)
| UPDATE_TICKETS (t : string) (qty : Z).

(** What a statement returns: the selected rows, or the returned id. *)
Inductive QueryResult :=
| Rows (rows : list Ticket)
| Returning (id : nat)
| Done.

(** The state of one pooled client: what is committed, what the open
    transaction sees, and the statements sent so far. *)
Record Client := mkClient {
  durable : Db;
  work : Db;
  log : list Stmt
}.

Definition connect (db : Db) : Client :=
  {| durable := db; work := db; log := [] |}.

Definition decrement (qty : Z) (r : Ticket) : Ticket :=
  {| price_usd := price_usd r;
     quantity_available := quantity_available r - qty;
     total_quantity := total_quantity r |}.

(** The effect of a statement that the server accepts. *)
Definition run_stmt (s : Stmt) (d w : Db) : QueryResult * Db * Db :=
  match s with
  | BEGIN => (Done, d, d)
  | COMMIT => (Done, w, w)
  | ROLLBACK => (Done, d, d)
  | SELECT_FOR_UPDATE t =>
      (Rows (match tickets w !! t with Some r => [r] | None => [] end), d, w)
  | INSERT_ORDER u total st =>
      (Returning (length (orders w)), d,
       {| tickets := tickets w;
          orders := orders w ++ [mkOrder u total st];
          order_items := order_items w |})
  | INSERT_ORDER_ITEM oid t qty price =>
      (Done, d,
       {| tickets := tickets w;
          orders := orders w;
          order_items := order_items w ++ [mkOrderItem oid t qty price] |})
  | UPDATE_TICKETS t qty =>
      (Done, d,
       {| tickets := alter (decrement qty) t (tickets w);
          orders := orders w;
          order_items := order_items w |})
  end.

(** The inputs the handler does not control. *)
Record World := mkWorld {
  random : Number.t;        (* the value of Math.random() *)
  throws : nat -> bool      (* does the n-th statement of the call fail? *)
}.

Definition calm (r : Number.t) : World :=
  {| random := r; throws := fun _ => false |}.

(** ** A monad for code that awaits queries and may throw *)

Inductive Outcome (A : Type) :=
| Fulfilled (a : A)
| Rejected.
Arguments Fulfilled {A} a.
Arguments Rejected {A}.

Definition Async (A : Type) : Type := Client -> Outcome A * Client.

Definition ret {A} (a : A) : Async A := fun c => (Fulfilled a, c).

Definition bind {A B} (m : Async A) (k : A -> Async B) : Async B :=
  fun c =>
    match m c with
    | (Fulfilled a, c') => k a c'
    | (Rejected, c') => (Rejected, c')
    end.

(** [try { m } catch { h }] *)
Definition try_catch {A} (m h : Async A) : Async A :=
  fun c =>
    match m c with
    | (Fulfilled a, c') => (Fulfilled a, c')
    | (Rejected, c') => h c'
    end.

(** [await p.catch(() => {})] *)
Definition ignore_rejection (m : Async QueryResult) : Async QueryResult :=
  try_catch m (ret Done).

Notation "'const' x := 'await' m ; k" := (bind m (fun x => k))
  (at level 10, x name, m at level 100, k at level 200,
   format "'[v' 'const'  x  :=  'await'  m ; '/' k ']'").
Notation "'await' m ; k" := (bind m (fun _ => k))
  (at level 10, m at level 100, k at level 200,
   format "'[v' 'await'  m ; '/' k ']'").

(** [await client.query(s)] *)
Definition query (w : World) (s : Stmt) : Async QueryResult :=
  fun c =>
    if throws w (length (log c)) then
      (Rejected, {| durable := durable c; work := work c; log := log c ++ [s] |})
    else
      let '(r, d, wk) := run_stmt s (durable c) (work c) in
      (Fulfilled r, {| durable := d; work := wk; log := log c ++ [s] |}).

(** ** The handler *)

(** [simulatePayment(userId, amount)] *)
Definition simulatePayment (rnd : Number.t) (userId : string) (amount : Number.t) : bool :=
  if String.prefix "test-user" userId then true
  else Number.ltb rnd (Number.div (Number.of_Z 95) (Number.of_Z 100)).

(** Step 2, the first loop: lock each cart line's row, check its stock and
    add up the total.  [inl] is an early [return res.status(...)]. *)
Fixpoint lock_rows (w : World) (items : list CartItem)
    (totalAmount : Number.t) (orderItems : list PendingItem)
    : Async (Response + Number.t * list PendingItem) :=
  match items with
  | [] => ret (inr (totalAmount, orderItems))
  | item :: rest =>
      const result := await query w (SELECT_FOR_UPDATE (tier item));
      match result with
      | Rows (row :: _) =>
          let available := quantity_available row in
          let priceUsd := price_usd row in
          if available <? quantity item then
            await query w ROLLBACK;
            ret (inl (mkResponse 409
                        (InsufficientStock (tier item) (quantity item) available)))
          else
            let itemTotal := Number.mul (parseFloat priceUsd) (Number.of_Z (quantity item)) in
            lock_rows w rest (Number.add totalAmount itemTotal)
              (orderItems ++ [mkPending (tier item) (quantity item) priceUsd])
      | _ =>
          await query w ROLLBACK;
          ret (inl (mkResponse 400 (InvalidTier (tier item))))
      end
  end.

(** Step 5, the second loop: one line and one inventory update per item. *)
Fixpoint write_items (w : World) (orderId : nat) (orderItems : list PendingItem)
    : Async unit :=
  match orderItems with
  | [] => ret tt
  | item :: rest =>
      await query w (INSERT_ORDER_ITEM orderId (pending_tier item)
                       (pending_quantity item) (priceAtPurchase item));
      await query w (UPDATE_TICKETS (pending_tier item) (pending_quantity item));
      write_items w orderId rest
  end.

(** The body of the [try] block. *)
Definition transaction (w : World) (user : string) (items : list CartItem)
    : Async Response :=
  await query w BEGIN;
  const locked := await lock_rows w items (Number.of_Z 0) [];
  match locked with
  | inl response => ret response
  | inr (totalAmount, orderItems) =>
      if negb (simulatePayment (random w) user totalAmount) then
        await query w ROLLBACK;
        ret (mkResponse 400 PaymentFailed)
      else
        const orderResult := await query w (INSERT_ORDER user (toFixed2 totalAmount) PAID);
        let orderId := match orderResult with Returning id => id | _ => O end in
        await write_items w orderId orderItems;
        await query w COMMIT;
        ret (mkResponse 201
               (Booked orderId user (toFixed2 totalAmount) orderItems PAID))
  end.

(** The [catch] block. *)
Definition on_error (w : World) : Async Response :=
  await ignore_rejection (query w ROLLBACK);
  ret (mkResponse 500 ServerError).

(** The request validation at the top of the handler: [Some] when the body
    has a non-empty [userId] and a non-empty [cartItems] array. *)
Definition accepted (req : BookingRequest) : option (string * list CartItem) :=
  match userId req, cartItems req with
  | Some user, Some (item :: rest) =>
      if String.eqb user EmptyString then None else Some (user, item :: rest)
  | _, _ => None
  end.

(** [app.post('/api/book', ...)]: the response and the client as the call
    leaves it. *)
Definition handle (w : World) (req : BookingRequest) (db : Db) : Response * Client :=
  match accepted req with
  | None => (mkResponse 400 InvalidRequest, connect db)
  | Some (user, items) =>
      match try_catch (transaction w user items) (on_error w) (connect db) with
      | (Fulfilled response, c) => (response, c)
      | (Rejected, c) => (mkResponse 500 ServerError, c)   (* [on_error] never throws *)
      end
  end.

Definition book (w : World) (req : BookingRequest) (db : Db) : Response * Db :=
  let '(response, c) := handle w req db in (response, durable c).

(** The statements a call sent, in order. *)
Definition statements (w : World) (req : BookingRequest) (db : Db) : list Stmt :=
  log (snd (handle w req db)).

(** ** Bodies that are not of the handler's type

    The handler casts the parsed body to [BookingRequest] (index.ts 135)
    and checks only that [userId] is truthy and that [cartItems] is an
    array with an element (137).  [JSON.parse] also gives bodies of other
    types, and two kinds of them make the handler throw inside its [try]
    block without any statement failing: a [userId] that is no string has
    no method [startsWith] (295, called from 205), and an element [null]
    of [cartItems] has no property [tier] (168).  Every other element is
    read as a line: an object as its tier and its integer quantity; a
    number, a string, [true] or an array, whose [tier] is [undefined], as
    a line for a tier that the catalog does not have, since the SELECT
    finds no row for it. *)

Module Json.

Inductive UserId :=
| Text (s : string)
| NoText.           (* a number other than 0, [true], an object or an array *)

Inductive Item :=
| Line (item : CartItem)
| Null.

(** The JSON body; [userId] is [None] when the key is missing or holds
    [null], [false] or [0], [cartItems] when it is missing or no array. *)
Record Request := mk {
  userId : option UserId;
  cartItems : option (list Item)
}.

(** [throw new TypeError(...)] *)
Definition throw {A} : Async A := fun c => (Rejected, c).

(** Step 2, the first loop. *)
Fixpoint lock_rows (w : World) (items : list Item)
    (totalAmount : Number.t) (orderItems : list PendingItem)
    : Async (Response + Number.t * list PendingItem) :=
  match items with
  | [] => ret (inr (totalAmount, orderItems))
  | Null :: _ => throw                      (* [item.tier] of [null] *)
  | Line item :: rest =>
      const result := await query w (SELECT_FOR_UPDATE (tier item));
      match result with
      | Rows (row :: _) =>
          let available := quantity_available row in
          let priceUsd := price_usd row in
          if available <? quantity item then
            await query w ROLLBACK;
            ret (inl (mkResponse 409
                        (InsufficientStock (tier item) (quantity item) available)))
          else
            let itemTotal := Number.mul (parseFloat priceUsd) (Number.of_Z (quantity item)) in
            lock_rows w rest (Number.add totalAmount itemTotal)
              (orderItems ++ [mkPending (tier item) (quantity item) priceUsd])
      | _ =>
          await query w ROLLBACK;
          ret (inl (mkResponse 400 (InvalidTier (tier item))))
      end
  end.

(** The body of the [try] block. *)
Definition transaction (w : World) (user : UserId) (items : list Item)
    : Async Response :=
  await query w BEGIN;
  const locked := await lock_rows w items (Number.of_Z 0) [];
  match locked with
  | inl response => ret response
  | inr (totalAmount, orderItems) =>
      match user with
      | NoText => throw                     (* [userId.startsWith] is not a function *)
      | Text userId =>
          if negb (simulatePayment (random w) userId totalAmount) then
            await query w ROLLBACK;
            ret (mkResponse 400 PaymentFailed)
          else
            const orderResult :=
              await query w (INSERT_ORDER userId (toFixed2 totalAmount) PAID);
            let orderId := match orderResult with Returning id => id | _ => O end in
            await write_items w orderId orderItems;
            await query w COMMIT;
            ret (mkResponse 201
                   (Booked orderId userId (toFixed2 totalAmount) orderItems PAID))
      end
  end.

(** The request validation: [userId] truthy, [cartItems] an array with an
    element. *)
Definition accepted (req : Request) : option (UserId * list Item) :=
  match userId req, cartItems req with
  | Some user, Some (item :: rest) =>
      match user with
      | Text s => if String.eqb s EmptyString then None else Some (user, item :: rest)
      | NoText => Some (user, item :: rest)
      end
  | _, _ => None
  end.

(** [app.post('/api/book', ...)] *)
Definition handle (w : World) (req : Request) (db : Db) : Response * Client :=
  match accepted req with
  | None => (mkResponse 400 InvalidRequest, connect db)
  | Some (user, items) =>
      match try_catch (transaction w user items) (on_error w) (connect db) with
      | (Fulfilled response, c) => (response, c)
      | (Rejected, c) => (mkResponse 500 ServerError, c)   (* [on_error] never throws *)
      end
  end.

Definition book (w : World) (req : Request) (db : Db) : Response * Db :=
  let '(response, c) := handle w req db in (response, durable c).

Definition statements (w : World) (req : Request) (db : Db) : list Stmt :=
  log (snd (handle w req db)).

End Json.

(** A body of the handler's type, as a JSON body. *)
Definition typed (req : BookingRequest) : Json.Request :=
  {| Json.userId := option_map Json.Text (userId req);
     Json.cartItems := option_map (map Json.Line) (cartItems req) |}.

(** The arguments of the call [simulatePayment(userId, totalAmount)] of
    index.ts 205, when the handler gets there: after BEGIN and the first
    loop. *)
Definition payment_call (w : World) (req : BookingRequest) (db : Db)
    : option (string * Number.t) :=
  match accepted req with
  | Some (user, items) =>
      match (await query w BEGIN; lock_rows w items (Number.of_Z 0) []) (connect db) with
      | (Fulfilled (inr (totalAmount, _)), _) => Some (user, totalAmount)
      | _ => None
      end
  | None => None
  end.

(** * The vocabulary of the properties *)

(** ** What a call computes when every statement goes through *)

(** The catalog price of a tier, in cents. *)
Definition price_of (tk : gmap string Ticket) (t : string) : Z :=
  match tk !! t with Some row => price_usd row | None => 0 end.

(** The line the first loop records for a cart line. *)
Definition pending_of (tk : gmap string Ticket) (item : CartItem) : PendingItem :=
  mkPending (tier item) (quantity item) (price_of tk (tier item)).

(** The running total of the first loop, in double arithmetic. *)
Definition add_line (tk : gmap string Ticket) (totalAmount : Number.t)
    (item : CartItem) : Number.t :=
  Number.add totalAmount
    (Number.mul (parseFloat (price_of tk (tier item))) (Number.of_Z (quantity item))).

Definition cart_total (tk : gmap string Ticket) (items : list CartItem) : Number.t :=
  fold_left (add_line tk) items (Number.of_Z 0).

(** A line passes the check when its tier exists and its own quantity is
    at most the stock of that tier. *)
Definition in_stock (tk : gmap string Ticket) (item : CartItem) : Prop :=
  exists row, tk !! tier item = Some row /\ quantity item <= quantity_available row.

(** The first loop on the table it reads: the stock check and the total. *)
Fixpoint check_cart (tk : gmap string Ticket) (items : list CartItem)
    (totalAmount : Number.t) (orderItems : list PendingItem)
    : Response + Number.t * list PendingItem :=
  match items with
  | [] => inr (totalAmount, orderItems)
  | item :: rest =>
      match tk !! tier item with
      | Some row =>
          if quantity_available row <? quantity item then
            inl (mkResponse 409
                   (InsufficientStock (tier item) (quantity item) (quantity_available row)))
          else
            check_cart tk rest
              (Number.add totalAmount
                 (Number.mul (parseFloat (price_usd row)) (Number.of_Z (quantity item))))
              (orderItems ++ [mkPending (tier item) (quantity item) (price_usd row)])
      | None => inl (mkResponse 400 (InvalidTier (tier item)))
      end
  end.

Definition line_of (oid : nat) (p : PendingItem) : OrderItem :=
  mkOrderItem oid (pending_tier p) (pending_quantity p) (priceAtPurchase p).

(** The second loop on the tables it writes. *)
Fixpoint apply_items (orderId : nat) (orderItems : list PendingItem) (db : Db) : Db :=
  match orderItems with
  | [] => db
  | item :: rest =>
      apply_items orderId rest
        {| tickets := alter (decrement (pending_quantity item)) (pending_tier item) (tickets db);
           orders := orders db;
           order_items := order_items db ++
             [mkOrderItem orderId (pending_tier item) (pending_quantity item)
                (priceAtPurchase item)] |}
  end.

(** Steps 4 and 5 together. *)
Definition committed (db : Db) (user : string) (totalAmount : Number.t)
    (orderItems : list PendingItem) : Db :=
  apply_items (length (orders db)) orderItems
    {| tickets := tickets db;
       orders := orders db ++ [mkOrder user (toFixed2 totalAmount) PAID];
       order_items := order_items db |}.

(** The [try] block when nothing throws. *)
Definition settle (rnd : Number.t) (user : string) (items : list CartItem) (db : Db)
    : Response * Db :=
  match check_cart (tickets db) items (Number.of_Z 0) [] with
  | inl response => (response, db)
  | inr (totalAmount, orderItems) =>
      if simulatePayment rnd user totalAmount then
        (mkResponse 201
           (Booked (length (orders db)) user (toFixed2 totalAmount) orderItems PAID),
         committed db user totalAmount orderItems)
      else (mkResponse 400 PaymentFailed, db)
  end.

Definition outcome (rnd : Number.t) (req : BookingRequest) (db : Db) : Response * Db :=
  match accepted req with
  | None => (mkResponse 400 InvalidRequest, db)
  | Some (user, items) => settle rnd user items db
  end.

Definition select_stmts (items : list CartItem) : list Stmt :=
  map (fun item => SELECT_FOR_UPDATE (tier item)) items.

Definition write_stmts (orderId : nat) (orderItems : list PendingItem) : list Stmt :=
  flat_map (fun item =>
              [INSERT_ORDER_ITEM orderId (pending_tier item) (pending_quantity item)
                 (priceAtPurchase item);
               UPDATE_TICKETS (pending_tier item) (pending_quantity item)])
           orderItems.

Definition success_log (user : string) (items : list CartItem) (orderId : nat)
    (total : numeric) (orderItems : list PendingItem) : list Stmt :=
  [BEGIN] ++ select_stmts items ++ [INSERT_ORDER user total PAID]
    ++ write_stmts orderId orderItems ++ [COMMIT].

(** The tiers a call locked, in the order it locked them. *)
Definition lock_order (l : list Stmt) : list string :=
  flat_map (fun s => match s with SELECT_FOR_UPDATE t => [t] | _ => [] end) l.

(** ** States, and what is expected of them *)

(** The database after any number of calls, starting from [init]. *)
Inductive reachable (init : Db) : Db -> Prop :=
| reachable_init : reachable init init
| reachable_book db w req :
    reachable init db -> reachable init (snd (book w req db)).

(** [0 <= quantity_available <= total_quantity] on every row. *)
Definition stock_invariant (db : Db) : Prop :=
  forall t row, tickets db !! t = Some row ->
    0 <= quantity_available row <= total_quantity row.

(** The quantity a list of lines asks of tier [t]. *)
Fixpoint quantity_for {A} (key : A -> string) (qty : A -> Z) (t : string)
    (l : list A) : Z :=
  match l with
  | [] => 0
  | x :: rest =>
      (if String.eqb (key x) t then qty x else 0) + quantity_for key qty t rest
  end.

Definition requested (t : string) (items : list CartItem) : Z :=
  quantity_for tier quantity t items.

(** The exact total of a cart, in cents: the sum of quantity * price. *)
Fixpoint cart_cents (tk : gmap string Ticket) (items : list CartItem) : Z :=
  match items with
  | [] => 0
  | item :: rest => quantity item * price_of tk (tier item) + cart_cents tk rest
  end.

Definition is_paid (os : list Order) (oid : nat) : bool :=
  match os !! oid with
  | Some o => match status o with PAID => true | _ => false end
  | None => false
  end.

(** The order lines that belong to a PAID order. *)
Definition paid_lines (db : Db) : list OrderItem :=
  List.filter (fun line => is_paid (orders db) (order_id line)) (order_items db).

(** The tickets of tier [t] sold by PAID orders. *)
Definition sold (db : Db) (t : string) : Z :=
  quantity_for ticket_tier item_quantity t (paid_lines db).

Definition conservation (db : Db) : Prop :=
  forall t row, tickets db !! t = Some row ->
    total_quantity row - quantity_available row = sold db t.

(** An inventory as the seed scripts and the tests' reset leave it: no
    order, and every tier fully available. *)
Definition fresh (db : Db) : Prop :=
  orders db = [] /\ order_items db = [] /\
  forall t row, tickets db !! t = Some row ->
    quantity_available row = total_quantity row.

(** The foreign key of [order_items]: every line points to an order. *)
Definition lines_attached (db : Db) : Prop :=
  Forall (fun line => (order_id line < length (orders db))%nat) (order_items db).

(** A change of a tier's catalog price, made outside the handler:
    [UPDATE tickets SET price_usd = p WHERE tier = t]. *)
Definition reprice (t : string) (p : Z) (db : Db) : Db :=
  {| tickets :=
       alter (fun row => mkTicket p (quantity_available row) (total_quantity row)) t
         (tickets db);
     orders := orders db;
     order_items := order_items db |}.

(** The database after any number of bookings and price changes. *)
Inductive evolves (init : Db) : Db -> Prop :=
| evolves_init : evolves init init
| evolves_book db w req : evolves init db -> evolves init (snd (book w req db))
| evolves_reprice db t p : evolves init db -> evolves init (reprice t p db).

(** The lines of order [oid]. *)
Definition lines_of (db : Db) (oid : nat) : list OrderItem :=
  List.filter (fun line => Nat.eqb (order_id line) oid) (order_items db).

(** The total of some order lines as the handler adds it up: in doubles,
    [parseFloat(price) * quantity] line after line. *)
Definition line_total (lines : list OrderItem) : Number.t :=
  fold_left
    (fun acc line =>
       Number.add acc
         (Number.mul (parseFloat (price_at_purchase line))
            (Number.of_Z (item_quantity line))))
    lines (Number.of_Z 0).

(** The exact total of some order lines, in cents. *)
Fixpoint line_cents (lines : list OrderItem) : Z :=
  match lines with
  | [] => 0
  | line :: rest => item_quantity line * price_at_purchase line + line_cents rest
  end.

(** Every stored total is the rounded double total of the order's lines. *)
Definition totals_match (db : Db) : Prop :=
  forall oid o, orders db !! oid = Some o ->
    total_amount o = toFixed2 (line_total (lines_of db oid)).

(** ** Totals that can be stored *)

(** The order lines a cart becomes when it is booked as order [oid]. *)
Definition cart_lines (tk : gmap string Ticket) (oid : nat) (items : list CartItem)
    : list OrderItem :=
  map (line_of oid) (map (pending_of tk) items).

(** [x] is zero or a positive normal double, and [v] is the rational it
    stands for. *)
Definition stands_for (x : Number.t) (v : Q) : Prop :=
  match x with
  | S754_zero _ => (v == 0)%Q
  | S754_finite false m e =>
      Z.pos (digits2_pos m) = 53 /\ -1000 <= e /\
      (v == inject_Z (Z.pos m) * 2 ^ e)%Q
  | _ => False
  end.

(** Order lines as the tables hold them: a quantity that is not negative
    and fits [INTEGER], a price that fits [NUMERIC(10,2)]; at most 80000
    of them, with an exact total that fits [NUMERIC(10,2)]. *)
Definition storable (lines : list OrderItem) : Prop :=
  Forall (fun line =>
            0 <= item_quantity line < 2 ^ 31 /\
            0 <= price_at_purchase line < 10 ^ 10) lines /\
  Z.of_nat (length lines) <= 80000 /\
  line_cents lines < 10 ^ 10.

(** ** Status classes *)




(** * The code around the booking handler *)

(** ** Plain carts, and failures *)

(** A request whose cart names each tier at most once and has no negative
    quantity. *)
Definition plain (req : BookingRequest) : Prop :=
  forall items, cartItems req = Some items ->
    List.NoDup (map tier items) /\ Forall (fun item => 0 <= quantity item) items.

(** The database after any number of calls with such requests. *)
Inductive plainly_reachable (init : Db) : Db -> Prop :=
| plainly_init : plainly_reachable init init
| plainly_book db w req :
    plainly_reachable init db -> plain req ->
    plainly_reachable init (snd (book w req db)).

(** The statement at position [n] of a call failed. *)
Definition failed_at (w : World) (l : list Stmt) (n : nat) : Prop :=
  (n < length l)%nat /\ throws w n = true.

(** A computation that sends its statements one after the other and stops
    at the first one that fails: fulfilled when none of its statements
    failed, rejected right after the first that did. *)
Definition sequential {A} (w : World) (m : Async A) : Prop :=
  forall c o c', m c = (o, c') ->
    exists l,
      log c' = log c ++ l /\
      match o with
      | Fulfilled _ =>
          forall n, (n < length l)%nat -> throws w (length (log c) + n) = false
      | Rejected =>
          exists l0 s,
            l = l0 ++ [s] /\ throws w (length (log c) + length l0) = true /\
            forall n, (n < length l0)%nat -> throws w (length (log c) + n) = false
      end.

(** ** Bodies of other types, and the statements of a call *)

(** The lines of a cart that come before its first [null]. *)
Fixpoint lines_before_null (items : list Json.Item) : list CartItem :=
  match items with
  | Json.Line item :: rest => item :: lines_before_null rest
  | _ => []
  end.

Definition has_null (items : list Json.Item) : bool :=
  existsb (fun i => match i with Json.Null => true | Json.Line _ => false end) items.


(** A statement that writes. *)
Definition is_write (s : Stmt) : bool :=
  match s with
  | INSERT_ORDER _ _ _ | INSERT_ORDER_ITEM _ _ _ _ | UPDATE_TICKETS _ _ => true
  | _ => false
  end.

(** One of the statements of a call failed. *)
Definition failed (w : World) (l : list Stmt) : bool :=
  existsb (throws w) (seq 0 (length l)).

(** ** The read endpoints *)

(** A row of the catalog answer, [{tier, priceUsd, quantityAvailable}]; the
    frontend knows it as [TicketTier]. *)
Module TicketTier.
Record t := mk {
  tier : string;
  priceUsd : Z;             (* the NUMERIC text, in cents *)
  quantityAvailable : Z
}.
End TicketTier.

(** The JSON of a read endpoint: [{success: true, data}] or
    [{success: false, error}]. *)
Inductive ReadBody (A : Type) :=
| Data (data : A)
| Failure (error : string).
Arguments Data {A} data.
Arguments Failure {A} error.

Record ReadResponse (A : Type) := mkRead {
  read_status : Z;
  read_body : ReadBody A
}.
Arguments mkRead {A} read_status read_body.
Arguments read_status {A} r.
Arguments read_body {A} r.

(** [db.select({tier, priceUsd, quantityAvailable}).from(tickets)]: one row
    per tier, in an order the query does not fix. *)
Definition ticketCatalog (tk : gmap string Ticket) : list TicketTier.t :=
  map (fun r => TicketTier.mk (fst r) (price_usd (snd r)) (quantity_available (snd r)))
      (map_to_list tk).

(** [app.get('/api/catalog', ...)]; [rejects] tells whether the query
    fails. *)
Definition get_catalog (rejects : bool) (db : Db) : ReadResponse (list TicketTier.t) :=
  if rejects then mkRead 500 (Failure "Failed to fetch ticket catalog")
  else mkRead 200 (Data (ticketCatalog (tickets db))).

(** An element of the answer of GET /api/orders/:userId: [{...order, items}]. *)
Module UserOrder.
Record t := mk {
  id : nat;
  order : Order;            (* userId, totalAmount, status *)
  createdAt : Z;
  items : list OrderItem
}.
End UserOrder.

(** The rows of [orders] with their ids. *)
Fixpoint rows_from (n : nat) (os : list Order) : list (nat * Order) :=
  match os with
  | [] => []
  | o :: rest => (n, o) :: rows_from (S n) rest
  end.

(** [ORDER BY created_at DESC], the column being given by order id. *)
Fixpoint insert_desc (created_at : nat -> Z) (x : nat * Order) (l : list (nat * Order))
    : list (nat * Order) :=
  match l with
  | [] => [x]
  | y :: rest =>
      if created_at (fst y) <? created_at (fst x) then x :: y :: rest
      else y :: insert_desc created_at x rest
  end.

Definition order_by_desc (created_at : nat -> Z) (l : list (nat * Order))
    : list (nat * Order) :=
  fold_right (insert_desc created_at) [] l.

(** [db.select().from(orders).where(eq(orders.userId, userId))
       .orderBy(desc(orders.createdAt))] *)
Definition userOrders (created_at : nat -> Z) (user : string) (db : Db)
    : list (nat * Order) :=
  order_by_desc created_at
    (List.filter (fun r => String.eqb (user_id (snd r)) user) (rows_from 0 (orders db))).

(** [app.get('/api/orders/:userId', ...)].  Query 0 selects the orders; when
    there are some, query [i + 1] selects the lines of the [i]-th of them,
    all inside one [Promise.all]; [throws] tells which queries fail. *)
Definition get_orders (throws : nat -> bool) (created_at : nat -> Z) (user : string)
    (db : Db) : ReadResponse (list UserOrder.t) :=
  if throws O then mkRead 500 (Failure "Failed to fetch user orders")
  else
    match userOrders created_at user db with
    | [] => mkRead 200 (Data [])
    | first :: others =>
        if existsb throws (seq 1 (length (first :: others))) then
          mkRead 500 (Failure "Failed to fetch user orders")
        else
          mkRead 200
            (Data (map (fun r => UserOrder.mk (fst r) (snd r) (created_at (fst r))
                                   (lines_of db (fst r)))
                       (first :: others)))
    end.

(** No query fails. *)
Definition steady : nat -> bool := fun _ => false.

(** Newest first. *)
Definition newer_first (a b : UserOrder.t) : Prop :=
  UserOrder.createdAt b <= UserOrder.createdAt a.

(** ** The seed script and the helpers of tests/helpers/setup.ts *)

(** The statements these scripts send with [pool.query] or [db.insert],
    outside a transaction: each is committed at once, or fails without
    effect. *)
Inductive PoolStmt :=
| DELETE_ORDER_ITEMS
| DELETE_ORDERS
| RESTORE_QUANTITIES                    (* SET quantity_available = total_quantity *)
| SET_QUANTITY (q : Z) (t : string)     (* SET quantity_available = $1 WHERE tier = $2 *)
| INSERT_TICKETS (rows : list (string * Ticket)).   (* ... ON CONFLICT DO NOTHING *)

(** One row of an [INSERT ... ON CONFLICT DO NOTHING]: skipped when its tier
    is there already. *)
Definition insert_or_skip (tk : gmap string Ticket) (r : string * Ticket)
    : gmap string Ticket :=
  match tk !! fst r with
  | Some _ => tk
  | None => <[fst r := snd r]> tk
  end.

Definition run_pool_stmt (s : PoolStmt) (db : Db) : Db :=
  match s with
  | DELETE_ORDER_ITEMS =>
      {| tickets := tickets db; orders := orders db; order_items := [] |}
  | DELETE_ORDERS =>
      (* [order_id ... REFERENCES orders(id) ON DELETE CASCADE] *)
      {| tickets := tickets db;
         orders := [];
         order_items :=
           List.filter (fun line => negb (order_id line <? length (orders db))%nat)
             (order_items db) |}
  | RESTORE_QUANTITIES =>
      {| tickets :=
           (fun row => mkTicket (price_usd row) (total_quantity row) (total_quantity row))
             <$> tickets db;
         orders := orders db;
         order_items := order_items db |}
  | SET_QUANTITY q t =>
      {| tickets :=
           alter (fun row => mkTicket (price_usd row) q (total_quantity row)) t (tickets db);
         orders := orders db;
         order_items := order_items db |}
  | INSERT_TICKETS rows =>
      {| tickets := fold_left insert_or_skip rows (tickets db);
         orders := orders db;
         order_items := order_items db |}
  end.

Definition pool_query (rejects : bool) (s : PoolStmt) (db : Db) : Outcome unit * Db :=
  if rejects then (Rejected, db) else (Fulfilled tt, run_pool_stmt s db).

(** [resetDatabase()]: three statements, the error of the first that fails
    is thrown again. *)
Definition resetDatabase (throws : nat -> bool) (db : Db) : Outcome unit * Db :=
  match pool_query (throws 0%nat) DELETE_ORDER_ITEMS db with
  | (Fulfilled _, db1) =>
      match pool_query (throws 1%nat) DELETE_ORDERS db1 with
      | (Fulfilled _, db2) => pool_query (throws 2%nat) RESTORE_QUANTITIES db2
      | (Rejected, db2) => (Rejected, db2)
      end
  | (Rejected, db1) => (Rejected, db1)
  end.

(** [setTicketQuantity(tier, quantity)] *)
Definition setTicketQuantity (rejects : bool) (t : string) (q : Z) (db : Db)
    : Outcome unit * Db :=
  pool_query rejects (SET_QUANTITY q t) db.

(** The rows of backend/seed.ts, which are those of
    backend/migrations/02_schema_seed.sql, and the rows of the later copy of
    the script. *)
Definition seedData_10_50_200 : list (string * Ticket) :=
  [("VIP", mkTicket 10000 10 10);
   ("FRONT_ROW", mkTicket 5000 50 50);
   ("GA", mkTicket 1000 200 200)].

Definition seedData_100_200_500 : list (string * Ticket) :=
  [("VIP", mkTicket 10000 100 100);
   ("FRONT_ROW", mkTicket 5000 200 200);
   ("GA", mkTicket 1000 500 500)].

(** [seedDatabase()]: the insert of [seedData], then a select of the table
    for the log. *)
Definition seedDatabase (seedData : list (string * Ticket)) (throws : nat -> bool)
    (db : Db) : Outcome unit * Db :=
  match pool_query (throws 0%nat) (INSERT_TICKETS seedData) db with
  | (Fulfilled _, db1) =>
      if throws 1%nat then (Rejected, db1) else (Fulfilled tt, db1)
  | (Rejected, db1) => (Rejected, db1)
  end.

(** What the statement has for a tier: its first row with that tier. *)
Definition seed_row (seedData : list (string * Ticket)) (t : string) : option Ticket :=
  snd <$> List.find (fun r => String.eqb (fst r) t) seedData.

(** What one [fetch] of [waitForBackend] meets: an answer with
    [response.ok], another answer, or no answer ([fetch] rejects). *)
Inductive Probe := Ready | NotReady | Unreachable.

(** The loop of [waitForBackend] and [waitForFrontend] from attempt [i] on,
    with [remaining] attempts left; [probe i] is what attempt [i] meets and
    [waited] counts the seconds slept so far.  It returns when an answer is
    ok, and throws when the attempts are used up. *)
Fixpoint waitForBackend_from (probe : nat -> Probe) (i remaining waited : nat)
    : Outcome unit * nat :=
  match remaining with
  | O => (Rejected, waited)
  | S k =>
      match probe i with
      | Ready => (Fulfilled tt, waited)
      | NotReady => waitForBackend_from probe (S i) k waited
      | Unreachable => waitForBackend_from probe (S i) k (S waited)
      end
  end.

Definition waitForBackend (probe : nat -> Probe) (maxAttempts : nat) : Outcome unit * nat :=
  waitForBackend_from probe 0 maxAttempts 0.

(** The attempts among [i], ..., [i + n - 1] that got no answer. *)
Fixpoint unanswered (probe : nat -> Probe) (i n : nat) : nat :=
  match n with
  | O => O
  | S k =>
      (match probe i with Unreachable => 1 | _ => 0 end + unanswered probe (S i) k)%nat
  end.

(** The schema right after the migration that creates the tables. *)
Definition empty_db : Db := {| tickets := ∅; orders := []; order_items := [] |}.

(** ** The home page and its cart *)

(** The frontend's [CartItem]: [{tier, quantity, priceUsd}]. *)
Module CartLine.
Record t := mk {
  tier : string;
  quantity : Z;
  priceUsd : Z              (* the price text, in cents *)
}.
End CartLine.

Module MockUser.
Record t := mk {
  id : string;
  name : string;
  avatar : string
}.
End MockUser.

(** What [bookingError] can hold: the data of the three messages the page
    composes itself, or the error of an answer of the API. *)
Inductive Notice :=
| OnlyAvailable (available : Z) (t : string)
| OnlyAdditional (available : Z) (t : string)
| CartIsEmpty
| Refused (answer : Response).

(** The state of the [Home] component that the cart works on. *)
Module Home.
Record t := mk {
  tickets : list TicketTier.t;
  cart : list CartLine.t;
  quantities : gmap string Z;
  bookingSuccess : option Body;
  bookingError : option Notice;
  isCartOpen : bool;
  user : option MockUser.t
}.
End Home.

(** [tickets.find(t => t.tier === tier)] and [cart.find(item => item.tier === tier)] *)
Definition find_ticket (t : string) (l : list TicketTier.t) : option TicketTier.t :=
  List.find (fun x => String.eqb (TicketTier.tier x) t) l.

Definition find_item (t : string) (l : list CartLine.t) : option CartLine.t :=
  List.find (fun item => String.eqb (CartLine.tier item) t) l.

(** [currentTickets.map(t => t.tier === tier ? {...t, quantityAvailable: f(t.quantityAvailable)} : t)] *)
Definition with_available (t : string) (f : Z -> Z) (l : list TicketTier.t)
    : list TicketTier.t :=
  map (fun x =>
         if String.eqb (TicketTier.tier x) t then
           TicketTier.mk (TicketTier.tier x) (TicketTier.priceUsd x)
             (f (TicketTier.quantityAvailable x))
         else x) l.

(** [cart.map(item => item.tier === tier ? {...item, quantity} : item)] *)
Definition with_quantity (t : string) (q : Z) (l : list CartLine.t) : list CartLine.t :=
  map (fun item =>
         if String.eqb (CartLine.tier item) t then
           CartLine.mk (CartLine.tier item) q (CartLine.priceUsd item)
         else item) l.

Definition handleQuantityChange (t : string) (value : Z) (st : Home.t) : Home.t :=
  Home.mk (Home.tickets st) (Home.cart st) (<[t := value]> (Home.quantities st))
    (Home.bookingSuccess st) (Home.bookingError st) (Home.isCartOpen st) (Home.user st).

Definition addToCart (t : string) (st : Home.t) : Home.t :=
  let quantity := default 0 (Home.quantities st !! t) in
  if quantity <=? 0 then st
  else
    match find_ticket t (Home.tickets st) with
    | None => st
    | Some ticket =>
        if TicketTier.quantityAvailable ticket <? quantity then
          Home.mk (Home.tickets st) (Home.cart st) (Home.quantities st)
            (Home.bookingSuccess st)
            (Some (OnlyAvailable (TicketTier.quantityAvailable ticket) t))
            true (Home.user st)
        else
          let existingItem := find_item t (Home.cart st) in
          let updatedCart :=
            match existingItem with
            | Some _ => with_quantity t quantity (Home.cart st)
            | None => Home.cart st ++ [CartLine.mk t quantity (TicketTier.priceUsd ticket)]
            end in
          let previousQuantity :=
            match existingItem with
            | Some item => CartLine.quantity item
            | None => 0
            end in
          let quantityDifference := quantity - previousQuantity in
          Home.mk
            (with_available t (fun a => Z.max 0 (a - quantityDifference)) (Home.tickets st))
            updatedCart (<[t := 0]> (Home.quantities st))
            (Home.bookingSuccess st) None (Home.isCartOpen st) (Home.user st)
    end.

Definition removeFromCart (t : string) (st : Home.t) : Home.t :=
  match find_item t (Home.cart st) with
  | None => st
  | Some itemToRemove =>
      Home.mk
        (with_available t (fun a => a + CartLine.quantity itemToRemove) (Home.tickets st))
        (List.filter (fun item => negb (String.eqb (CartLine.tier item) t)) (Home.cart st))
        (Home.quantities st) (Home.bookingSuccess st) None (Home.isCartOpen st)
        (Home.user st)
  end.

Definition updateCartItemQuantity (t : string) (newQuantity : Z) (st : Home.t) : Home.t :=
  match find_item t (Home.cart st) with
  | None => st
  | Some itemToUpdate =>
      let currentDisplayedAvailable :=
        match find_ticket t (Home.tickets st) with
        | Some ticket => TicketTier.quantityAvailable ticket
        | None => 0
        end in
      let quantityDifference := newQuantity - CartLine.quantity itemToUpdate in
      if currentDisplayedAvailable <? quantityDifference then
        Home.mk (Home.tickets st) (Home.cart st) (Home.quantities st)
          (Home.bookingSuccess st)
          (Some (OnlyAdditional currentDisplayedAvailable t))
          (Home.isCartOpen st) (Home.user st)
      else
        Home.mk
          (with_available t (fun a => a - quantityDifference) (Home.tickets st))
          (with_quantity t newQuantity (Home.cart st))
          (Home.quantities st) (Home.bookingSuccess st) None (Home.isCartOpen st)
          (Home.user st)
  end.

(** [cart.reduce((total, item) => total + parseFloat(item.priceUsd) * item.quantity, 0)] *)
Definition calculateTotal (cart : list CartLine.t) : Number.t :=
  fold_left
    (fun total item =>
       Number.add total
         (Number.mul (parseFloat (CartLine.priceUsd item))
            (Number.of_Z (CartLine.quantity item))))
    cart (Number.of_Z 0).

(** The body [handleBooking] posts: nothing without a user or with an empty
    cart. *)
Definition bookingData (st : Home.t) : option BookingRequest :=
  match Home.user st, Home.cart st with
  | Some u, _ :: _ =>
      Some {| userId := Some (MockUser.id u);
              cartItems :=
                Some (map (fun item => mkCartItem (CartLine.tier item) (CartLine.quantity item))
                        (Home.cart st)) |}
  | _, _ => None
  end.

(** [handleBooking()], with the API on the other side of [fetch]; the
    request itself is taken to arrive. *)
Definition handleBooking (w : World) (st : Home.t) (db : Db) : Home.t * Db :=
  match Home.user st with
  | None => (st, db)
  | Some u =>
      match bookingData st with
      | None =>
          (Home.mk (Home.tickets st) (Home.cart st) (Home.quantities st)
             (Home.bookingSuccess st) (Some CartIsEmpty) (Home.isCartOpen st)
             (Home.user st), db)
      | Some req =>
          let '(response, db') := book w req db in
          let ok := (200 <=? http_status response) && (http_status response <=? 299) in
          match ok, body response with
          | true, Booked _ _ _ _ _ =>
              (Home.mk (Home.tickets st) [] (Home.quantities st)
                 (Some (body response)) None (Home.isCartOpen st) (Home.user st), db')
          | _, _ =>
              (Home.mk (Home.tickets st) (Home.cart st) (Home.quantities st)
                 None (Some (Refused response)) (Home.isCartOpen st) (Home.user st), db')
          end
      end
  end.

(** [setUser(getOrCreateUser())] in the effect that initialises the page. *)
Definition setUser (u : MockUser.t) (st : Home.t) : Home.t :=
  Home.mk (Home.tickets st) (Home.cart st) (Home.quantities st) (Home.bookingSuccess st)
    (Home.bookingError st) (Home.isCartOpen st) (Some u).

(** [setTickets(data.data)] at the end of [fetchTickets]. *)
Definition setTickets (data : list TicketTier.t) (st : Home.t) : Home.t :=
  Home.mk data (Home.cart st) (Home.quantities st) (Home.bookingSuccess st)
    (Home.bookingError st) (Home.isCartOpen st) (Home.user st).

Definition resetBooking (st : Home.t) : Home.t :=
  Home.mk (Home.tickets st) (Home.cart st) (Home.quantities st) None None
    (Home.isCartOpen st) (Home.user st).

Definition setIsCartOpen (open : bool) (st : Home.t) : Home.t :=
  Home.mk (Home.tickets st) (Home.cart st) (Home.quantities st) (Home.bookingSuccess st)
    (Home.bookingError st) open (Home.user st).

(** The controls of the page and of components/Cart.tsx. *)
Definition quantity_input (ticket : TicketTier.t) (typed : option Z) (st : Home.t) : Home.t :=
  handleQuantityChange (TicketTier.tier ticket)
    (Z.min (TicketTier.quantityAvailable ticket) (Z.max 0 (default 0 typed))) st.

Definition minus_button (item : CartLine.t) (st : Home.t) : Home.t :=
  if 1 <? CartLine.quantity item then
    updateCartItemQuantity (CartLine.tier item) (CartLine.quantity item - 1) st
  else st.

Definition plus_button (item : CartLine.t) (st : Home.t) : Home.t :=
  updateCartItemQuantity (CartLine.tier item) (CartLine.quantity item + 1) st.

(** One event on the page, each handler running on the state the previous
    one left. *)
Inductive event (st : Home.t) : Home.t -> Prop :=
| event_input ticket typed :
    In ticket (Home.tickets st) -> event st (quantity_input ticket typed st)
| event_add ticket :
    In ticket (Home.tickets st) -> event st (addToCart (TicketTier.tier ticket) st)
| event_minus item : In item (Home.cart st) -> event st (minus_button item st)
| event_plus item : In item (Home.cart st) -> event st (plus_button item st)
| event_remove item :
    In item (Home.cart st) -> event st (removeFromCart (CartLine.tier item) st)
| event_fetched data : event st (setTickets data st)
| event_booking w db : event st (fst (handleBooking w st db))
| event_reset : event st (resetBooking st)
| event_open open : event st (setIsCartOpen open st)
| event_user u : event st (setUser u st).

(** The page when it mounts, and the states it can get to. *)
Definition mounted : Home.t := Home.mk [] [] ∅ None None false None.

Inductive visited : Home.t -> Prop :=
| visited_mounted : visited mounted
| visited_event st st' : visited st -> event st st' -> visited st'.

(** A cart that names each tier once, with at least one ticket of each. *)
Definition tidy (cart : list CartLine.t) : Prop :=
  List.NoDup (map CartLine.tier cart) /\
  Forall (fun item => 1 <= CartLine.quantity item) cart.

(** What the page shows for a tier, and what the cart holds of it. *)
Definition displayed (t : string) (st : Home.t) : Z :=
  match find_ticket t (Home.tickets st) with
  | Some ticket => TicketTier.quantityAvailable ticket
  | None => 0
  end.

Definition in_cart (t : string) (st : Home.t) : Z :=
  match find_item t (Home.cart st) with
  | Some item => CartLine.quantity item
  | None => 0
  end.

(** ** Text helpers of the frontend (utils/formatters.ts, utils/userUtils.ts)

    Strings are ASCII here: [toUpperCase] and [toLowerCase] move the letters
    A-Z and a-z and leave every other character. *)

Definition toUpperCase_char (c : ascii) : ascii :=
  let n := nat_of_ascii c in
  if ((97 <=? n) && (n <=? 122))%nat then ascii_of_nat (n - 32) else c.

Definition toLowerCase_char (c : ascii) : ascii :=
  let n := nat_of_ascii c in
  if ((65 <=? n) && (n <=? 90))%nat then ascii_of_nat (n + 32) else c.

Fixpoint toUpperCase (s : string) : string :=
  match s with
  | EmptyString => EmptyString
  | String c rest => String (toUpperCase_char c) (toUpperCase rest)
  end.

Fixpoint toLowerCase (s : string) : string :=
  match s with
  | EmptyString => EmptyString
  | String c rest => String (toLowerCase_char c) (toLowerCase rest)
  end.

(** [s.split('_')] *)
Fixpoint split_underscore (s : string) : list string :=
  match s with
  | EmptyString => [EmptyString]
  | String c rest =>
      if Ascii.eqb c "_" then EmptyString :: split_underscore rest
      else
        match split_underscore rest with
        | word :: words => String c word :: words
        | [] => [String c EmptyString]
        end
  end.

(** [word.charAt(0).toUpperCase() + word.slice(1).toLowerCase()] *)
Definition capitalize (word : string) : string :=
  match word with
  | EmptyString => EmptyString
  | String c rest => String (toUpperCase_char c) (toLowerCase rest)
  end.

(** [words.join(' ')] *)
Fixpoint join_space (words : list string) : string :=
  match words with
  | [] => EmptyString
  | [word] => word
  | word :: rest => (word ++ " " ++ join_space rest)%string
  end.

Definition formatTierName (tier : string) : string :=
  join_space (map capitalize (split_underscore tier)).

(** Every character is in the ASCII range. *)
Fixpoint is_ascii (s : string) : Prop :=
  match s with
  | EmptyString => True
  | String c rest => (nat_of_ascii c < 128)%nat /\ is_ascii rest
  end.

Definition firstNames : list string :=
  ["Alex"; "Jamie"; "Adam"; "Jordan"; "Casey"; "Riley"; "Morgan"; "Avery";
   "Quinn"; "Blake"; "Cameron"; "Reese"; "Finley"; "River"; "Dakota"; "Emerson"].

Definition lastNames : list string :=
  ["Smith"; "Johnson"; "Williams"; "Jones"; "Brown"; "Davis"; "Miller"; "Wilson";
   "Moore"; "Taylor"; "Anderson"; "Thomas"; "Jackson"; "White"; "Harris"; "Martin"].

(** The [do ... while] that picks the last name; [draws] are the successive
    values of [Math.floor(Math.random() * lastNames.length)], and [None]
    means that they are used up with the loop still running. *)
Fixpoint pick_lastName (firstName : string) (draws : list nat) : option string :=
  match draws with
  | [] => None
  | j :: rest =>
      let lastName := nth j lastNames EmptyString in
      if String.eqb (toLowerCase lastName) (toLowerCase firstName) then
        pick_lastName firstName rest
      else Some lastName
  end.

(** [word.charAt(0)] *)
Definition charAt0 (word : string) : string :=
  match word with
  | EmptyString => EmptyString
  | String c _ => String c EmptyString
  end.

(** [generateRandomUser()]: [text] is [Math.random().toString(36)], [i] the
    index drawn for the first name.  The initials are two letters, which
    [encodeURIComponent] leaves as they are. *)
Definition generateRandomUser (text : string) (i : nat) (draws : list nat)
    : option MockUser.t :=
  let userId := ("user_" ++ String.substring 2 8 text)%string in
  let firstName := nth i firstNames EmptyString in
  match pick_lastName firstName draws with
  | None => None
  | Some lastName =>
      let fullName := (firstName ++ " " ++ lastName)%string in
      let initials := (charAt0 firstName ++ charAt0 lastName)%string in
      Some (MockUser.mk userId fullName
              ("https://ui-avatars.com/api/?name=" ++ initials
                 ++ "&background=random&size=128&bold=true&format=svg")%string)
  end.

(** No character is an underscore. *)
Fixpoint no_underscore (s : string) : Prop :=
  match s with
  | EmptyString => True
  | String c rest => c <> "_"%char /\ no_underscore rest
  end.

(** The length of [join_space words]: the words and the separators between
    them. *)
Fixpoint joined_length (words : list string) : nat :=
  match words with
  | [] => O
  | [word] => String.length word
  | word :: rest => (String.length word + 1 + joined_length rest)%nat
  end.

(** A draw of [Math.random()] at or above 0.95. *)
Definition declined (rnd : Number.t) : Prop :=
  Number.ltb rnd (Number.div (Number.of_Z 95) (Number.of_Z 100)) = false.

(** ** Worlds, requests and inventories used in the examples *)

Definition half : Number.t := Number.div (Number.of_Z 1) (Number.of_Z 2).
Definition unlucky : Number.t := Number.div (Number.of_Z 99) (Number.of_Z 100).

Definition request (user : string) (items : list CartItem) : BookingRequest :=
  {| userId := Some user; cartItems := Some items |}.

(** The connection drops on the sixth statement, after the order and its
    first line were inserted and the first tier decremented. *)
Definition drops_at_5 : World :=
  {| random := half; throws := fun n => Nat.eqb n 5 |}.

Definition two_tiers : BookingRequest :=
  request "alice" [mkCartItem "GA" 3; mkCartItem "VIP" 1].

Definition three_tiers : list CartItem :=
  [mkCartItem "VIP" 1; mkCartItem "FRONT_ROW" 2; mkCartItem "GA" 5].

Definition vip_6_6 : list CartItem := [mkCartItem "VIP" 6; mkCartItem "VIP" 6].
Definition vip_minus_5 : list CartItem := [mkCartItem "VIP" (-5)].
Definition vip_zero : list CartItem := [mkCartItem "VIP" 0].
Definition vip_then_ga : list CartItem := [mkCartItem "VIP" 1; mkCartItem "GA" 1].
Definition ga_then_vip : list CartItem := [mkCartItem "GA" 1; mkCartItem "VIP" 1].

(** The body of the test "should fail with invalid request". *)
Definition no_cart : BookingRequest :=
  {| userId := Some "test-user"; cartItems := None |}.

(** An inventory with two expensive tiers, within the column types
    ([NUMERIC(10,2)] below 10^8, [INTEGER] below 2^31). *)
Definition arena : Db :=
  {| tickets :=
       <["BOX" := mkTicket 9999999999 400000 400000]>
         (<["LAWN" := mkTicket 9999999 1000000000 1000000000]> ∅);
     orders := [];
     order_items := [] |}.

(** Two carts that come to one ticket each. *)
Definition box_net_one : list CartItem :=
  [mkCartItem "BOX" 351848; mkCartItem "BOX" (-351847)].
Definition lawn_net_one : list CartItem :=
  [mkCartItem "LAWN" 1000000000; mkCartItem "LAWN" (-999999999)].

Definition after_box : Db :=
  snd (book (calm half) (request "test-user-1" box_net_one) arena).

Definition after_two_bookings : Db :=
  snd (book drops_at_5 two_tiers
         (snd (book (calm half) (request "test-user-1" vip_6_6)
                 (snd (book (calm half)
                         (request "bob" [mkCartItem "GA" 2; mkCartItem "VIP" 3]) seed))))).

Definition after_price_change : Db :=
  snd (book (calm half) (request "test-user-2" [mkCartItem "VIP" 1])
         (reprice "VIP" 12345
            (snd (book (calm half)
                    (request "bob" [mkCartItem "GA" 2; mkCartItem "VIP" 3]) seed)))).

(** Three calls with plain carts: a booking, a call that loses its
    connection, and a declined payment. *)
Definition after_plain_bookings : Db :=
  snd (book (calm unlucky) two_tiers
         (snd (book drops_at_5 two_tiers
                 (snd (book (calm half) (request "test-user-9" three_tiers) seed))))).

(** Two users with one order each, as in the test "should only return
    orders for specific user"; orders are stamped with their rank. *)
Definition after_two_users : Db :=
  snd (book (calm half) (request "test-user-2" [mkCartItem "FRONT_ROW" 1])
         (snd (book (calm half) (request "test-user-1" [mkCartItem "VIP" 1]) seed))).

Definition by_rank (oid : nat) : Z := Z.of_nat oid.

(** The test "should update inventory after booking": five VIP tickets
    booked from the inventory of the later seed script. *)
Definition after_five_vip : Db :=
  snd (book (calm half) (request "test-user-inventory" [mkCartItem "VIP" 5])
         (snd (seedDatabase seedData_100_200_500 steady empty_db))).

(** A backend that is down for two seconds, then starting, then up. *)
Definition warming_up (i : nat) : Probe :=
  match i with
  | 0%nat | 1%nat => Unreachable
  | 2%nat => NotReady
  | _ => Ready
  end.

(** A visitor who has put two VIP tickets in the cart. *)
Definition shown_seed : list TicketTier.t :=
  [TicketTier.mk "VIP" 10000 10; TicketTier.mk "FRONT_ROW" 5000 50;
   TicketTier.mk "GA" 1000 200].

Definition sam : MockUser.t :=
  MockUser.mk "user_k3x9q2ab" "Alex Smith"
    "https://ui-avatars.com/api/?name=AS&background=random&size=128&bold=true&format=svg".

Definition browsing : Home.t := setTickets shown_seed (setUser sam mounted).

Definition two_vip_held : Home.t :=
  addToCart "VIP" (quantity_input (TicketTier.mk "VIP" 10000 10) (Some 2) browsing).

Definition two_vip_request : BookingRequest := request "user_k3x9q2ab" [mkCartItem "VIP" 2].

(** An inventory with a tier at ten cents, and a cart of three of them. *)
Definition kiosk : Db :=
  {| tickets := <["TOKEN" := mkTicket 10 1000 1000]> ∅;
     orders := [];
     order_items := [] |}.

Definition three_tokens : list CartItem := [mkCartItem "TOKEN" 3].

(** Two bodies that pass the validation and are not of the handler's
    type: a number for [userId], and a [null] in the cart. *)
Definition number_for_userId : Json.Request :=
  {| Json.userId := Some Json.NoText;
     Json.cartItems := Some [Json.Line (mkCartItem "VIP" 1)] |}.

Definition null_in_cart : Json.Request :=
  {| Json.userId := Some (Json.Text "bob");
     Json.cartItems := Some [Json.Line (mkCartItem "GA" 1); Json.Null] |}.

Definition vip_6_11 : list CartItem := [mkCartItem "VIP" 6; mkCartItem "VIP" 11].

(** The ROLLBACK after a declined payment is lost. *)
Definition drops_at_2 : World :=
  {| random := unlucky; throws := fun n => Nat.eqb n 2 |}.

(** * Lemmas *)

Create HintDb booking.

#[local] Hint Constructors reachable evolves : booking.

(** [row] is the row of the line's tier and has enough stock for it. *)
Ltac stocked row :=
  exists row; split; [vm_compute; reflexivity | vm_compute; discriminate].

(** ** Reading a run backwards *)

Lemma bind_inv {A B} (m : Async A) (k : A -> Async B) c o c' :
  bind m k c = (o, c') ->
  (exists a c1, m c = (Fulfilled a, c1) /\ k a c1 = (o, c')) \/
  (m c = (Rejected, c') /\ o = Rejected).
Proof.
  unfold bind. destruct (m c) as [[a|] c1]; intros H.
  - left. eauto.
  - right. inversion H; subst. auto.
Qed.

Lemma ret_inv {A} (a : A) c o c' : ret a c = (o, c') -> o = Fulfilled a /\ c' = c.
Proof. unfold ret. intros H; inversion H; auto. Qed.

(** One statement: it is logged; it either fails and changes nothing, or
    has the effect [run_stmt] gives it. *)
Lemma query_inv w s c o c' :
  query w s c = (o, c') ->
  log c' = log c ++ [s] /\
  ((throws w (length (log c)) = true /\ o = Rejected /\
    durable c' = durable c /\ work c' = work c) \/
   (throws w (length (log c)) = false /\
    (o, durable c', work c')
      = (let '(r, d, wk) := run_stmt s (durable c) (work c) in (Fulfilled r, d, wk)))).
Proof.
  unfold query. destruct (throws w (length (log c))).
  - intros H; inversion H; subst; simpl. split; [reflexivity | left; auto].
  - destruct (run_stmt s (durable c) (work c)) as [[r d] wk].
    intros H; inversion H; subst; simpl. split; [reflexivity | right; auto].
Qed.

(** Only a COMMIT that succeeds changes what is committed. *)
Lemma query_durable w s c o c' :
  query w s c = (o, c') -> s <> COMMIT -> durable c' = durable c.
Proof.
  intros H Hs. apply query_inv in H as [_ [(_ & _ & Hd & _) | [_ H]]]; [exact Hd |].
  destruct s; simpl in H; inversion H; congruence.
Qed.

Lemma lock_rows_durable w items : forall total acc c o c',
  lock_rows w items total acc c = (o, c') -> durable c' = durable c.
Proof.
  induction items as [| item rest IH]; intros total acc c o c' H; simpl in H.
  - apply ret_inv in H as [_ ->]. reflexivity.
  - apply bind_inv in H as [(r & c1 & Hq & H) | [Hq _]];
      [| eapply query_durable; [exact Hq | discriminate]].
    assert (Hd1 : durable c1 = durable c)
      by (eapply query_durable; [exact Hq | discriminate]).
    assert (Hrb : forall resp : Response + Number.t * list PendingItem,
               (await query w ROLLBACK; ret resp) c1 = (o, c') ->
               durable c' = durable c).
    { intros resp Hr.
      apply bind_inv in Hr as [(r' & c2 & Hq2 & Hr) | [Hq2 _]].
      - apply ret_inv in Hr as [_ ->]. rewrite <- Hd1.
        eapply query_durable; [exact Hq2 | discriminate].
      - rewrite <- Hd1. eapply query_durable; [exact Hq2 | discriminate]. }
    destruct r as [[| row rows] | id |]; try (eapply Hrb; exact H).
    destruct (quantity_available row <? quantity item).
    + eapply Hrb; exact H.
    + rewrite <- Hd1. eapply IH; exact H.
Qed.

Lemma write_items_durable w oid items : forall c o c',
  write_items w oid items c = (o, c') -> durable c' = durable c.
Proof.
  induction items as [| item rest IH]; intros c o c' H; simpl in H.
  - apply ret_inv in H as [_ ->]. reflexivity.
  - apply bind_inv in H as [(r & c1 & Hq & H) | [Hq _]];
      [| eapply query_durable; [exact Hq | discriminate]].
    apply query_durable in Hq; [| discriminate].
    apply bind_inv in H as [(r2 & c2 & Hq2 & H) | [Hq2 _]];
      [| rewrite <- Hq; eapply query_durable; [exact Hq2 | discriminate]].
    apply query_durable in Hq2; [| discriminate].
    apply IH in H. congruence.
Qed.

Lemma lock_rows_inv w items : forall total acc c o c',
  lock_rows w items total acc c = (o, c') ->
  match o with
  | Rejected => True
  | Fulfilled r =>
      check_cart (tickets (work c)) items total acc = r /\
      match r with
      | inr _ => work c' = work c /\ log c' = log c ++ select_stmts items
      | inl _ => True
      end
  end.
Proof.
  induction items as [| item rest IH]; intros total acc c o c' H; simpl in H.
  - apply ret_inv in H as [-> ->]. simpl. rewrite app_nil_r. auto.
  - apply bind_inv in H as [(r & c1 & Hq & H) | [Hq ->]]; [| exact I].
    apply query_inv in Hq as [Hlog [(_ & Hr & _) | [_ Hq]]]; [discriminate |].
    simpl in Hq. injection Hq as Hr Hd Hw. subst r.
    assert (Hrb : forall resp (o : Outcome (Response + Number.t * list PendingItem)),
               (await query w ROLLBACK; ret (inl resp)) c1 = (o, c') ->
               match o with
               | Rejected => True
               | Fulfilled r => r = inl resp
               end).
    { intros resp o' Hr.
      apply bind_inv in Hr as [(r' & c2 & _ & Hr) | [_ ->]]; [| exact I].
      apply ret_inv in Hr as [-> _]. reflexivity. }
    simpl. destruct (tickets (work c) !! tier item) as [row |] eqn:Hrow.
    + destruct (quantity_available row <? quantity item).
      * apply Hrb in H. destruct o as [r |]; [subst r; auto | exact I].
      * apply IH in H. destruct o as [r |]; [| exact I].
        rewrite Hw in H. destruct H as [Hc H]. split; [exact Hc |].
        destruct r as [resp | p]; [exact I |].
        destruct H as [H1 H2]. split; [congruence |].
        rewrite H2, Hlog, <- app_assoc. reflexivity.
    + apply Hrb in H. destruct o as [r |]; [subst r; auto | exact I].
Qed.

Lemma write_items_inv w oid items : forall c c' u,
  write_items w oid items c = (Fulfilled u, c') ->
  work c' = apply_items oid items (work c) /\
  log c' = log c ++ write_stmts oid items.
Proof.
  induction items as [| item rest IH]; intros c c' u H; simpl in H.
  - apply ret_inv in H as [_ ->]. simpl. rewrite app_nil_r. auto.
  - apply bind_inv in H as [(r & c1 & Hq & H) | [_ H]]; [| discriminate].
    apply bind_inv in H as [(r2 & c2 & Hq2 & H) | [_ H]]; [| discriminate].
    apply query_inv in Hq as [Hlog [(_ & Hr & _) | [_ Hq]]]; [discriminate |].
    apply query_inv in Hq2 as [Hlog2 [(_ & Hr & _) | [_ Hq2]]]; [discriminate |].
    simpl in Hq, Hq2. injection Hq as _ _ Hw. injection Hq2 as _ _ Hw2.
    apply IH in H as [H1 H2]. simpl. split.
    + rewrite H1, Hw2, Hw. reflexivity.
    + rewrite H2, Hlog2, Hlog, <- !app_assoc. reflexivity.
Qed.

(** The first loop returns early in two ways only: on a line whose tier
    is not in the table, or on a line that asks more than the stock of its
    tier. *)
Lemma check_cart_inl tk items : forall total acc resp,
  check_cart tk items total acc = inl resp ->
  (exists item, In item items /\
      resp = mkResponse 400 (InvalidTier (tier item)) /\ tk !! tier item = None) \/
  (exists item row, In item items /\
      resp = mkResponse 409
               (InsufficientStock (tier item) (quantity item) (quantity_available row)) /\
      tk !! tier item = Some row /\ quantity_available row < quantity item).
Proof.
  induction items as [| item rest IH]; intros total acc resp; simpl; [discriminate |].
  destruct (tk !! tier item) as [row |] eqn:Hrow.
  - destruct (quantity_available row <? quantity item) eqn:Hlt.
    + intros [= <-]. right. exists item, row.
      apply Z.ltb_lt in Hlt. auto.
    + intros H. apply IH in H as [(i & Hi & H) | (i & r & Hi & H)];
        [left; exists i | right; exists i, r]; auto.
  - intros [= <-]. left. exists item. auto.
Qed.

(** The [try] block either throws, having committed nothing, or returns what
    [settle] computes. *)
Lemma transaction_inv w user items c o c' :
  transaction w user items c = (o, c') ->
  (o = Rejected /\ durable c' = durable c) \/
  (exists resp,
      o = Fulfilled resp /\
      (resp, durable c') = settle (random w) user items (durable c) /\
      (forall oid u t its st,
          body resp = Booked oid u t its st ->
          log c' = log c ++ success_log user items oid t its)).
Proof.
  unfold transaction. intros H.
  apply bind_inv in H as [(r0 & c0 & Hq0 & H) | [Hq0 ->]];
    [| left; split; [reflexivity | eapply query_durable; [exact Hq0 | discriminate]]].
  apply query_inv in Hq0 as [Hlog0 [(_ & Hr & _) | [_ Hq0]]]; [discriminate |].
  simpl in Hq0. injection Hq0 as _ Hd0 Hw0.
  apply bind_inv in H as [(locked & c1 & Hl & H) | [Hl ->]];
    [| left; split; [reflexivity |
                     apply lock_rows_durable in Hl; congruence]].
  pose proof (lock_rows_durable _ _ _ _ _ _ _ Hl) as Hd1.
  apply lock_rows_inv in Hl as [Hcheck Hl]. rewrite Hw0 in Hcheck.
  unfold settle. rewrite Hcheck.
  destruct locked as [resp | [total pend]].
  { apply ret_inv in H as [-> ->]. right. exists resp.
    split; [reflexivity |]. split; [congruence |].
    intros oid u t its st Hb.
    apply check_cart_inl in Hcheck as [(i & _ & -> & _) | (i & row & _ & -> & _)];
      discriminate Hb. }
  destruct Hl as [Hw1 Hlog1].
  destruct (simulatePayment (random w) user total); simpl in H.
  2: { apply bind_inv in H as [(r2 & c2 & Hq2 & H) | [Hq2 ->]].
       - apply ret_inv in H as [-> ->]. right. eexists. split; [reflexivity |].
         apply query_durable in Hq2; [| discriminate].
         split; [congruence | discriminate].
       - left. split; [reflexivity |].
         apply query_durable in Hq2; [congruence | discriminate]. }
  apply bind_inv in H as [(r2 & c2 & Hq2 & H) | [Hq2 ->]];
    [| left; split; [reflexivity |
                     apply query_durable in Hq2; [congruence | discriminate]]].
  apply query_inv in Hq2 as [Hlog2 [(_ & Hr & _) | [_ Hq2]]]; [discriminate |].
  simpl in Hq2. injection Hq2 as Hr2 Hd2 Hw2. subst r2.
  apply bind_inv in H as [(u3 & c3 & Hwr & H) | [Hwr ->]];
    [| left; split; [reflexivity |
                     apply write_items_durable in Hwr; congruence]].
  pose proof (write_items_durable _ _ _ _ _ _ Hwr) as Hd3.
  apply write_items_inv in Hwr as [Hw3 Hlog3].
  apply bind_inv in H as [(r4 & c4 & Hq4 & H) | [Hq4 ->]].
  2: { left. split; [reflexivity |].
       apply query_inv in Hq4 as [_ [(_ & _ & Hd4 & _) | [_ Hq4]]];
         [congruence | discriminate]. }
  apply query_inv in Hq4 as [Hlog4 [(_ & Hr & _) | [_ Hq4]]]; [discriminate |].
  simpl in Hq4. injection Hq4 as _ Hd4 Hw4.
  apply ret_inv in H as [-> ->]. right. eexists. split; [reflexivity |].
  rewrite Hw1, Hw0 in *. split.
  - rewrite Hd4, Hw3, Hw2. reflexivity.
  - intros oid u t its st [= <- <- <- <- <-].
    rewrite Hlog4, Hlog3, Hlog2, Hlog1, Hlog0. unfold success_log.
    rewrite <- !app_assoc. reflexivity.
Qed.

(** The [catch] block always answers 500 and commits nothing. *)
Lemma on_error_inv w c o c' :
  on_error w c = (o, c') ->
  o = Fulfilled (mkResponse 500 ServerError) /\ durable c' = durable c.
Proof.
  unfold on_error, ignore_rejection, try_catch, bind. intros H.
  destruct (query w ROLLBACK c) as [[r |] c1] eqn:Hq;
    apply query_durable in Hq; try discriminate;
    simpl in H; injection H as <- <-; auto.
Qed.

(** A call either answers 500 with nothing committed, or does what
    [outcome] computes; a 201 comes with the full statement sequence. *)
Lemma handle_inv w req db :
  (accepted req <> None /\
   fst (handle w req db) = mkResponse 500 ServerError /\
   durable (snd (handle w req db)) = db) \/
  ((fst (handle w req db), durable (snd (handle w req db))) = outcome (random w) req db /\
   (accepted req = None -> log (snd (handle w req db)) = []) /\
   (forall user items oid u t its st,
       accepted req = Some (user, items) ->
       body (fst (handle w req db)) = Booked oid u t its st ->
       log (snd (handle w req db)) = success_log user items oid t its)).
Proof.
  unfold handle, outcome. destruct (accepted req) as [[user items] |].
  2: { right. simpl. split; [reflexivity |]. split; [reflexivity | discriminate]. }
  unfold try_catch.
  destruct (transaction w user items (connect db)) as [o c] eqn:Ht.
  apply transaction_inv in Ht as [[-> Hd] | (resp & -> & Hs & Hlog)].
  - left. split; [discriminate |].
    destruct (on_error w c) as [o' c'] eqn:He.
    apply on_error_inv in He as [-> Hd']. simpl in *. split; [reflexivity | congruence].
  - right. simpl in *. split; [exact Hs |]. split; [discriminate |].
    intros user' items' oid u t its st [= <- <-] Hb. apply (Hlog _ _ _ _ _ Hb).
Qed.

Lemma book_cases w req db :
  book w req db = (mkResponse 500 ServerError, db) \/
  book w req db = outcome (random w) req db.
Proof.
  unfold book. destruct (handle_inv w req db) as [(_ & Hr & Hd) | (H & _)];
    destruct (handle w req db) as [resp c]; simpl in *.
  - left. congruence.
  - right. exact H.
Qed.

(** *** When no statement fails *)

Lemma query_calm rnd s c :
  query (calm rnd) s c =
  let '(r, d, wk) := run_stmt s (durable c) (work c) in
  (Fulfilled r, {| durable := d; work := wk; log := log c ++ [s] |}).
Proof. reflexivity. Qed.

Lemma lock_rows_calm rnd items : forall total acc c,
  exists c', lock_rows (calm rnd) items total acc c
             = (Fulfilled (check_cart (tickets (work c)) items total acc), c').
Proof.
  induction items as [| item rest IH]; intros total acc c; simpl.
  - eexists. reflexivity.
  - unfold bind at 1. rewrite query_calm. simpl.
    destruct (tickets (work c) !! tier item) as [row |].
    + destruct (quantity_available row <? quantity item).
      * eexists. reflexivity.
      * match goal with
        | |- exists c', lock_rows _ _ ?t ?a ?c1 = _ =>
            destruct (IH t a c1) as [c' Hc']; exists c'; exact Hc'
        end.
    + eexists. reflexivity.
Qed.

Lemma write_items_calm rnd oid items : forall c,
  exists c', write_items (calm rnd) oid items c = (Fulfilled tt, c').
Proof.
  induction items as [| item rest IH]; intros c; simpl.
  - eexists. reflexivity.
  - unfold bind at 1. rewrite query_calm. simpl.
    unfold bind at 1. rewrite query_calm. simpl. apply IH.
Qed.

Lemma transaction_calm rnd user items c :
  exists resp c', transaction (calm rnd) user items c = (Fulfilled resp, c').
Proof.
  unfold transaction. unfold bind at 1. rewrite query_calm. simpl.
  unfold bind at 1.
  edestruct (lock_rows_calm rnd items) as [c1 ->].
  destruct (check_cart _ _ _ _) as [resp | [total pend]].
  - eexists _, _. reflexivity.
  - simpl. destruct (simulatePayment rnd user total); simpl.
    + unfold bind at 1. rewrite query_calm. simpl.
      unfold bind at 1. edestruct (write_items_calm rnd) as [c2 ->].
      eexists _, _. reflexivity.
    + eexists _, _. reflexivity.
Qed.

(** With no failing statement a call is exactly [outcome]. *)
Lemma book_calm rnd req db : book (calm rnd) req db = outcome rnd req db.
Proof.
  pose proof (handle_inv (calm rnd) req db) as [(Ha & Hr & _) | (H & _)].
  - exfalso. unfold handle in Hr. destruct (accepted req) as [[user items] |]; [| congruence].
    unfold try_catch in Hr.
    destruct (transaction_calm rnd user items (connect db)) as (resp & c' & Ht).
    rewrite Ht in Hr. simpl in Hr. subst resp.
    apply transaction_inv in Ht as [[? _] | (resp & [= <-] & Hs & _)]; [discriminate |].
    unfold settle in Hs.
    destruct (check_cart _ _ _ _) as [resp | [total pend]] eqn:Hc.
    + apply check_cart_inl in Hc as [(i & _ & -> & _) | (i & row & _ & -> & _)]; discriminate.
    + destruct (simulatePayment _ _ _); discriminate.
  - unfold book. destruct (handle (calm rnd) req db) as [resp c]. exact H.
Qed.

(** ** The two loops *)

Lemma quantity_for_app {A} (key : A -> string) qty t (l1 l2 : list A) :
  quantity_for key qty t (l1 ++ l2)
  = quantity_for key qty t l1 + quantity_for key qty t l2.
Proof.
  induction l1 as [| x l1 IH]; simpl; [reflexivity |]. rewrite IH. lia.
Qed.

Lemma quantity_for_map {A B} (f : A -> B) (key : B -> string) qty t (l : list A) :
  quantity_for key qty t (map f l)
  = quantity_for (fun x => key (f x)) (fun x => qty (f x)) t l.
Proof. induction l as [| x l IH]; simpl; [reflexivity |]. rewrite IH. reflexivity. Qed.

(** The first loop succeeds exactly when every line is in stock, each on its
    own, and then returns the double total and one pending line per cart
    line, in cart order. *)
Lemma check_cart_inr tk items : forall total acc,
  Forall (in_stock tk) items ->
  check_cart tk items total acc
  = inr (fold_left (add_line tk) items total, acc ++ map (pending_of tk) items).
Proof.
  induction items as [| item rest IH]; intros total acc Hall; simpl.
  - rewrite app_nil_r. reflexivity.
  - inversion Hall as [| ? ? (row & Hrow & Hle) Hrest]; subst.
    rewrite Hrow. destruct (Z.ltb_spec (quantity_available row) (quantity item)); [lia |].
    rewrite IH by assumption. unfold add_line, pending_of, price_of. rewrite Hrow.
    rewrite <- app_assoc. reflexivity.
Qed.

Lemma check_cart_inr_inv tk items : forall total acc total' pend,
  check_cart tk items total acc = inr (total', pend) ->
  Forall (in_stock tk) items.
Proof.
  induction items as [| item rest IH]; intros total acc total' pend; simpl; [constructor |].
  destruct (tk !! tier item) as [row |] eqn:Hrow; [| discriminate].
  destruct (Z.ltb_spec (quantity_available row) (quantity item)) as [Hlt | Hge];
    [discriminate |].
  intros Hc. constructor; [exists row; split; [assumption | lia] | eapply IH; exact Hc].
Qed.

Lemma decrement_0 row : decrement 0 row = row.
Proof. destruct row; unfold decrement; simpl. f_equal. lia. Qed.

Lemma decrement_decrement a b row :
  decrement a (decrement b row) = decrement (b + a) row.
Proof. unfold decrement; simpl. f_equal. lia. Qed.

(** The second loop leaves orders alone, appends one line per item and
    subtracts from each tier all that the items ask of it. *)
Lemma apply_items_orders oid pend : forall db,
  orders (apply_items oid pend db) = orders db.
Proof. induction pend as [| p pend IH]; intros db; simpl; [reflexivity |]. rewrite IH. reflexivity. Qed.

Lemma apply_items_order_items oid pend : forall db,
  order_items (apply_items oid pend db)
  = order_items db ++
    map (fun p => mkOrderItem oid (pending_tier p) (pending_quantity p) (priceAtPurchase p)) pend.
Proof.
  induction pend as [| p pend IH]; intros db; simpl.
  - rewrite app_nil_r. reflexivity.
  - rewrite IH. simpl. rewrite <- app_assoc. reflexivity.
Qed.

Lemma apply_items_tickets oid pend t : forall db,
  tickets (apply_items oid pend db) !! t
  = decrement (quantity_for pending_tier pending_quantity t pend) <$> tickets db !! t.
Proof.
  induction pend as [| p pend IH]; intros db; simpl.
  - destruct (tickets db !! t) as [row |]; simpl; [| reflexivity].
    rewrite decrement_0. reflexivity.
  - rewrite IH. simpl. rewrite lookup_alter.
    destruct (String.eqb_spec (pending_tier p) t) as [-> | Hne].
    + rewrite decide_True by reflexivity.
      destruct (tickets db !! t) as [row |]; simpl; [| reflexivity].
      rewrite decrement_decrement. reflexivity.
    + rewrite decide_False by congruence.
      destruct (tickets db !! t) as [row |]; simpl; [| reflexivity].
      reflexivity.
Qed.

Lemma committed_orders db user total pend :
  orders (committed db user total pend)
  = orders db ++ [mkOrder user (toFixed2 total) PAID].
Proof. unfold committed. rewrite apply_items_orders. reflexivity. Qed.

Lemma committed_order_items db user total pend :
  order_items (committed db user total pend)
  = order_items db ++ map (line_of (length (orders db))) pend.
Proof. unfold committed. rewrite apply_items_order_items. reflexivity. Qed.

Lemma committed_tickets db user total pend t :
  tickets (committed db user total pend) !! t
  = decrement (quantity_for pending_tier pending_quantity t pend) <$> tickets db !! t.
Proof. unfold committed. rewrite apply_items_tickets. reflexivity. Qed.

(** What the handler's first [if] lets through. *)
Lemma accepted_None req :
  accepted req = None <->
  userId req = None \/ userId req = Some EmptyString \/
  cartItems req = None \/ cartItems req = Some [].
Proof.
  unfold accepted. destruct (userId req) as [user |], (cartItems req) as [[| i l] |];
    try (split; [intros _; auto | reflexivity]).
  destruct (String.eqb_spec user EmptyString) as [-> | Hne].
  - split; [auto | reflexivity].
  - split; [discriminate |].
    intros [H | [H | [H | H]]]; congruence.
Qed.

Lemma accepted_request user items :
  user <> EmptyString -> items <> [] -> accepted (request user items) = Some (user, items).
Proof.
  intros Hu Hi. unfold accepted, request. simpl.
  destruct items as [| i l]; [congruence |].
  destruct (String.eqb_spec user EmptyString); [congruence | reflexivity].
Qed.

(** A call that answers 201 passed the stock check on every line, was
    accepted by the payment gate, and committed one order. *)
Lemma book_201 w req db :
  http_status (fst (book w req db)) = 201 ->
  exists user items,
    accepted req = Some (user, items) /\
    Forall (in_stock (tickets db)) items /\
    book w req db
    = (mkResponse 201
         (Booked (length (orders db)) user
            (toFixed2 (cart_total (tickets db) items))
            (map (pending_of (tickets db)) items) PAID),
       committed db user (cart_total (tickets db) items)
         (map (pending_of (tickets db)) items)).
Proof.
  intros Hs. destruct (book_cases w req db) as [H | H]; rewrite H in *; [discriminate |].
  unfold outcome, settle in *.
  destruct (accepted req) as [[user items] |]; [| discriminate].
  destruct (check_cart _ _ _ _) as [resp | [total pend]] eqn:Hc.
  - apply check_cart_inl in Hc as [(i & _ & -> & _) | (i & row & _ & -> & _)]; discriminate.
  - pose proof (check_cart_inr_inv _ _ _ _ _ _ Hc) as Hall.
    rewrite (check_cart_inr _ _ _ _ Hall) in Hc. injection Hc as <- <-.
    destruct (simulatePayment _ _ _); [| discriminate].
    exists user, items. auto.
Qed.

(** A call leaves the database alone, or answers 201 and commits one order
    made of the cart's lines at the catalog prices of that moment. *)
Lemma book_moves w req db :
  snd (book w req db) = db \/
  exists user items,
    http_status (fst (book w req db)) = 201 /\
    snd (book w req db)
    = committed db user (cart_total (tickets db) items)
        (map (pending_of (tickets db)) items).
Proof.
  destruct (Z.eq_dec (http_status (fst (book w req db))) 201) as [Hs | Hs].
  - right. destruct (book_201 w req db Hs) as (user & items & _ & _ & Hb).
    exists user, items. split; [exact Hs | rewrite Hb; reflexivity].
  - left. destruct (book_cases w req db) as [-> | H]; [reflexivity |].
    rewrite H in *. unfold outcome, settle in *.
    destruct (accepted req) as [[user items] |]; [| reflexivity].
    destruct (check_cart _ _ _ _) as [resp | [total pend]]; [reflexivity |].
    destruct (simulatePayment _ _ _); [| reflexivity].
    simpl in Hs. congruence.
Qed.

(** Whatever happens to a call, the tiers it locked are the first tiers of
    its cart, in cart order. *)
Lemma lock_order_app l1 l2 : lock_order (l1 ++ l2) = lock_order l1 ++ lock_order l2.
Proof. apply flat_map_app. Qed.

Lemma query_locks w s c o c' :
  query w s c = (o, c') -> lock_order (log c') = lock_order (log c) ++ lock_order [s].
Proof. intros H. apply query_inv in H as [-> _]. apply lock_order_app. Qed.

Lemma lock_rows_locks w items : forall total acc c o c',
  lock_rows w items total acc c = (o, c') ->
  exists k, lock_order (log c') = lock_order (log c) ++ take k (map tier items).
Proof.
  induction items as [| item rest IH]; intros total acc c o c' H; simpl in H.
  - apply ret_inv in H as [_ ->]. exists O. simpl. rewrite app_nil_r. reflexivity.
  - apply bind_inv in H as [(r & c1 & Hq & H) | [Hq _]];
      apply query_locks in Hq; simpl in Hq; [| exists 1%nat; exact Hq].
    assert (Hrb : forall resp : Response + Number.t * list PendingItem,
               (await query w ROLLBACK; ret resp) c1 = (o, c') ->
               lock_order (log c') = lock_order (log c1)).
    { intros resp Hr.
      apply bind_inv in Hr as [(r' & c2 & Hq2 & Hr) | [Hq2 _]];
        apply query_locks in Hq2; simpl in Hq2; rewrite app_nil_r in Hq2;
        [apply ret_inv in Hr as [_ ->] |]; exact Hq2. }
    assert (Hone : lock_order (log c') = lock_order (log c1) ->
                   exists k, lock_order (log c')
                             = lock_order (log c) ++ take k (tier item :: map tier rest)).
    { intros ->. exists 1%nat. exact Hq. }
    destruct r as [[| row rows] | id |]; try (apply Hone; eapply Hrb; exact H).
    destruct (quantity_available row <? quantity item).
    + apply Hone. eapply Hrb. exact H.
    + apply IH in H as [k Hk]. exists (S k). rewrite Hk, Hq, <- app_assoc. reflexivity.
Qed.

Lemma write_items_locks w oid pend : forall c o c',
  write_items w oid pend c = (o, c') -> lock_order (log c') = lock_order (log c).
Proof.
  induction pend as [| p pend IH]; intros c o c' H; simpl in H.
  - apply ret_inv in H as [_ ->]. reflexivity.
  - apply bind_inv in H as [(r & c1 & Hq & H) | [Hq _]];
      apply query_locks in Hq; simpl in Hq; rewrite app_nil_r in Hq; [| exact Hq].
    apply bind_inv in H as [(r2 & c2 & Hq2 & H) | [Hq2 _]];
      apply query_locks in Hq2; simpl in Hq2; rewrite app_nil_r in Hq2; [| congruence].
    apply IH in H. congruence.
Qed.

Lemma transaction_locks w user items c o c' :
  transaction w user items c = (o, c') ->
  exists k, lock_order (log c') = lock_order (log c) ++ take k (map tier items).
Proof.
  unfold transaction. intros H.
  apply bind_inv in H as [(r0 & c0 & Hq0 & H) | [Hq0 _]];
    apply query_locks in Hq0; simpl in Hq0; rewrite app_nil_r in Hq0;
    [| exists O; rewrite Hq0; simpl; rewrite app_nil_r; reflexivity].
  apply bind_inv in H as [(locked & c1 & Hl & H) | [Hl _]];
    apply lock_rows_locks in Hl as [k Hk]; rewrite Hq0 in Hk; [| eauto].
  exists k. rewrite <- Hk. clear Hk Hq0.
  destruct locked as [resp | [total pend]]; [apply ret_inv in H as [_ ->]; reflexivity |].
  destruct (simulatePayment (random w) user total); simpl in H.
  - apply bind_inv in H as [(r2 & c2 & Hq2 & H) | [Hq2 _]];
      apply query_locks in Hq2; simpl in Hq2; rewrite app_nil_r in Hq2; [| exact Hq2].
    apply bind_inv in H as [(u3 & c3 & Hw & H) | [Hw _]];
      apply write_items_locks in Hw; [| congruence].
    apply bind_inv in H as [(r4 & c4 & Hq4 & H) | [Hq4 _]];
      apply query_locks in Hq4; simpl in Hq4; rewrite app_nil_r in Hq4; [| congruence].
    apply ret_inv in H as [_ ->]. congruence.
  - apply bind_inv in H as [(r2 & c2 & Hq2 & H) | [Hq2 _]];
      apply query_locks in Hq2; simpl in Hq2; rewrite app_nil_r in Hq2; [| exact Hq2].
    apply ret_inv in H as [_ ->]. exact Hq2.
Qed.

Lemma locks_are_taken_in_cart_order w req db user items :
  accepted req = Some (user, items) ->
  exists k, lock_order (statements w req db) = take k (map tier items).
Proof.
  intros Ha. unfold statements, handle. rewrite Ha. unfold try_catch.
  destruct (transaction w user items (connect db)) as [[resp |] c] eqn:Ht;
    apply transaction_locks in Ht as [k Hk]; simpl in Hk; [exists k; exact Hk |].
  destruct (on_error w c) as [o' c'] eqn:He. exists k. rewrite <- Hk.
  unfold on_error, ignore_rejection, try_catch, bind in He.
  destruct (query w ROLLBACK c) as [[r |] c1] eqn:Hq;
    apply query_locks in Hq; simpl in Hq; rewrite app_nil_r in Hq;
    simpl in He; injection He as <- <-; simpl; exact Hq.
Qed.

(** A call that answers 201 locked all the tiers of its cart. *)
Lemma lock_order_select items : lock_order (select_stmts items) = map tier items.
Proof. induction items as [| item rest IH]; simpl; [reflexivity |]. rewrite IH. reflexivity. Qed.

Lemma lock_order_write oid pend : lock_order (write_stmts oid pend) = [].
Proof. induction pend as [| p pend IH]; simpl; [reflexivity | exact IH]. Qed.

Lemma locks_follow_the_cart w req db user items :
  accepted req = Some (user, items) ->
  http_status (fst (book w req db)) = 201 ->
  lock_order (statements w req db) = map tier items.
Proof.
  intros Ha Hs. destruct (book_201 w req db Hs) as (user' & items' & Ha' & _ & Hb).
  rewrite Ha in Ha'. injection Ha' as <- <-.
  unfold statements. unfold book in Hb, Hs.
  destruct (handle_inv w req db) as [(_ & Hr & _) | (_ & _ & Hlog)];
    destruct (handle w req db) as [resp c]; simpl in *.
  - subst resp. discriminate.
  - injection Hb as -> _. rewrite (Hlog _ _ _ _ _ _ _ Ha eq_refl).
    unfold success_log, lock_order. rewrite !flat_map_app.
    fold (lock_order (select_stmts items)).
    fold (lock_order (write_stmts (length (orders db)) (map (pending_of (tickets db)) items))).
    rewrite lock_order_select, lock_order_write. simpl. apply app_nil_r.
Qed.

(** ** Order lines and their orders *)

Lemma is_paid_old os o oid :
  (oid < length os)%nat -> is_paid (os ++ [o]) oid = is_paid os oid.
Proof. intros Hlt. unfold is_paid. rewrite lookup_app_l by exact Hlt. reflexivity. Qed.

Lemma is_paid_new os o :
  status o = PAID -> is_paid (os ++ [o]) (length os) = true.
Proof.
  intros Hpaid. unfold is_paid. rewrite lookup_app_r by reflexivity.
  rewrite Nat.sub_diag. simpl. rewrite Hpaid. reflexivity.
Qed.

Lemma filter_paid_old os o (lines : list OrderItem) :
  Forall (fun line => (order_id line < length os)%nat) lines ->
  List.filter (fun line => is_paid (os ++ [o]) (order_id line)) lines
  = List.filter (fun line => is_paid os (order_id line)) lines.
Proof.
  induction 1 as [| line lines Hlt _ IH]; simpl; [reflexivity |].
  rewrite is_paid_old by exact Hlt. rewrite IH. reflexivity.
Qed.

Lemma filter_paid_new os o (pend : list PendingItem) :
  status o = PAID ->
  List.filter (fun line => is_paid (os ++ [o]) (order_id line))
    (map (line_of (length os)) pend)
  = map (line_of (length os)) pend.
Proof.
  intros Hpaid. induction pend as [| p pend IH]; simpl; [reflexivity |].
  rewrite is_paid_new by exact Hpaid. rewrite IH. reflexivity.
Qed.

Lemma committed_sold db user total pend t :
  lines_attached db ->
  sold (committed db user total pend) t
  = sold db t + quantity_for pending_tier pending_quantity t pend.
Proof.
  intros Hfk. unfold sold, paid_lines.
  rewrite committed_orders, committed_order_items, List.filter_app.
  rewrite filter_paid_old by exact Hfk.
  rewrite filter_paid_new by reflexivity.
  rewrite quantity_for_app, quantity_for_map. reflexivity.
Qed.

Lemma committed_lines_attached db user total pend :
  lines_attached db -> lines_attached (committed db user total pend).
Proof.
  unfold lines_attached. intros Hfk.
  rewrite committed_orders, committed_order_items, length_app. simpl.
  apply Forall_app. split.
  - eapply Forall_impl; [exact Hfk |]. simpl. intros line Hlt. lia.
  - apply Forall_forall. intros line Hin. apply list_elem_of_In, in_map_iff in Hin.
    destruct Hin as (p & <- & _). simpl. lia.
Qed.

Lemma committed_conservation db user total pend :
  lines_attached db -> conservation db ->
  conservation (committed db user total pend).
Proof.
  intros Hfk Hcons t row'. rewrite committed_tickets, committed_sold by exact Hfk.
  destruct (tickets db !! t) as [row |] eqn:Hrow; simpl; [| discriminate].
  intros [= <-]. simpl. rewrite <- (Hcons t row Hrow). lia.
Qed.

Lemma seed_fresh : fresh seed.
Proof.
  split; [reflexivity |]. split; [reflexivity |].
  intros t row. unfold seed. simpl.
  rewrite !lookup_insert, lookup_empty.
  repeat case_decide; intros [= <-]; reflexivity.
Qed.

Lemma line_total_cart tk oid items : forall acc,
  fold_left
    (fun acc line =>
       Number.add acc
         (Number.mul (parseFloat (price_at_purchase line))
            (Number.of_Z (item_quantity line))))
    (map (line_of oid) (map (pending_of tk) items)) acc
  = fold_left (add_line tk) items acc.
Proof.
  induction items as [| item rest IH]; intros acc; simpl; [reflexivity |].
  rewrite IH. reflexivity.
Qed.

Lemma lines_of_old db user total pend oid :
  lines_attached db -> (oid < length (orders db))%nat ->
  lines_of (committed db user total pend) oid = lines_of db oid.
Proof.
  intros Hfk Hlt. unfold lines_of. rewrite committed_order_items, List.filter_app.
  assert (Hnew : List.filter (fun line => Nat.eqb (order_id line) oid)
                   (map (line_of (length (orders db))) pend) = []).
  { induction pend as [| p pend IH]; simpl; [reflexivity |].
    destruct (Nat.eqb_spec (length (orders db)) oid); [lia | exact IH]. }
  rewrite Hnew, app_nil_r. reflexivity.
Qed.

Lemma lines_of_new db user total pend :
  lines_attached db ->
  lines_of (committed db user total pend) (length (orders db))
  = map (line_of (length (orders db))) pend.
Proof.
  intros Hfk. unfold lines_of. rewrite committed_order_items, List.filter_app.
  assert (Hold : List.filter (fun line => Nat.eqb (order_id line) (length (orders db)))
                   (order_items db) = []).
  { unfold lines_attached in Hfk. induction Hfk as [| line lines Hlt _ IH]; simpl;
      [reflexivity |].
    destruct (Nat.eqb_spec (order_id line) (length (orders db))); [lia | exact IH]. }
  rewrite Hold. simpl.
  induction pend as [| p pend IH]; simpl; [reflexivity |].
  rewrite Nat.eqb_refl, IH. reflexivity.
Qed.

Lemma committed_totals_match db user items :
  lines_attached db -> totals_match db ->
  totals_match (committed db user (cart_total (tickets db) items)
                  (map (pending_of (tickets db)) items)).
Proof.
  intros Hfk Hm oid o. rewrite committed_orders. intros Ho.
  apply lookup_app_Some in Ho as [Ho | [Hge Ho]].
  - rewrite lines_of_old by (eauto using lookup_lt_Some). apply Hm, Ho.
  - destruct (oid - length (orders db))%nat as [| n] eqn:Hn; [| discriminate].
    injection Ho as <-. simpl.
    assert (oid = length (orders db)) as -> by lia.
    rewrite lines_of_new by exact Hfk.
    unfold line_total. rewrite line_total_cart. reflexivity.
Qed.

Lemma evolves_invariant init db :
  fresh init -> evolves init db -> lines_attached db /\ totals_match db.
Proof.
  intros (Ho & Hi & _). induction 1 as [| db w req _ [IHl IHm] | db t p _ [IHl IHm]].
  - split.
    + unfold lines_attached. rewrite Hi. constructor.
    + intros oid o. rewrite Ho. intros H. discriminate H.
  - destruct (book_moves w req db) as [-> | (user & items & _ & ->)]; [auto |].
    split; [apply committed_lines_attached | apply committed_totals_match]; assumption.
  - split; [exact IHl | exact IHm].
Qed.

Lemma evolves_prefix db db' :
  evolves db db' ->
  orders db `prefix_of` orders db' /\ order_items db `prefix_of` order_items db'.
Proof.
  induction 1 as [| db1 w req _ [IHo IHi] | db1 t p _ [IHo IHi]].
  - split; reflexivity.
  - destruct (book_moves w req db1) as [-> | (user & items & _ & ->)]; [auto |].
    rewrite committed_orders, committed_order_items.
    split; (etransitivity; [eassumption | apply prefix_app_r; reflexivity]).
  - auto.
Qed.

(** ** Rounding to cents *)

Lemma Qfloor_unique (y : Q) (c : Z) :
  (inject_Z c <= y)%Q -> (y < inject_Z (c + 1))%Q -> Qfloor y = c.
Proof.
  intros Hle Hlt.
  pose proof (Qfloor_le y) as Hf1. pose proof (Qlt_floor y) as Hf2.
  assert (H1 : (inject_Z c < inject_Z (Qfloor y + 1))%Q)
    by (eapply Qle_lt_trans; eassumption).
  assert (H2 : (inject_Z (Qfloor y) < inject_Z (c + 1))%Q)
    by (eapply Qle_lt_trans; eassumption).
  rewrite <- Zlt_Qlt in H1, H2. lia.
Qed.

Lemma round_half_up_near (q : Q) (c : Z) :
  (Qabs (q - inject_Z c) < 1 # 2)%Q -> round_half_up q = c.
Proof.
  intros H. apply Qabs_Qlt_condition in H as [H1 H2].
  unfold round_half_up. apply Qfloor_unique.
  - lra.
  - rewrite inject_Z_plus. change (inject_Z 1) with 1%Q. lra.
Qed.

(** Rounding to cents gives back [c] from every double less than half a
    cent away from it. *)
Lemma toFixed2_near (x : Number.t) (c : Z) :
  within_half_cent x c -> toFixed2 x = Cents c.
Proof.
  intros (v & Hv & Hnear). destruct x as [s | s | | s m e]; simpl in Hv; try discriminate.
  - injection Hv as <-. simpl. f_equal.
    apply Qabs_Qlt_condition in Hnear as [H1 H2].
    assert (H1' : (inject_Z (-1) < inject_Z c)%Q) by (change (inject_Z (-1)) with (-1)%Q; lra).
    assert (H2' : (inject_Z c < inject_Z 1)%Q) by (change (inject_Z 1) with 1%Q; lra).
    rewrite <- Zlt_Qlt in H1', H2'. lia.
  - injection Hv as <-. simpl. f_equal. destruct s.
    + assert (Hr : round_half_up (inject_Z (Z.pos m) * Qpower 2 e * 100) = - c).
      { apply round_half_up_near. rewrite inject_Z_opp.
        apply Qabs_Qlt_condition in Hnear as [H1 H2].
        apply Qabs_Qlt_condition. split; lra. }
      rewrite Hr. lia.
    + apply round_half_up_near. exact Hnear.
Qed.

(** [toFixed(2)] gives [c] only from a double at most half a cent away. *)
Lemma toFixed2_only_near (x : Number.t) (c : Z) (v : Q) :
  Number.value x = Some v -> toFixed2 x = Cents c ->
  (Qabs (v * 100 - inject_Z c) <= 1 # 2)%Q.
Proof.
  destruct x as [s | s | | s m e]; unfold Number.value, toFixed2; try discriminate.
  - intros [= <-] [= <-]. vm_compute. discriminate.
  - cbv zeta. intros [= <-] Ht.
    remember (round_half_up (inject_Z (Z.pos m) * Qpower 2 e * 100)) as n eqn:Hn.
    assert (Hc : (if s then - n else n) = c) by congruence. clear Ht.
    unfold round_half_up in Hn.
    remember (inject_Z (Z.pos m) * Qpower 2 e)%Q as a eqn:Ha. clear Ha.
    pose proof (Qfloor_le (a * 100 + (1 # 2))) as H1.
    pose proof (Qlt_floor (a * 100 + (1 # 2))) as H2.
    rewrite <- Hn, inject_Z_plus in H2. rewrite <- Hn in H1.
    change (inject_Z 1) with 1%Q in H2.
    apply Qabs_Qle_condition. destruct s; subst c.
    + rewrite inject_Z_opp. split; lra.
    + split; lra.
Qed.

(** ** Rounding errors *)

(** *** Binary digits and shifts *)

Lemma digits2_pos_size p : digits2_pos p = Pos.size p.
Proof. induction p as [p IH | p IH |]; simpl; congruence. Qed.

(** A positive number of [d] binary digits lies between [2^(d-1)] and [2^d]. *)
Lemma digits2_pos_bounds p :
  2 ^ (Z.pos (digits2_pos p) - 1) <= Z.pos p < 2 ^ Z.pos (digits2_pos p).
Proof.
  rewrite digits2_pos_size. split.
  - pose proof (Pos.size_le p) as H.
    assert (H' : 2 ^ Z.pos (Pos.size p) <= 2 * Z.pos p).
    { rewrite <- Pos2Z.inj_pow. exact H. }
    replace (Z.pos (Pos.size p)) with (Z.succ (Z.pos (Pos.size p) - 1)) in H' by lia.
    rewrite Z.pow_succ_r in H' by lia. lia.
  - pose proof (Pos.size_gt p) as H. rewrite <- Pos2Z.inj_pow. exact H.
Qed.

(** The number of digits is the only [d] with these bounds. *)
Lemma digits2_pos_unique p d :
  2 ^ (d - 1) <= Z.pos p < 2 ^ d -> Z.pos (digits2_pos p) = d.
Proof.
  intros [H1 H2]. destruct (digits2_pos_bounds p) as [H3 H4].
  assert (Hd : 0 < d).
  { destruct (Z.lt_ge_cases 0 d) as [H | H]; [exact H |].
    exfalso. destruct (Z.eq_dec d 0) as [-> | Hne].
    - simpl in H2. lia.
    - rewrite Z.pow_neg_r in H2 by lia. lia. }
  destruct (Z.lt_trichotomy (Z.pos (digits2_pos p)) d) as [Hlt | [Heq | Hgt]];
    [exfalso | exact Heq | exfalso].
  - assert (2 ^ Z.pos (digits2_pos p) <= 2 ^ (d - 1))
      by (apply Z.pow_le_mono_r; lia).
    lia.
  - assert (2 ^ d <= 2 ^ (Z.pos (digits2_pos p) - 1))
      by (apply Z.pow_le_mono_r; lia).
    lia.
Qed.

Lemma shr_1_m mrs : 0 <= shr_m mrs -> shr_m (shr_1 mrs) = shr_m mrs / 2.
Proof.
  destruct mrs as [m r s]. simpl. intros Hm.
  destruct m as [| p | p]; [reflexivity | | lia].
  destruct p as [p | p |]; simpl.
  - apply Z.div_unique with 1; lia.
  - apply Z.div_unique with 0; lia.
  - reflexivity.
Qed.

Lemma iter_pos_shr_1_m k : forall mrs,
  0 <= shr_m mrs ->
  shr_m (SpecFloat.iter_pos shr_1 k mrs) = shr_m mrs / 2 ^ Z.pos k.
Proof.
  assert (Hstep : forall mrs, 0 <= shr_m mrs -> 0 <= shr_m (shr_1 mrs)).
  { intros mrs H. rewrite shr_1_m by exact H. apply Z.div_pos; lia. }
  induction k as [k IH | k IH |]; intros mrs Hm; simpl SpecFloat.iter_pos.
  - assert (H1 : 0 <= shr_m (shr_1 mrs)) by auto.
    assert (H2 : 0 <= shr_m (SpecFloat.iter_pos shr_1 k (shr_1 mrs)))
      by (rewrite IH by exact H1; apply Z.div_pos; lia).
    rewrite IH, IH, shr_1_m by assumption.
    rewrite !Z.div_div by lia. f_equal.
    replace (Z.pos k~1) with (1 + Z.pos k + Z.pos k) by lia.
    rewrite !Z.pow_add_r by lia. lia.
  - assert (H2 : 0 <= shr_m (SpecFloat.iter_pos shr_1 k mrs))
      by (rewrite IH by exact Hm; apply Z.div_pos; lia).
    rewrite IH, IH by assumption.
    rewrite !Z.div_div by lia. f_equal.
    replace (Z.pos k~0) with (Z.pos k + Z.pos k) by lia.
    rewrite !Z.pow_add_r by lia. lia.
  - rewrite shr_1_m by exact Hm. reflexivity.
Qed.

Lemma iter_xO_pos m d : Z.pos (Pos.iter xO m d) = Z.pos m * 2 ^ Z.pos d.
Proof.
  revert m. induction d as [| d IH] using Pos.peano_ind; intros m.
  - simpl. lia.
  - rewrite Pos.iter_succ, Pos2Z.inj_xO, IH, Pos2Z.inj_succ, Z.pow_succ_r by lia. lia.
Qed.

Lemma loc_of_shr_record_of_loc m l : loc_of_shr_record (shr_record_of_loc m l) = l.
Proof. destruct l as [| []]; reflexivity. Qed.

Lemma shr_m_of_loc m l : shr_m (shr_record_of_loc m l) = m.
Proof. destruct l as [| []]; reflexivity. Qed.

Lemma round_nearest_even_cases m l :
  round_nearest_even m l = m \/ round_nearest_even m l = m + 1.
Proof.
  destruct l as [| []]; simpl; auto. destruct (Z.even m); auto.
Qed.

(** Shifting right by [n >= 0]: the mantissa is divided by [2^n]. *)
Lemma shr_spec mrs e n :
  0 <= shr_m mrs -> 0 <= n ->
  shr_m (fst (shr mrs e n)) = shr_m mrs / 2 ^ n /\ snd (shr mrs e n) = e + n /\
  (n = 0 -> fst (shr mrs e n) = mrs).
Proof.
  intros Hm Hn. destruct n as [| p | p]; [| | lia]; simpl.
  - rewrite Z.div_1_r. split; [reflexivity |]. split; [lia | reflexivity].
  - rewrite iter_pos_shr_1_m by exact Hm. split; [reflexivity |]. split; [reflexivity | lia].
Qed.

(** Rounding a mantissa of at least 53 digits: [binary_round_aux] keeps
    the 53 leading digits, or adds one unit in the last of them. *)
Lemma binary_round_aux_spec sx mx ex lx :
  let d := Z.pos (digits2_pos mx) in
  53 <= d -> -1074 <= d + ex - 53 -> d + ex <= 1000 ->
  exists m e n,
    binary_round_aux 53 1024 sx (Z.pos mx) ex lx = S754_finite sx m e /\
    Z.pos (digits2_pos m) = 53 /\
    (n = Z.pos mx / 2 ^ (d - 53) \/ n = Z.pos mx / 2 ^ (d - 53) + 1) /\
    (lx = loc_Exact -> d = 53 -> n = Z.pos mx) /\
    d + ex - 53 <= e <= d + ex - 52 /\
    Z.pos m * 2 ^ (e - (d + ex - 53)) = n.
Proof.
  intros d Hd Hlow Hhigh.
  destruct (digits2_pos_bounds mx) as [Hb1 Hb2]. fold d in Hb1, Hb2.
  unfold binary_round_aux, shr_fexp. cbn [Zdigits2]. fold d.
  assert (Hf1 : fexp 53 1024 (d + ex) - ex = d - 53)
    by (unfold fexp, emin; lia).
  rewrite Hf1.
  destruct (shr_spec (shr_record_of_loc (Z.pos mx) lx) ex (d - 53)) as (Hm1 & He1 & Hz1);
    [rewrite shr_m_of_loc; lia | lia |].
  destruct (shr (shr_record_of_loc (Z.pos mx) lx) ex (d - 53)) as [mrs1 e1].
  simpl in Hm1, He1, Hz1. rewrite shr_m_of_loc in Hm1.
  set (q := Z.pos mx / 2 ^ (d - 53)) in *.
  assert (Hq : 2 ^ 52 <= q < 2 ^ 53).
  { assert (Hp : 0 < 2 ^ (d - 53)) by (apply Z.pow_pos_nonneg; lia).
    assert (H52 : 2 ^ (d - 1) = 2 ^ 52 * 2 ^ (d - 53))
      by (rewrite <- Z.pow_add_r by lia; f_equal; lia).
    assert (H53 : 2 ^ d = 2 ^ 53 * 2 ^ (d - 53))
      by (rewrite <- Z.pow_add_r by lia; f_equal; lia).
    subst q. split.
    - apply Z.div_le_lower_bound; [exact Hp |]. lia.
    - apply Z.div_lt_upper_bound; [exact Hp |]. lia. }
  set (n := round_nearest_even (shr_m mrs1) (loc_of_shr_record mrs1)).
  assert (Hn : n = q \/ n = q + 1)
    by (subst n; rewrite <- Hm1; apply round_nearest_even_cases).
  assert (Hexact : lx = loc_Exact -> d = 53 -> n = Z.pos mx).
  { intros -> Hd53. subst n. rewrite Hz1 by lia. simpl. reflexivity. }
  assert (Hnpos : 2 ^ 52 <= n <= 2 ^ 53) by lia.
  destruct n as [| pn | pn] eqn:En; [lia | | lia].
  cbn [Zdigits2].
  assert (Hdn : Z.pos (digits2_pos pn) = 53 \/
                (Z.pos (digits2_pos pn) = 54 /\ Z.pos pn = 2 ^ 53)).
  { destruct (Z.eq_dec (Z.pos pn) (2 ^ 53)) as [E | E].
    - right. split; [| exact E]. apply digits2_pos_unique. rewrite E.
      change (54 - 1) with 53. split; [lia |]. apply Z.pow_lt_mono_r; lia.
    - left. apply digits2_pos_unique. change (53 - 1) with 52. lia. }
  destruct Hdn as [Hdn | [Hdn Hpn]].
  - assert (Hf2 : fexp 53 1024 (Z.pos (digits2_pos pn) + e1) - e1 = 0)
      by (unfold fexp, emin; lia).
    rewrite Hf2. simpl shr. cbn [shr_m shr_record_of_loc].
    assert (Hle : (e1 <=? 1024 - 53) = true) by (apply Z.leb_le; lia).
    rewrite Hle. exists pn, e1, (Z.pos pn).
    split; [reflexivity |]. split; [exact Hdn |]. split; [exact Hn |].
    split; [exact Hexact |]. split; [lia |].
    replace (e1 - (d + ex - 53)) with 0 by lia. lia.
  - assert (Hf2 : fexp 53 1024 (Z.pos (digits2_pos pn) + e1) - e1 = 1)
      by (unfold fexp, emin; lia).
    rewrite Hf2. unfold shr. cbn [SpecFloat.iter_pos shr_record_of_loc].
    rewrite shr_1_m by (simpl; lia). cbn [shr_m].
    assert (Hhalf : Z.pos pn / 2 = 2 ^ 52) by (rewrite Hpn; reflexivity).
    rewrite Hhalf. change (2 ^ 52) with (Z.pos 4503599627370496).
    cbv iota.
    assert (Hle : (e1 + 1 <=? 1024 - 53) = true) by (apply Z.leb_le; lia).
    rewrite Hle. exists 4503599627370496%positive, (e1 + 1), (Z.pos pn).
    split; [reflexivity |]. split; [reflexivity |]. split; [exact Hn |].
    split; [exact Hexact |]. split; [lia |].
    replace (e1 + 1 - (d + ex - 53)) with 1 by lia. rewrite Hpn. reflexivity.
Qed.

(** *** Powers of two, as rationals *)

Lemma Qpow2_pos e : (0 < 2 ^ e)%Q.
Proof. apply Qpower_0_lt. reflexivity. Qed.

Lemma Qpow2_add a b : (2 ^ (a + b) == 2 ^ a * 2 ^ b)%Q.
Proof. apply Qpower_plus. discriminate. Qed.

Lemma Qpow2_le a b : a <= b -> (2 ^ a <= 2 ^ b)%Q.
Proof. intros H. apply Qpower_le_compat_l; [exact H | discriminate]. Qed.

Lemma Qpow2_inject n : 0 <= n -> (inject_Z (2 ^ n) == 2 ^ n)%Q.
Proof. intros H. rewrite Zpower_Qpower by exact H. reflexivity. Qed.

Lemma Qscale_le a b e : a <= b -> (inject_Z a * 2 ^ e <= inject_Z b * 2 ^ e)%Q.
Proof.
  intros H. apply Qmult_le_compat_r; [rewrite <- Zle_Qle; exact H |].
  apply Qlt_le_weak, Qpow2_pos.
Qed.

Lemma Qshift m k e : 0 <= k -> (inject_Z (m * 2 ^ k) * 2 ^ e == inject_Z m * 2 ^ (e + k))%Q.
Proof.
  intros H. rewrite inject_Z_mult, Qpow2_inject, Qpow2_add by exact H. ring.
Qed.

(** A rational below [2^u] that is at least [m * 2^e] leaves [m] at most
    [u - e] digits. *)
Lemma digits_below m e u (r : Q) :
  (inject_Z (Z.pos m) * 2 ^ e <= r)%Q -> (r < 2 ^ u)%Q ->
  Z.pos (digits2_pos m) + e <= u.
Proof.
  intros H1 H2. destruct (digits2_pos_bounds m) as [Hb _].
  set (d := Z.pos (digits2_pos m)) in *.
  assert (H3 : (2 ^ (d - 1 + e) <= inject_Z (Z.pos m) * 2 ^ e)%Q).
  { rewrite Qpow2_add, <- Qpow2_inject by lia. apply Qscale_le. lia. }
  assert (H4 : (2 ^ (d - 1 + e) < 2 ^ u)%Q) by lra.
  apply Qpower_lt_compat_l_inv in H4; [lia | reflexivity].
Qed.

(** *** Rounding, as rationals *)

(** [binary_round_aux] on a mantissa of at least 53 digits that stands,
    with its location, for the rational [r]: the result is a double of 53
    digits, at most one unit of its last digit away from [r]. *)
Lemma binary_round_aux_near sx mx ex lx (r : Q) :
  let d := Z.pos (digits2_pos mx) in
  53 <= d -> -1074 <= d + ex - 53 -> d + ex <= 1000 ->
  (inject_Z (Z.pos mx) * 2 ^ ex <= r)%Q ->
  (r <= inject_Z (Z.pos mx + 1) * 2 ^ ex)%Q ->
  exists m e,
    binary_round_aux 53 1024 sx (Z.pos mx) ex lx = S754_finite sx m e /\
    Z.pos (digits2_pos m) = 53 /\ d + ex - 53 <= e /\
    (Qabs (inject_Z (Z.pos m) * 2 ^ e - r) <= 2 ^ (d + ex - 53))%Q /\
    (2 ^ (d + ex - 1) <= r)%Q /\
    (lx = loc_Exact -> d = 53 -> (inject_Z (Z.pos m) * 2 ^ e == inject_Z (Z.pos mx) * 2 ^ ex)%Q).
Proof.
  intros d Hd Hlow Hhigh Hr1 Hr2.
  destruct (binary_round_aux_spec sx mx ex lx Hd Hlow Hhigh)
    as (m & e & n & Hround & Hdm & Hn & Hexact & He & Hmn).
  fold d in Hn, Hexact, He, Hmn.
  exists m, e. split; [exact Hround |]. split; [exact Hdm |]. split; [lia |].
  set (k := d - 53) in *. set (g := d + ex - 53) in *.
  set (q := Z.pos mx / 2 ^ k) in *.
  assert (Hk : 0 <= k) by (unfold k; lia).
  assert (Hpk : 0 < 2 ^ k) by (apply Z.pow_pos_nonneg; lia).
  assert (Hq1 : q * 2 ^ k <= Z.pos mx).
  { unfold q. rewrite Z.mul_comm. apply Z.mul_div_le. exact Hpk. }
  assert (Hq2 : Z.pos mx + 1 <= (q + 1) * 2 ^ k).
  { pose proof (Z.mul_succ_div_gt (Z.pos mx) (2 ^ k) Hpk) as H. fold q in H. lia. }
  assert (Hv : (inject_Z (Z.pos m) * 2 ^ e == inject_Z n * 2 ^ g)%Q).
  { rewrite <- Hmn. rewrite Qshift by lia. replace (g + (e - g)) with e by lia. reflexivity. }
  assert (Hg : g = ex + k) by (unfold g, k; lia).
  assert (Hlo : (inject_Z q * 2 ^ g <= inject_Z (Z.pos mx) * 2 ^ ex)%Q).
  { rewrite Hg, <- Qshift by exact Hk. apply Qscale_le. exact Hq1. }
  assert (Hhi : (inject_Z (Z.pos mx + 1) * 2 ^ ex <= inject_Z (q + 1) * 2 ^ g)%Q).
  { rewrite Hg, <- (Qshift (q + 1)) by exact Hk. apply Qscale_le. exact Hq2. }
  assert (Hq3 : (inject_Z (q + 1) * 2 ^ g == inject_Z q * 2 ^ g + 2 ^ g)%Q).
  { rewrite inject_Z_plus. change (inject_Z 1) with 1%Q. ring. }
  split; [| split].
  - apply Qabs_Qle_condition. rewrite Hv.
    destruct Hn as [-> | ->]; [| rewrite Hq3]; split; lra.
  - destruct (digits2_pos_bounds mx) as [Hb _]. fold d in Hb.
    assert (H3 : (2 ^ (d + ex - 1) <= inject_Z (Z.pos mx) * 2 ^ ex)%Q).
    { replace (d + ex - 1) with (d - 1 + ex) by lia.
      rewrite Qpow2_add, <- Qpow2_inject by lia. apply Qscale_le. lia. }
    lra.
  - intros Hlx Hd53. rewrite Hv, (Hexact Hlx Hd53).
    replace g with ex by (unfold g; lia). reflexivity.
Qed.

(** A mantissa of exactly 53 digits is not changed. *)
Lemma binary_round_aux_exact sx mx ex :
  Z.pos (digits2_pos mx) = 53 -> -1074 <= ex -> ex <= 900 ->
  binary_round_aux 53 1024 sx (Z.pos mx) ex loc_Exact = S754_finite sx mx ex.
Proof.
  intros Hd Hlow Hhigh.
  destruct (binary_round_aux_spec sx mx ex loc_Exact)
    as (m & e & n & Hround & Hdm & _ & Hexact & He & Hmn); try lia.
  rewrite Hd in *. specialize (Hexact eq_refl eq_refl). subst n.
  destruct (digits2_pos_bounds mx) as [_ Hb]. rewrite Hd in Hb.
  destruct (digits2_pos_bounds m) as [Hb' _]. rewrite Hdm in Hb'.
  change (53 - 1) with 52 in Hb'.
  assert (e = ex \/ e = ex + 1) as [-> | ->] by lia.
  - replace (ex - (53 + ex - 53)) with 0 in Hmn by lia.
    assert (m = mx) as -> by lia. exact Hround.
  - replace (ex + 1 - (53 + ex - 53)) with 1 in Hmn by lia.
    change (2 ^ 1) with 2 in Hmn. lia.
Qed.

Lemma shl_align_keep mx ex :
  53 <= Z.pos (digits2_pos mx) -> -1074 <= Z.pos (digits2_pos mx) + ex - 53 ->
  shl_align mx ex (fexp 53 1024 (Z.pos (digits2_pos mx) + ex)) = (mx, ex).
Proof.
  intros Hd Hlow. unfold shl_align.
  replace (fexp 53 1024 (Z.pos (digits2_pos mx) + ex) - ex)
    with (Z.pos (digits2_pos mx) - 53) by (unfold fexp, emin; lia).
  destruct (Z.pos (digits2_pos mx) - 53) eqn:E; [reflexivity | reflexivity | lia].
Qed.

(** Aligning to a smaller exponent multiplies the mantissa. *)
Lemma shl_align_fst mx ex ez :
  ez <= ex -> Z.pos (fst (shl_align mx ex ez)) = Z.pos mx * 2 ^ (ex - ez).
Proof.
  intros H. unfold shl_align. destruct (ez - ex) as [| p | p] eqn:E; [| lia |].
  - replace (ex - ez) with 0 by lia. simpl. lia.
  - simpl. rewrite iter_xO_pos. f_equal. f_equal. lia.
Qed.

(** *** The numbers of the handler *)

(** An integer below [2^53] is a double. *)
Lemma of_Z_pos p :
  let d := Z.pos (digits2_pos p) in
  Z.pos p < 2 ^ 53 ->
  exists m,
    Number.of_Z (Z.pos p) = S754_finite false m (d - 53) /\
    Z.pos (digits2_pos m) = 53 /\ Z.pos m = Z.pos p * 2 ^ (53 - d).
Proof.
  intros d Hp. destruct (digits2_pos_bounds p) as [Hb1 Hb2]. fold d in Hb1, Hb2.
  assert (Hd : 1 <= d <= 53).
  { split; [unfold d; lia |].
    destruct (Z.le_gt_cases d 53) as [H | H]; [exact H | exfalso].
    assert (2 ^ 53 <= 2 ^ (d - 1)) by (apply Z.pow_le_mono_r; lia). lia. }
  unfold Number.of_Z, binary_normalize, binary_round, Number.prec, Number.emax.
  unfold shl_align. fold d.
  replace (fexp 53 1024 (d + 0) - 0) with (d - 53) by (unfold fexp, emin; lia).
  replace (fexp 53 1024 (d + 0)) with (d - 53) by (unfold fexp, emin; lia).
  destruct (d - 53) as [| k | k] eqn:E; [| lia |].
  - exists p. assert (d = 53) as Hd53 by lia.
    rewrite binary_round_aux_exact by (fold d; lia).
    rewrite Hd53. split; [reflexivity |]. split; [exact Hd53 |]. simpl. lia.
  - assert (Hm : Z.pos (Pos.iter xO p k) = Z.pos p * 2 ^ (53 - d))
      by (rewrite iter_xO_pos; f_equal; f_equal; lia).
    assert (Hdm : Z.pos (digits2_pos (Pos.iter xO p k)) = 53).
    { apply digits2_pos_unique. rewrite Hm. change (53 - 1) with 52.
      assert (Hp2 : 0 < 2 ^ (53 - d)) by (apply Z.pow_pos_nonneg; lia).
      assert (H52 : 2 ^ 52 = 2 ^ (d - 1) * 2 ^ (53 - d))
        by (rewrite <- Z.pow_add_r by lia; f_equal; lia).
      assert (H53 : 2 ^ 53 = 2 ^ d * 2 ^ (53 - d))
        by (rewrite <- Z.pow_add_r by lia; f_equal; lia).
      rewrite H52, H53. split.
      - apply Z.mul_le_mono_nonneg_r; lia.
      - apply Z.mul_lt_mono_pos_r; lia. }
    exists (Pos.iter xO p k).
    rewrite binary_round_aux_exact by (try exact Hdm; lia).
    split; [reflexivity |]. split; [exact Hdm | exact Hm].
Qed.

Lemma digits2_pos_ge p n : 0 <= n -> 2 ^ n <= Z.pos p -> n + 1 <= Z.pos (digits2_pos p).
Proof.
  intros Hn Hp. destruct (digits2_pos_bounds p) as [_ Hb].
  assert (H : 2 ^ n < 2 ^ Z.pos (digits2_pos p)) by lia.
  apply Z.pow_lt_mono_r_iff in H; lia.
Qed.

Lemma stands_for_value x v :
  stands_for x v -> exists v', Number.value x = Some v' /\ (v' == v)%Q.
Proof.
  destruct x as [s | s | | [] m e]; simpl; try contradiction.
  - intros H. exists 0%Q. split; [reflexivity | symmetry; exact H].
  - intros (_ & _ & H). eexists. split; [reflexivity | symmetry; exact H].
Qed.

Lemma stands_for_nonneg x v : stands_for x v -> (0 <= v)%Q.
Proof.
  destruct x as [s | s | | [] m e]; simpl; try contradiction.
  - intros ->. apply Qle_refl.
  - intros (_ & _ & ->). apply Qmult_le_0_compat; [| apply Qlt_le_weak, Qpow2_pos].
    change 0%Q with (inject_Z 0). rewrite <- Zle_Qle. lia.
Qed.

Lemma of_Z_stands_for z : 0 <= z < 2 ^ 53 -> stands_for (Number.of_Z z) (inject_Z z).
Proof.
  intros [H0 H1]. destruct z as [| p | p]; [reflexivity | | lia].
  destruct (of_Z_pos p H1) as (m & -> & Hdm & Hm). simpl.
  set (d := Z.pos (digits2_pos p)) in *.
  assert (Hd : 1 <= d <= 53).
  { split; [unfold d; lia |].
    destruct (Z.le_gt_cases d 53) as [H | H]; [exact H | exfalso].
    destruct (digits2_pos_bounds p) as [Hb _]. fold d in Hb.
    assert (2 ^ 53 <= 2 ^ (d - 1)) by (apply Z.pow_le_mono_r; lia). lia. }
  split; [exact Hdm |]. split; [lia |].
  rewrite Hm, Qshift by lia. replace (d - 53 + (53 - d)) with 0 by lia.
  change (2 ^ 0)%Q with 1%Q. ring.
Qed.

(** The sum of two doubles, when it is below [2^27]: one more double,
    at most [2^-26] away from the exact sum. *)
Lemma add_near x y (vx vy : Q) :
  stands_for x vx -> stands_for y vy -> (vx + vy < 2 ^ 27)%Q ->
  exists v, stands_for (Number.add x y) v /\ (Qabs (v - (vx + vy)) <= 2 ^ (-26))%Q.
Proof.
  intros Hx Hy Hsum.
  assert (Hsame : forall v, (v == vx + vy)%Q -> (Qabs (v - (vx + vy)) <= 2 ^ (-26))%Q).
  { intros v Hv. apply Qabs_Qle_condition. pose proof (Qpow2_pos (-26)). split; lra. }
  destruct x as [sx | sx | | [] mx ex]; simpl in Hx; try contradiction;
    destruct y as [sy | sy | | [] my ey]; simpl in Hy; try contradiction.
  - exists 0%Q. split.
    + unfold Number.add, SFadd. destruct sx, sy; reflexivity.
    + apply Hsame. rewrite Hx, Hy. ring.
  - exists vy. split; [exact Hy |]. apply Hsame. rewrite Hx. ring.
  - exists vx. split; [exact Hx |]. apply Hsame. rewrite Hy. ring.
  - destruct Hx as (Hdx & Hex & Hvx). destruct Hy as (Hdy & Hey & Hvy).
    unfold Number.add, SFadd, Number.prec, Number.emax.
    set (ez := Z.min ex ey).
    assert (Ha : Z.pos (fst (shl_align mx ex ez)) = Z.pos mx * 2 ^ (ex - ez))
      by (apply shl_align_fst; unfold ez; lia).
    assert (Hb : Z.pos (fst (shl_align my ey ez)) = Z.pos my * 2 ^ (ey - ez))
      by (apply shl_align_fst; unfold ez; lia).
    cbn [cond_Zopp]. rewrite <- Pos2Z.inj_add.
    set (ps := (fst (shl_align mx ex ez) + fst (shl_align my ey ez))%positive).
    assert (Hps : Z.pos ps = Z.pos mx * 2 ^ (ex - ez) + Z.pos my * 2 ^ (ey - ez))
      by (unfold ps; rewrite Pos2Z.inj_add, Ha, Hb; reflexivity).
    destruct (digits2_pos_bounds mx) as [Hbx _]. rewrite Hdx in Hbx.
    change (53 - 1) with 52 in Hbx.
    assert (Hpx : 0 < 2 ^ (ex - ez)) by (apply Z.pow_pos_nonneg; unfold ez; lia).
    assert (Hpy : 0 < 2 ^ (ey - ez)) by (apply Z.pow_pos_nonneg; unfold ez; lia).
    assert (Hbig : 2 ^ 52 <= Z.pos ps) by nia.
    pose proof (digits2_pos_ge ps 52 ltac:(lia) Hbig) as Hdps.
    assert (Hr : (inject_Z (Z.pos ps) * 2 ^ ez == vx + vy)%Q).
    { rewrite Hps, inject_Z_plus, Hvx, Hvy.
      rewrite Qmult_plus_distr_l, !Qshift by (unfold ez; lia).
      replace (ez + (ex - ez)) with ex by lia. replace (ez + (ey - ez)) with ey by lia.
      reflexivity. }
    assert (Hez : -1000 <= ez) by (unfold ez; lia).
    assert (Hup : Z.pos (digits2_pos ps) + ez <= 27).
    { eapply digits_below; [| exact Hsum]. rewrite Hr. apply Qle_refl. }
    unfold binary_normalize, binary_round.
    rewrite shl_align_keep by lia.
    destruct (binary_round_aux_near false ps ez loc_Exact (vx + vy))
      as (m & e & Hround & Hdm & He & Herr & _ & _); try lia.
    { rewrite Hr. apply Qle_refl. }
    { rewrite <- Hr. apply Qscale_le. lia. }
    rewrite Hround. exists (inject_Z (Z.pos m) * 2 ^ e)%Q. split.
    + simpl. split; [exact Hdm |]. split; [lia | reflexivity].
    + eapply Qle_trans; [exact Herr |]. apply Qpow2_le. lia.
Qed.

(** The product of a double and an integer, when it is below [2^27]. *)
Lemma mul_of_Z_near x (vx : Q) q :
  stands_for x vx -> 0 <= q < 2 ^ 53 -> (vx * inject_Z q < 2 ^ 27)%Q ->
  exists v,
    stands_for (Number.mul x (Number.of_Z q)) v /\
    (Qabs (v - vx * inject_Z q) <= 2 ^ (-26))%Q.
Proof.
  intros Hx [Hq0 Hq1] Hprod.
  assert (Hsame : forall v, (v == vx * inject_Z q)%Q ->
                            (Qabs (v - vx * inject_Z q) <= 2 ^ (-26))%Q).
  { intros v Hv. apply Qabs_Qle_condition. pose proof (Qpow2_pos (-26)). split; lra. }
  destruct q as [| p | p]; [| | lia].
  { exists 0%Q. split; [| apply Hsame; change (inject_Z 0) with 0%Q; ring].
    change (Number.of_Z 0) with (S754_zero false).
    destruct x as [sx | sx | | [] mx ex]; simpl in Hx; try contradiction; reflexivity. }
  destruct (of_Z_pos p Hq1) as (mq & Hof & Hdq & Hmq). rewrite Hof.
  set (dq := Z.pos (digits2_pos p)) in *.
  assert (Hdq' : 1 <= dq <= 53).
  { split; [unfold dq; lia |].
    destruct (Z.le_gt_cases dq 53) as [H | H]; [exact H | exfalso].
    destruct (digits2_pos_bounds p) as [Hb _]. fold dq in Hb.
    assert (2 ^ 53 <= 2 ^ (dq - 1)) by (apply Z.pow_le_mono_r; lia). lia. }
  assert (Hvq : (inject_Z (Z.pos p) == inject_Z (Z.pos mq) * 2 ^ (dq - 53))%Q).
  { rewrite Hmq, Qshift by lia. replace (dq - 53 + (53 - dq)) with 0 by lia.
    change (2 ^ 0)%Q with 1%Q. ring. }
  destruct x as [sx | sx | | [] mx ex]; simpl in Hx; try contradiction.
  { exists 0%Q. split; [reflexivity |]. apply Hsame. rewrite Hx. ring. }
  destruct Hx as (Hdx & Hex & Hvx).
  unfold Number.mul, SFmul, Number.prec, Number.emax. cbn [xorb].
  destruct (digits2_pos_bounds mx) as [Hbx _]. rewrite Hdx in Hbx.
  destruct (digits2_pos_bounds mq) as [Hbq _]. rewrite Hdq in Hbq.
  change (53 - 1) with 52 in Hbx, Hbq.
  assert (Hbig : 2 ^ 104 <= Z.pos (mx * mq)).
  { rewrite Pos2Z.inj_mul. change (2 ^ 104) with (2 ^ 52 * 2 ^ 52).
    apply Z.mul_le_mono_nonneg; lia. }
  pose proof (digits2_pos_ge (mx * mq) 104 ltac:(lia) Hbig) as Hd.
  assert (Hr : (inject_Z (Z.pos (mx * mq)) * 2 ^ (ex + (dq - 53))
                == vx * inject_Z (Z.pos p))%Q).
  { rewrite Pos2Z.inj_mul, inject_Z_mult, Qpow2_add, Hvx, Hvq. ring. }
  assert (Hup : Z.pos (digits2_pos (mx * mq)) + (ex + (dq - 53)) <= 27).
  { eapply digits_below; [| exact Hprod]. rewrite Hr. apply Qle_refl. }
  destruct (binary_round_aux_near false (mx * mq) (ex + (dq - 53)) loc_Exact
              (vx * inject_Z (Z.pos p)))
    as (m & e & Hround & Hdm & He & Herr & _ & _); try lia.
  { rewrite Hr. apply Qle_refl. }
  { rewrite <- Hr. apply Qscale_le. lia. }
  rewrite Hround. exists (inject_Z (Z.pos m) * 2 ^ e)%Q. split.
  - simpl. split; [exact Hdm |]. split; [lia | reflexivity].
  - eapply Qle_trans; [exact Herr |]. apply Qpow2_le. lia.
Qed.

Lemma of_Z_100 : Number.of_Z 100 = S754_finite false 7036874417766400 (-46).
Proof. vm_compute. reflexivity. Qed.

(** [parseFloat] of a positive amount: the double is at most one unit of
    its last digit away from the amount in dollars. *)
Lemma parseFloat_near c :
  0 < c < 2 ^ 53 ->
  exists v,
    stands_for (parseFloat c) v /\
    (Qabs (v - inject_Z c / 100) <= inject_Z c / 100 * 2 ^ (-52))%Q.
Proof.
  intros [Hc0 Hc1]. destruct c as [| p | p]; [lia | | lia].
  destruct (of_Z_pos p Hc1) as (m1 & Hof & Hd1 & Hm1).
  set (d := Z.pos (digits2_pos p)) in *.
  assert (Hd : 1 <= d <= 53).
  { split; [unfold d; lia |].
    destruct (Z.le_gt_cases d 53) as [H | H]; [exact H | exfalso].
    destruct (digits2_pos_bounds p) as [Hb _]. fold d in Hb.
    assert (2 ^ 53 <= 2 ^ (d - 1)) by (apply Z.pow_le_mono_r; lia). lia. }
  unfold parseFloat, Number.div. rewrite Hof, of_Z_100.
  unfold SFdiv, SFdiv_core_binary, Number.prec, Number.emax. cbn [xorb Zdigits2].
  rewrite Hd1. change (Z.pos (digits2_pos 7036874417766400)) with 53.
  replace (Z.min (fexp 53 1024 (53 + (d - 53) - (53 + -46))) (d - 53 - -46))
    with (d - 60) by (unfold fexp, emin; lia).
  replace (d - 53 - -46 - (d - 60)) with 53 by lia.
  cbv iota.
  pose proof (Z_div_mod (Z.shiftl (Z.pos m1) 53) (Z.pos 7036874417766400) eq_refl) as Hdiv.
  destruct (Z.div_eucl (Z.shiftl (Z.pos m1) 53) (Z.pos 7036874417766400)) as [q r].
  destruct Hdiv as [Hdiv Hrem]. rewrite Z.shiftl_mul_pow2 in Hdiv by lia.
  destruct (digits2_pos_bounds m1) as [Hb1 Hb2]. rewrite Hd1 in Hb1, Hb2.
  change (53 - 1) with 52 in Hb1.
  change (2 ^ 52) with 4503599627370496 in Hb1.
  change (2 ^ 53) with 9007199254740992 in Hb2, Hdiv.
  assert (Hq : 2 ^ 52 <= q < 2 ^ 54).
  { change (2 ^ 52) with 4503599627370496. change (2 ^ 54) with 18014398509481984. lia. }
  destruct q as [| pq | pq]; [lia | | lia].
  pose proof (digits2_pos_ge pq 52 ltac:(lia) (proj1 Hq)) as Hdq.
  assert (Hdq2 : Z.pos (digits2_pos pq) <= 54).
  { destruct (digits2_pos_bounds pq) as [Hb _].
    destruct (Z.le_gt_cases (Z.pos (digits2_pos pq)) 54) as [H | H]; [exact H | exfalso].
    assert (2 ^ 54 <= 2 ^ (Z.pos (digits2_pos pq) - 1)) by (apply Z.pow_le_mono_r; lia).
    lia. }
  (* the amount, as a multiple of 2^(d - 60) *)
  assert (Hc : (inject_Z (Z.pos p) == inject_Z (Z.pos m1) * 2 ^ (d - 53))%Q).
  { rewrite Hm1, Qshift by lia. replace (d - 53 + (53 - d)) with 0 by lia.
    change (2 ^ 0)%Q with 1%Q. ring. }
  assert (H128 : (2 ^ (d - 53) == 128 * 2 ^ (d - 60))%Q).
  { replace (d - 53) with (7 + (d - 60)) by lia. rewrite Qpow2_add. reflexivity. }
  assert (Hlo : 100 * Z.pos pq <= 128 * Z.pos m1) by lia.
  assert (Hhi : 128 * Z.pos m1 <= 100 * (Z.pos pq + 1)) by lia.
  apply (Qscale_le _ _ (d - 60)) in Hlo, Hhi.
  rewrite !inject_Z_mult in Hlo, Hhi.
  change (inject_Z 100) with 100%Q in Hlo, Hhi.
  change (inject_Z 128) with 128%Q in Hlo, Hhi.
  set (r0 := (inject_Z (Z.pos p) / 100)%Q).
  assert (Hr0 : (r0 == inject_Z (Z.pos m1) * 2 ^ (d - 53) / 100)%Q)
    by (unfold r0; rewrite Hc; reflexivity).
  destruct (binary_round_aux_near false pq (d - 60) (new_location (Z.pos 7036874417766400) r) r0)
    as (m & e & Hround & Hdm & He & Herr & Hmag & _); try lia.
  { rewrite Hr0, H128. unfold Qdiv. change (/ 100)%Q with (1 # 100)%Q. lra. }
  { rewrite Hr0, H128, inject_Z_plus. unfold Qdiv.
    change (/ 100)%Q with (1 # 100)%Q. change (inject_Z 1) with 1%Q.
    rewrite inject_Z_plus in Hhi. change (inject_Z 1) with 1%Q in Hhi. lra. }
  rewrite Hround. exists (inject_Z (Z.pos m) * 2 ^ e)%Q. split.
  - simpl. split; [exact Hdm |]. split; [lia | reflexivity].
  - eapply Qle_trans; [exact Herr |].
    set (g := Z.pos (digits2_pos pq) + (d - 60)) in *.
    replace (g - 53) with (g - 1 + -52) by lia. rewrite Qpow2_add.
    apply Qmult_le_compat_r; [exact Hmag | discriminate].
Qed.

Lemma parseFloat_0 : parseFloat 0 = S754_zero false.
Proof. reflexivity. Qed.

(** One turn of the loop that adds up the total: the running total is a
    double again, and it moves at most [2^-24] further away from the exact
    total. *)
Lemma add_line_near acc (a : Q) (S k q c : Z) :
  stands_for acc a ->
  (Qabs (a - inject_Z S / 100) <= inject_Z k * 2 ^ (-24))%Q ->
  0 <= S -> 0 <= k <= 80000 ->
  0 <= q < 2 ^ 53 -> 0 <= c < 2 ^ 53 -> S + q * c < 10 ^ 10 ->
  exists a',
    stands_for (Number.add acc (Number.mul (parseFloat c) (Number.of_Z q))) a' /\
    (Qabs (a' - inject_Z (S + q * c) / 100) <= inject_Z (k + 1) * 2 ^ (-24))%Q.
Proof.
  intros Hacc Ha HS Hk Hq Hc Hsum.
  change (2 ^ (-24))%Q with (1 # 16777216)%Q in *.
  assert (Hqc : 0 <= q * c) by (apply Z.mul_nonneg_nonneg; lia).
  (* the price, as a double *)
  assert (Hx : exists vx,
             stands_for (parseFloat c) vx /\
             (Qabs (vx - inject_Z c / 100) <= inject_Z c / 100 * 2 ^ (-52))%Q).
  { destruct (Z.eq_dec c 0) as [-> | Hne].
    - exists 0%Q. split; [reflexivity |]. vm_compute. discriminate.
    - apply parseFloat_near. lia. }
  destruct Hx as (vx & Hx & Hvx).
  change (2 ^ (-52))%Q with (1 # 4503599627370496)%Q in Hvx.
  unfold Qdiv in *. change (/ 100)%Q with (1 # 100)%Q in *.
  apply Qabs_Qle_condition in Hvx as [Hvx1 Hvx2].
  apply Qabs_Qle_condition in Ha as [Ha1 Ha2].
  pose proof (stands_for_nonneg _ _ Hx) as Hx0.
  (* the exact subtotal of the line, in dollars *)
  set (Cq := inject_Z c) in *. set (Qq := inject_Z q).
  assert (HQ0 : (0 <= Qq)%Q) by (unfold Qq; change 0%Q with (inject_Z 0); rewrite <- Zle_Qle; lia).
  assert (HC0 : (0 <= Cq)%Q) by (unfold Cq; change 0%Q with (inject_Z 0); rewrite <- Zle_Qle; lia).
  assert (Hprod : (inject_Z (q * c) == Cq * Qq)%Q) by (rewrite inject_Z_mult; unfold Cq, Qq; ring).
  assert (Hplus : (inject_Z (S + q * c) == inject_Z S + Cq * Qq)%Q)
    by (rewrite inject_Z_plus, Hprod; reflexivity).
  assert (HS0 : (0 <= inject_Z S)%Q) by (change 0%Q with (inject_Z 0); rewrite <- Zle_Qle; lia).
  assert (Hbound : (inject_Z S + Cq * Qq < 10000000000)%Q).
  { rewrite <- Hplus. change 10000000000%Q with (inject_Z (10 ^ 10)). rewrite <- Zlt_Qlt. exact Hsum. }
  assert (Hk0 : (0 <= inject_Z k)%Q) by (change 0%Q with (inject_Z 0); rewrite <- Zle_Qle; lia).
  assert (Hk1 : (inject_Z k <= 80000)%Q)
    by (change 80000%Q with (inject_Z 80000); rewrite <- Zle_Qle; lia).
  (* the product of the double and the quantity, before rounding *)
  assert (Hr1a : ((vx - Cq * (1 # 100)) * Qq <= Cq * (1 # 100) * (1 # 4503599627370496) * Qq)%Q)
    by (apply Qmult_le_compat_r; [exact Hvx2 | exact HQ0]).
  assert (Hr1b : (- (Cq * (1 # 100) * (1 # 4503599627370496)) * Qq
                  <= (vx - Cq * (1 # 100)) * Qq)%Q)
    by (apply Qmult_le_compat_r; [exact Hvx1 | exact HQ0]).
  set (T := (Cq * Qq)%Q) in *.
  assert (HT0 : (0 <= T)%Q) by (apply Qmult_le_0_compat; assumption).
  set (r1 := (vx * Qq)%Q).
  assert (Hr1 : (- (T * (1 # 100) * (1 # 4503599627370496)) <= r1 - T * (1 # 100)
                 /\ r1 - T * (1 # 100) <= T * (1 # 100) * (1 # 4503599627370496))%Q).
  { unfold r1, T. split; lra. }
  destruct Hr1 as [Hr1l Hr1u].
  destruct (mul_of_Z_near (parseFloat c) vx q Hx Hq) as (vm & Hm & Hvm).
  { fold Qq. fold r1. change (2 ^ 27)%Q with 134217728%Q. lra. }
  fold Qq in Hvm. fold r1 in Hvm.
  change (2 ^ (-26))%Q with (1 # 67108864)%Q in Hvm.
  apply Qabs_Qle_condition in Hvm as [Hvm1 Hvm2].
  destruct (add_near acc _ a vm Hacc Hm) as (a' & Ha' & Hva').
  { change (2 ^ 27)%Q with 134217728%Q. lra. }
  change (2 ^ (-26))%Q with (1 # 67108864)%Q in Hva'.
  apply Qabs_Qle_condition in Hva' as [Hva1 Hva2].
  exists a'. split; [exact Ha' |].
  apply Qabs_Qle_condition. rewrite Hplus, inject_Z_plus.
  change (inject_Z 1) with 1%Q. fold T. split; lra.
Qed.

Lemma line_cents_nonneg lines :
  Forall (fun line =>
            0 <= item_quantity line < 2 ^ 31 /\ 0 <= price_at_purchase line < 10 ^ 10) lines ->
  0 <= line_cents lines.
Proof.
  induction 1 as [| line lines [Hq Hp] _ IH]; simpl; [lia |].
  assert (0 <= item_quantity line * price_at_purchase line)
    by (apply Z.mul_nonneg_nonneg; lia).
  lia.
Qed.

(** The whole loop, started from a running total [acc]. *)
Lemma line_total_near lines : forall acc (a : Q) (S k : Z),
  Forall (fun line =>
            0 <= item_quantity line < 2 ^ 31 /\ 0 <= price_at_purchase line < 10 ^ 10) lines ->
  stands_for acc a ->
  (Qabs (a - inject_Z S / 100) <= inject_Z k * 2 ^ (-24))%Q ->
  0 <= S -> 0 <= k -> k + Z.of_nat (length lines) <= 80000 ->
  S + line_cents lines < 10 ^ 10 ->
  exists a',
    stands_for
      (fold_left
         (fun acc line =>
            Number.add acc
              (Number.mul (parseFloat (price_at_purchase line))
                 (Number.of_Z (item_quantity line))))
         lines acc) a' /\
    (Qabs (a' - inject_Z (S + line_cents lines) / 100)
     <= inject_Z (k + Z.of_nat (length lines)) * 2 ^ (-24))%Q.
Proof.
  induction lines as [| line rest IH]; intros acc a S k Hall Hacc Ha HS Hk Hlen Hsum.
  - simpl. exists a. split; [exact Hacc |].
    rewrite !Z.add_0_r. exact Ha.
  - inversion Hall as [| ? ? [Hq Hp] Hrest]; subst.
    pose proof (line_cents_nonneg rest Hrest) as Hrest0.
    cbn [line_cents length fold_left] in *.
    assert (Hqc : 0 <= item_quantity line * price_at_purchase line)
      by (apply Z.mul_nonneg_nonneg; lia).
    destruct (add_line_near acc a S k (item_quantity line) (price_at_purchase line))
      as (a1 & Hacc1 & Ha1); try assumption; try lia.
    destruct (IH _ a1 (S + item_quantity line * price_at_purchase line) (k + 1)
                Hrest Hacc1 Ha1) as (a' & Hacc' & Ha'); try lia.
    exists a'. split; [exact Hacc' |].
    replace (S + (item_quantity line * price_at_purchase line + line_cents rest))
      with (S + item_quantity line * price_at_purchase line + line_cents rest) by lia.
    replace (k + Z.of_nat (Datatypes.S (length rest)))
      with (k + 1 + Z.of_nat (length rest)) by lia.
    exact Ha'.
Qed.

(** For order lines as the tables hold them, the double total is less than
    half a cent away from the exact total. *)
Lemma line_total_within_half_cent lines :
  storable lines -> within_half_cent (line_total lines) (line_cents lines).
Proof.
  intros (Hall & Hlen & Hsum).
  destruct (line_total_near lines (Number.of_Z 0) 0 0 0 Hall) as (a & Ha & Herr);
    try lia.
  { reflexivity. }
  { vm_compute. discriminate. }
  destruct (stands_for_value _ _ Ha) as (v & Hv & Hva).
  exists v. split; [exact Hv |].
  change (2 ^ (-24))%Q with (1 # 16777216)%Q in Herr.
  unfold Qdiv in Herr. change (/ 100)%Q with (1 # 100)%Q in Herr.
  apply Qabs_Qle_condition in Herr as [H1 H2].
  assert (Hn : (inject_Z (0 + Z.of_nat (length lines)) <= 80000)%Q).
  { change 80000%Q with (inject_Z 80000). rewrite <- Zle_Qle. lia. }
  assert (Hn0 : (0 <= inject_Z (0 + Z.of_nat (length lines)))%Q).
  { change 0%Q with (inject_Z 0). rewrite <- Zle_Qle. lia. }
  rewrite !Z.add_0_l in *.
  apply Qabs_Qlt_condition. split; lra.
Qed.

Lemma line_total_exact lines :
  storable lines -> toFixed2 (line_total lines) = Cents (line_cents lines).
Proof. intros H. apply toFixed2_near, line_total_within_half_cent, H. Qed.

(** ** The statements of a call *)

Lemma accepted_Some req user items :
  accepted req = Some (user, items) ->
  userId req = Some user /\ cartItems req = Some items /\
  user <> EmptyString /\ items <> [].
Proof.
  unfold accepted. destruct (userId req) as [u |]; [| discriminate].
  destruct (cartItems req) as [[| i l] |]; try discriminate.
  destruct (String.eqb_spec u EmptyString) as [-> | Hne]; [discriminate |].
  intros [= <- <-]. repeat split; [exact Hne | discriminate].
Qed.

Lemma seed_stock_invariant : stock_invariant seed.
Proof.
  intros t row. unfold seed. simpl.
  rewrite !lookup_insert, lookup_empty.
  repeat case_decide; intros [= <-]; simpl; lia.
Qed.

(** The first loop stops at the first line that fails the check. *)
Lemma check_cart_first tk items : forall total acc resp,
  check_cart tk items total acc = inl resp ->
  exists pre item post,
    items = pre ++ item :: post /\ Forall (in_stock tk) pre /\
    ((resp = mkResponse 400 (InvalidTier (tier item)) /\ tk !! tier item = None) \/
     (exists row,
         resp = mkResponse 409
                  (InsufficientStock (tier item) (quantity item) (quantity_available row)) /\
         tk !! tier item = Some row /\ quantity_available row < quantity item)).
Proof.
  induction items as [| item rest IH]; intros total acc resp; simpl; [discriminate |].
  destruct (tk !! tier item) as [row |] eqn:Hrow.
  - destruct (Z.ltb_spec (quantity_available row) (quantity item)) as [Hlt | Hge].
    + intros [= <-]. exists [], item, rest. split; [reflexivity |].
      split; [constructor |]. right. exists row. auto.
    + intros H. apply IH in H as (pre & i & post & -> & Hpre & H).
      exists (item :: pre), i, post. split; [reflexivity |]. split; [| exact H].
      constructor; [exists row; split; [exact Hrow | lia] | exact Hpre].
  - intros [= <-]. exists [], item, rest. split; [reflexivity |].
    split; [constructor |]. left. auto.
Qed.

(** The statements of the first loop. *)
Lemma lock_rows_log w items : forall total acc c r c',
  lock_rows w items total acc c = (Fulfilled r, c') ->
  match r with
  | inl _ => exists k, log c' = log c ++ select_stmts (take k items) ++ [ROLLBACK]
  | inr _ => log c' = log c ++ select_stmts items
  end.
Proof.
  induction items as [| item rest IH]; intros total acc c r c' H; simpl in H.
  - apply ret_inv in H as [Hr ->]. injection Hr as ->. simpl.
    rewrite app_nil_r. reflexivity.
  - apply bind_inv in H as [(q & c1 & Hq & H) | [_ H]]; [| discriminate].
    apply query_inv in Hq as [Hlog _].
    assert (Hrb : forall resp,
               (await query w ROLLBACK; ret (inl resp)) c1 = (Fulfilled r, c') ->
               match r with
               | inl _ => exists k, log c' = log c ++ select_stmts (take k (item :: rest))
                                               ++ [ROLLBACK]
               | inr _ => log c' = log c ++ select_stmts (item :: rest)
               end).
    { intros resp Hr.
      apply bind_inv in Hr as [(q' & c2 & Hq2 & Hr) | [_ Hr]]; [| discriminate].
      apply ret_inv in Hr as [Hr ->]. injection Hr as ->.
      apply query_inv in Hq2 as [Hlog2 _].
      exists 1%nat. rewrite Hlog2, Hlog. simpl.
      rewrite <- app_assoc. reflexivity. }
    destruct q as [[| row rows] | id |]; try (eapply Hrb; exact H).
    destruct (quantity_available row <? quantity item); [eapply Hrb; exact H |].
    apply IH in H. destruct r as [resp | p].
    + destruct H as [k Hk]. exists (S k). rewrite Hk, Hlog. simpl.
      rewrite <- !app_assoc. reflexivity.
    + rewrite H, Hlog. simpl. rewrite <- app_assoc. reflexivity.
Qed.

(** The statements of a [try] block that returns without a booking. *)
Lemma transaction_refused_log w user items c resp c' :
  transaction w user items c = (Fulfilled resp, c') ->
  http_status resp <> 201 ->
  exists k, log c' = log c ++ [BEGIN] ++ select_stmts (take k items) ++ [ROLLBACK].
Proof.
  unfold transaction. intros H Hs.
  apply bind_inv in H as [(r0 & c0 & Hq0 & H) | [_ H]]; [| discriminate].
  apply query_inv in Hq0 as [Hlog0 _].
  apply bind_inv in H as [(locked & c1 & Hl & H) | [_ H]]; [| discriminate].
  apply lock_rows_log in Hl. destruct locked as [r | [total pend]].
  - apply ret_inv in H as [_ ->]. destruct Hl as [k Hk]. exists k.
    rewrite Hk, Hlog0, <- !app_assoc. reflexivity.
  - destruct (simulatePayment (random w) user total); simpl in H.
    + apply bind_inv in H as [(r2 & c2 & _ & H) | [_ H]]; [| discriminate].
      apply bind_inv in H as [(r3 & c3 & _ & H) | [_ H]]; [| discriminate].
      apply bind_inv in H as [(r4 & c4 & _ & H) | [_ H]]; [| discriminate].
      apply ret_inv in H as [Hr _]. injection Hr as ->. simpl in Hs. congruence.
    + apply bind_inv in H as [(r2 & c2 & Hq2 & H) | [_ H]]; [| discriminate].
      apply ret_inv in H as [_ ->]. apply query_inv in Hq2 as [Hlog2 _].
      exists (length items). rewrite firstn_all, Hlog2, Hl, Hlog0, <- !app_assoc.
      reflexivity.
Qed.

(** *** Failures *)

Lemma sequential_ret {A} w (a : A) : sequential w (ret a).
Proof.
  intros c o c' H. apply ret_inv in H as [-> ->]. exists [].
  rewrite app_nil_r. split; [reflexivity |]. simpl. intros n Hn. lia.
Qed.

Lemma sequential_query w s : sequential w (query w s).
Proof.
  intros c o c' H. exists [s].
  apply query_inv in H as [Hlog [(Ht & -> & _) | [Ht H]]]; (split; [exact Hlog |]).
  - exists [], s. simpl. rewrite Nat.add_0_r. split; [reflexivity |].
    split; [exact Ht |]. intros n Hn. lia.
  - destruct (run_stmt s (durable c) (work c)) as [[r d] wk]. injection H as -> _ _.
    simpl. intros n Hn. assert (n = 0)%nat as -> by lia. rewrite Nat.add_0_r. exact Ht.
Qed.

Lemma sequential_bind {A B} w (m : Async A) (k : A -> Async B) :
  sequential w m -> (forall a, sequential w (k a)) -> sequential w (bind m k).
Proof.
  intros Hm Hk c o c' H.
  apply bind_inv in H as [(a & c1 & H1 & H2) | [H1 ->]].
  - apply Hm in H1 as (l1 & Hl1 & Hok1). apply Hk in H2 as (l2 & Hl2 & H2).
    exists (l1 ++ l2). rewrite Hl2, Hl1, <- app_assoc. split; [reflexivity |].
    rewrite Hl1, length_app in H2. destruct o as [b |].
    + intros n Hn. rewrite length_app in Hn.
      destruct (Nat.lt_ge_cases n (length l1)) as [Hlt | Hge]; [apply Hok1, Hlt |].
      replace (length (log c) + n)%nat
        with (length (log c) + length l1 + (n - length l1))%nat by lia.
      apply H2. lia.
    + destruct H2 as (l0 & s & -> & Ht & Hbefore).
      exists (l1 ++ l0), s. rewrite <- app_assoc. split; [reflexivity |].
      rewrite length_app, Nat.add_assoc. split; [exact Ht |].
      intros n Hn.
      destruct (Nat.lt_ge_cases n (length l1)) as [Hlt | Hge]; [apply Hok1, Hlt |].
      replace (length (log c) + n)%nat
        with (length (log c) + length l1 + (n - length l1))%nat by lia.
      apply Hbefore. lia.
  - apply Hm in H1 as (l1 & Hl1 & H1). exists l1. auto.
Qed.

Lemma sequential_lock_rows w items : forall total acc,
  sequential w (lock_rows w items total acc).
Proof.
  induction items as [| item rest IH]; intros total acc; simpl.
  - apply sequential_ret.
  - apply sequential_bind; [apply sequential_query |].
    intros [[| row rows] | id |];
      try (apply sequential_bind;
           [apply sequential_query | intros _; apply sequential_ret]).
    destruct (quantity_available row <? quantity item); [| apply IH].
    apply sequential_bind; [apply sequential_query | intros _; apply sequential_ret].
Qed.

Lemma sequential_write_items w oid pend : sequential w (write_items w oid pend).
Proof.
  induction pend as [| p pend IH]; simpl; [apply sequential_ret |].
  apply sequential_bind; [apply sequential_query | intros _].
  apply sequential_bind; [apply sequential_query | intros _; exact IH].
Qed.

Lemma sequential_transaction w user items : sequential w (transaction w user items).
Proof.
  unfold transaction.
  apply sequential_bind; [apply sequential_query | intros _].
  apply sequential_bind; [apply sequential_lock_rows |].
  intros [resp | [total pend]]; [apply sequential_ret |].
  destruct (negb (simulatePayment (random w) user total)).
  - apply sequential_bind; [apply sequential_query | intros _; apply sequential_ret].
  - apply sequential_bind; [apply sequential_query | intros r].
    apply sequential_bind; [apply sequential_write_items | intros _].
    apply sequential_bind; [apply sequential_query | intros _; apply sequential_ret].
Qed.

(** Every run of the [try] block starts with BEGIN. *)
Lemma transaction_begins w user items c o c' :
  transaction w user items c = (o, c') ->
  exists l, log c' = log c ++ BEGIN :: l.
Proof.
  unfold transaction. intros H.
  apply bind_inv in H as [(r0 & c0 & Hq0 & H) | [Hq0 _]];
    apply query_inv in Hq0 as [Hlog0 _]; [| exists []; exact Hlog0].
  match type of H with ?m _ = _ => assert (Hseq : sequential w m) end.
  { apply sequential_bind; [apply sequential_lock_rows |].
    intros [resp | [total pend]]; [apply sequential_ret |].
    destruct (negb (simulatePayment (random w) user total)).
    - apply sequential_bind; [apply sequential_query | intros _; apply sequential_ret].
    - apply sequential_bind; [apply sequential_query | intros r].
      apply sequential_bind; [apply sequential_write_items | intros _].
      apply sequential_bind; [apply sequential_query | intros _; apply sequential_ret]. }
  apply Hseq in H as (l & Hl & _). exists l. rewrite Hl, Hlog0, <- app_assoc. reflexivity.
Qed.

(** A booking is answered with 201, and nothing else is. *)
Lemma status_201_of_booked w req db :
  match body (fst (book w req db)) with
  | Booked _ _ _ _ _ => http_status (fst (book w req db)) = 201
  | _ => http_status (fst (book w req db)) <> 201
  end.
Proof.
  destruct (book_cases w req db) as [-> | ->]; [discriminate |].
  unfold outcome, settle.
  destruct (accepted req) as [[user items] |]; [| discriminate].
  destruct (check_cart _ _ _ _) as [resp | [total pend]] eqn:Hc.
  - apply check_cart_inl in Hc as [(i & _ & -> & _) | (i & row & _ & -> & _)]; discriminate.
  - destruct (simulatePayment _ _ _); [reflexivity | discriminate].
Qed.

(** The [catch] block sends one ROLLBACK. *)
Lemma on_error_log w c o c' :
  on_error w c = (o, c') -> log c' = log c ++ [ROLLBACK].
Proof.
  unfold on_error, ignore_rejection, try_catch, bind. intros H.
  destruct (query w ROLLBACK c) as [[r |] c1] eqn:Hq;
    apply query_inv in Hq as [Hq _]; simpl in H; injection H as _ <-; exact Hq.
Qed.

(** ** Bodies of any type *)

Lemma lines_before_null_typed its : lines_before_null (map Json.Line its) = its.
Proof. induction its as [| i its IH]; simpl; congruence. Qed.

Lemma has_null_typed its : has_null (map Json.Line its) = false.
Proof. induction its as [| i its IH]; simpl; [reflexivity | exact IH]. Qed.


(** The first loop on any array: the loop on the lines before the first
    [null], which then throws if there is one. *)
Lemma Json_lock_rows w items : forall total acc c,
  Json.lock_rows w items total acc c
  = match lock_rows w (lines_before_null items) total acc c with
    | (Fulfilled (inr p), c1) =>
        if has_null items then (Rejected, c1) else (Fulfilled (inr p), c1)
    | r => r
    end.
Proof.
  induction items as [| [item |] rest IH]; intros total acc c; [reflexivity | | reflexivity].
  cbn [Json.lock_rows lines_before_null lock_rows].
  change (has_null (Json.Line item :: rest)) with (has_null rest).
  unfold bind, ret.
  destruct (query w (SELECT_FOR_UPDATE (tier item)) c) as [[r |] c1]; [| reflexivity].
  destruct r as [[| row rows] | id |];
    try (destruct (query w ROLLBACK c1) as [[r' |] c2]; reflexivity).
  destruct (quantity_available row <? quantity item);
    [destruct (query w ROLLBACK c1) as [[r' |] c2]; reflexivity |].
  apply IH.
Qed.

Lemma Json_lock_rows_typed w its total acc c :
  Json.lock_rows w (map Json.Line its) total acc c = lock_rows w its total acc c.
Proof.
  rewrite Json_lock_rows, lines_before_null_typed, has_null_typed.
  destruct (lock_rows w its total acc c) as [[[resp | p] |] c1]; reflexivity.
Qed.

Lemma Json_transaction_typed w u its c :
  Json.transaction w (Json.Text u) (map Json.Line its) c = transaction w u its c.
Proof.
  unfold Json.transaction, transaction, bind.
  destruct (query w BEGIN c) as [[r |] c0]; [| reflexivity].
  rewrite Json_lock_rows_typed. reflexivity.
Qed.

(** *** Calls in which a statement fails, or none *)

(** A call answers 500 exactly when one of the statements it sent
    failed. *)
Lemma status_500_failed w req db :
  http_status (fst (book w req db)) = 500 <->
  exists n, failed_at w (statements w req db) n.
Proof.
  unfold statements, book, handle, failed_at.
  destruct (accepted req) as [[user items] |].
  2: { simpl. split; [discriminate | intros (n & Hn & _); simpl in Hn; lia]. }
  unfold try_catch.
  destruct (transaction w user items (connect db)) as [[resp |] c] eqn:Ht.
  - pose proof (sequential_transaction w user items _ _ _ Ht) as (l & Hl & Hok).
    simpl in Hl, Hok |- *. subst l.
    assert (Hne : http_status resp <> 500).
    { apply transaction_inv in Ht as [[? _] | (r & [= <-] & Hset & _)]; [discriminate |].
      unfold settle in Hset.
      destruct (check_cart _ _ _ _) as [r | [total pend]] eqn:Hc.
      - apply check_cart_inl in Hc as [(i & _ & -> & _) | (i & row & _ & -> & _)];
          injection Hset as -> _; discriminate.
      - destruct (simulatePayment _ _ _); injection Hset as -> _; discriminate. }
    split; [contradiction |].
    intros (n & Hn & Hth). rewrite (Hok n Hn) in Hth. discriminate.
  - pose proof (sequential_transaction w user items _ _ _ Ht)
      as (l & Hl & l0 & s & -> & Hth & Hbefore).
    simpl in Hl, Hth, Hbefore.
    destruct (on_error w c) as [o' c'] eqn:He.
    assert (Hlog : log c' = l0 ++ [s; ROLLBACK]).
    { apply on_error_log in He. rewrite He, Hl, <- app_assoc. reflexivity. }
    apply on_error_inv in He as [-> _]. simpl. rewrite Hlog.
    split; [intros _ | reflexivity].
    exists (length l0). split; [rewrite length_app; simpl; lia | exact Hth].
Qed.


(** When none of its statements fails, a call is exactly [outcome]. *)
Lemma book_unfailing w req db :
  (forall n, ~ failed_at w (statements w req db) n) ->
  book w req db = outcome (random w) req db.
Proof.
  intros Hno. destruct (book_cases w req db) as [H | H]; [exfalso | exact H].
  assert (Hs : http_status (fst (book w req db)) = 500) by (rewrite H; reflexivity).
  apply status_500_failed in Hs as [n Hn]. exact (Hno n Hn).
Qed.

(** *** The statements that write *)

Lemma is_write_app l1 l2 : existsb is_write (l1 ++ l2) = existsb is_write l1 || existsb is_write l2.
Proof. apply existsb_app. Qed.

Lemma select_stmts_read items : existsb is_write (select_stmts items) = false.
Proof. induction items as [| i items IH]; simpl; [reflexivity | exact IH]. Qed.

(** The first loop only reads. *)
Lemma lock_rows_reads w items : forall total acc c o c',
  lock_rows w items total acc c = (o, c') ->
  exists l, log c' = log c ++ l /\ existsb is_write l = false.
Proof.
  induction items as [| item rest IH]; intros total acc c o c' H; simpl in H.
  - apply ret_inv in H as [_ ->]. exists []. rewrite app_nil_r. auto.
  - apply bind_inv in H as [(r & c1 & Hq & H) | [Hq _]];
      apply query_inv in Hq as [Hlog _];
      [| exists [SELECT_FOR_UPDATE (tier item)]; auto].
    assert (Hrb : forall resp : Response + Number.t * list PendingItem,
               (await query w ROLLBACK; ret resp) c1 = (o, c') ->
               exists l, log c' = log c ++ l /\ existsb is_write l = false).
    { intros resp Hr. exists [SELECT_FOR_UPDATE (tier item); ROLLBACK].
      split; [| reflexivity].
      apply bind_inv in Hr as [(r' & c2 & Hq2 & Hr) | [Hq2 _]];
        apply query_inv in Hq2 as [Hlog2 _];
        [apply ret_inv in Hr as [_ ->] |];
        rewrite Hlog2, Hlog, <- app_assoc; reflexivity. }
    destruct r as [[| row rows] | id |]; try (eapply Hrb; exact H).
    destruct (quantity_available row <? quantity item); [eapply Hrb; exact H |].
    apply IH in H as (l & Hl & Hw). exists (SELECT_FOR_UPDATE (tier item) :: l).
    split; [rewrite Hl, Hlog, <- app_assoc; reflexivity | exact Hw].
Qed.

(** BEGIN and the first loop, on the committed database [db]. *)
Lemma locking_inv w its db o c1 :
  (await query w BEGIN; lock_rows w its (Number.of_Z 0) []) (connect db) = (o, c1) ->
  durable c1 = db /\ existsb is_write (log c1) = false /\
  match o with
  | Rejected =>
      exists l0 s,
        log c1 = l0 ++ [s] /\ throws w (length l0) = true /\
        forall n, (n < length l0)%nat -> throws w n = false
  | Fulfilled r =>
      (forall n, (n < length (log c1))%nat -> throws w n = false) /\
      r = check_cart (tickets db) its (Number.of_Z 0) [] /\
      match r with
      | inr _ => log c1 = [BEGIN] ++ select_stmts its /\ work c1 = db
      | inl _ => True
      end
  end.
Proof.
  intros H.
  assert (Hseq : sequential w (await query w BEGIN; lock_rows w its (Number.of_Z 0) []))
    by (apply sequential_bind; [apply sequential_query | intros _; apply sequential_lock_rows]).
  pose proof (Hseq _ _ _ H) as (l & Hl & Hfail). simpl in Hl, Hfail.
  apply bind_inv in H as [(r0 & c0 & Hq0 & H) | [Hq0 ->]].
  - pose proof (query_durable _ _ _ _ _ Hq0 ltac:(discriminate)) as Hd0.
    apply query_inv in Hq0 as [Hlog0 Hq0]. simpl in Hlog0, Hd0.
    pose proof (lock_rows_durable _ _ _ _ _ _ _ H) as Hd1.
    pose proof (lock_rows_reads _ _ _ _ _ _ _ H) as (l1 & Hl1 & Hw1).
    split; [congruence |]. split; [rewrite Hl1, Hlog0; exact Hw1 |].
    destruct o as [r |].
    + destruct Hq0 as [(_ & Hr & _) | [_ Hq0]]; [discriminate |].
      simpl in Hq0. injection Hq0 as _ _ Hw0.
      apply lock_rows_inv in H as [Hc Hr]. rewrite Hw0 in Hc.
      split; [rewrite Hl; exact Hfail |]. split; [symmetry; exact Hc |].
      destruct r as [resp | p]; [exact I |]. destruct Hr as [Hw Hlog].
      split; [rewrite Hlog, Hlog0; reflexivity | congruence].
    + rewrite Hl. exact Hfail.
  - pose proof (query_durable _ _ _ _ _ Hq0 ltac:(discriminate)) as Hd0.
    apply query_inv in Hq0 as [Hlog0 _]. simpl in Hlog0, Hd0.
    split; [exact Hd0 |]. split; [rewrite Hlog0; reflexivity |].
    rewrite Hl. exact Hfail.
Qed.

(** *** The handler on any body *)



Lemma Json_accepted_typed req : Json.accepted (typed req) = 
  match accepted req with
  | Some (user, items) => Some (Json.Text user, map Json.Line items)
  | None => None
  end.
Proof.
  unfold Json.accepted, accepted, typed. simpl.
  destruct (userId req) as [u |]; [| reflexivity].
  destruct (cartItems req) as [[| i l] |]; try reflexivity. simpl.
  destruct (String.eqb u EmptyString); reflexivity.
Qed.

(** On a body of its type, the handler is [handle]. *)
Lemma Json_handle_typed w req db : Json.handle w (typed req) db = handle w req db.
Proof.
  unfold Json.handle, handle. rewrite Json_accepted_typed.
  destruct (accepted req) as [[user items] |]; [| reflexivity].
  unfold try_catch. rewrite Json_transaction_typed. reflexivity.
Qed.

Lemma bind_assoc {A B C} (m : Async A) (k : A -> Async B) (h : B -> Async C) c :
  bind (bind m k) h c = bind m (fun a => bind (k a) h) c.
Proof. unfold bind. destruct (m c) as [[a |] c1]; reflexivity. Qed.

Lemma bind_eq {A B} (m : Async A) (k : A -> Async B) c o c1 :
  m c = (o, c1) ->
  bind m k c = match o with Fulfilled a => k a c1 | Rejected => (Rejected, c1) end.
Proof. intros H. unfold bind. rewrite H. reflexivity. Qed.

(** The [try] block, split after the first loop. *)
Lemma transaction_split w user items c :
  transaction w user items c
  = bind (await query w BEGIN; lock_rows w items (Number.of_Z 0) [])
      (fun locked =>
         match locked with
         | inl response => ret response
         | inr (totalAmount, orderItems) =>
             if negb (simulatePayment (random w) user totalAmount) then
               (await query w ROLLBACK;
                ret (mkResponse 400 PaymentFailed))
             else
               (const orderResult :=
                  await query w (INSERT_ORDER user (toFixed2 totalAmount) PAID);
                let orderId := match orderResult with Returning id => id | _ => O end in
                await write_items w orderId orderItems;
                await query w COMMIT;
                ret (mkResponse 201
                       (Booked orderId user (toFixed2 totalAmount) orderItems PAID)))
         end) c.
Proof. rewrite bind_assoc. reflexivity. Qed.



(** The [catch] block after a [try] block that wrote nothing. *)
Lemma caught w c1 :
  existsb is_write (log c1) = false ->
  let r := match on_error w c1 with
           | (Fulfilled response, c) => (response, c)
           | (Rejected, c) => (mkResponse 500 ServerError, c)
           end in
  fst r = mkResponse 500 ServerError /\ durable (snd r) = durable c1 /\
  existsb is_write (log (snd r)) = false /\ log (snd r) = log c1 ++ [ROLLBACK].
Proof.
  intros Hw. destruct (on_error w c1) as [o2 c2] eqn:He.
  pose proof (on_error_log _ _ _ _ He) as Hlog.
  apply on_error_inv in He as [-> Hd2]. simpl.
  split; [reflexivity |]. split; [exact Hd2 |].
  split; [rewrite Hlog, is_write_app, Hw; reflexivity | exact Hlog].
Qed.





Lemma book_handle w req db :
  book w req db = (fst (handle w req db), durable (snd (handle w req db))).
Proof. unfold book. destruct (handle w req db) as [resp c]. reflexivity. Qed.





(** A call that answers 500 commits nothing, and says no more. *)
Lemma status_500_book w req db :
  http_status (fst (book w req db)) = 500 ->
  book w req db = (mkResponse 500 ServerError, db).
Proof.
  destruct (book_cases w req db) as [-> | ->]; [reflexivity |].
  unfold outcome, settle.
  destruct (accepted req) as [[user items] |]; [| discriminate].
  destruct (check_cart _ _ _ _) as [resp | [total pend]] eqn:Hc.
  - apply check_cart_inl in Hc as [(i & _ & -> & _) | (i & row & _ & -> & _)]; discriminate.
  - destruct (simulatePayment _ _ _); discriminate.
Qed.



Lemma failed_true w l : failed w l = true <-> exists n, failed_at w l n.
Proof.
  unfold failed, failed_at. rewrite existsb_exists. split.
  - intros (n & Hin & Hn). apply in_seq in Hin. exists n. split; [lia | exact Hn].
  - intros (n & Hlt & Hn). exists n. split; [apply in_seq; lia | exact Hn].
Qed.

Lemma failed_false w l : failed w l = false <-> forall n, ~ failed_at w l n.
Proof.
  split.
  - intros H n Hn. assert (failed w l = true) by (apply failed_true; eauto). congruence.
  - intros H. destruct (failed w l) eqn:E; [| reflexivity].
    apply failed_true in E as [n Hn]. destruct (H n Hn).
Qed.

(** *** The total of a cart *)

Lemma line_cents_cart tk oid items :
  line_cents (cart_lines tk oid items) = cart_cents tk items.
Proof.
  unfold cart_lines. induction items as [| item rest IH]; simpl; [reflexivity |].
  rewrite IH. reflexivity.
Qed.

Lemma line_total_cart_lines tk oid items :
  line_total (cart_lines tk oid items) = cart_total tk items.
Proof. unfold line_total, cart_lines, cart_total. apply line_total_cart. Qed.

(** For a cart whose lines can be stored, the double total rounds to the
    exact total. *)
Lemma cart_total_exact tk oid items :
  storable (cart_lines tk oid items) ->
  within_half_cent (cart_total tk items) (cart_cents tk items) /\
  toFixed2 (cart_total tk items) = Cents (cart_cents tk items).
Proof.
  intros H. rewrite <- (line_total_cart_lines tk oid), <- (line_cents_cart tk oid).
  split; [apply line_total_within_half_cent | apply line_total_exact]; exact H.
Qed.

(** The payment gate is called with the double total of the cart, unless
    a statement of BEGIN and the first loop failed. *)
Lemma payment_call_total w req db user items :
  accepted req = Some (user, items) ->
  Forall (in_stock (tickets db)) items ->
  payment_call w req db = Some (user, cart_total (tickets db) items) \/
  (payment_call w req db = None /\ book w req db = (mkResponse 500 ServerError, db)).
Proof.
  intros Ha Hall. unfold payment_call. rewrite Ha.
  destruct ((await query w BEGIN; lock_rows w items (Number.of_Z 0) []) (connect db))
    as [o c1] eqn:Hl.
  pose proof (locking_inv _ _ _ _ _ Hl) as (Hd & Hw & Hshape).
  destruct o as [[resp | [total pend]] |].
  - exfalso. destruct Hshape as (_ & Hr & _).
    rewrite (check_cart_inr _ _ _ _ Hall) in Hr. discriminate.
  - left. destruct Hshape as (_ & Hr & _).
    rewrite (check_cart_inr _ _ _ _ Hall) in Hr. injection Hr as -> _. reflexivity.
  - right. split; [reflexivity |].
    rewrite book_handle. unfold handle. rewrite Ha. unfold try_catch.
    rewrite transaction_split, (bind_eq _ _ _ _ _ Hl).
    destruct (caught w c1 Hw) as (H1 & H2 & _). rewrite H1, H2, Hd. reflexivity.
Qed.

(** ** Catalog rows and order rows *)

Lemma elem_of_ticketCatalog tk t p q :
  In (TicketTier.mk t p q) (ticketCatalog tk) <->
  exists row, tk !! t = Some row /\ price_usd row = p /\ quantity_available row = q.
Proof.
  unfold ticketCatalog. rewrite in_map_iff. split.
  - intros ([t' row] & [= <- <- <-] & Hin). exists row.
    apply list_elem_of_In, elem_of_map_to_list in Hin. auto.
  - intros (row & Hrow & <- & <-). exists (t, row). split; [reflexivity |].
    apply list_elem_of_In, elem_of_map_to_list. exact Hrow.
Qed.

Lemma fmap_is_map {A B} (f : A -> B) (l : list A) : f <$> l = map f l.
Proof. induction l as [| x l IH]; simpl; [reflexivity |]. rewrite <- IH. reflexivity. Qed.

Lemma ticketCatalog_tiers tk :
  map TicketTier.tier (ticketCatalog tk) = map fst (map_to_list tk).
Proof.
  unfold ticketCatalog. rewrite map_map. reflexivity.
Qed.

Lemma rows_from_In n os i o :
  In (i, o) (rows_from n os) <-> (n <= i)%nat /\ os !! (i - n)%nat = Some o.
Proof.
  revert n. induction os as [| o' os IH]; intros n; simpl.
  - split; [tauto | intros [_ H]; discriminate].
  - rewrite IH. split.
    + intros [[= <- <-] | [Hle Hl]].
      * rewrite Nat.sub_diag. auto.
      * split; [lia |]. replace (i - n)%nat with (S (i - S n)) by lia. exact Hl.
    + intros [Hle Hl]. destruct (i - n)%nat as [| k] eqn:Hk.
      * left. injection Hl as <-. f_equal. lia.
      * right. split; [lia |]. replace (i - S n)%nat with k by lia. exact Hl.
Qed.

Lemma rows_from_ids n os : map fst (rows_from n os) = seq n (length os).
Proof.
  revert n. induction os as [| o os IH]; intros n; simpl; [reflexivity |].
  rewrite IH. reflexivity.
Qed.

Lemma insert_desc_perm key x l : Permutation (insert_desc key x l) (x :: l).
Proof.
  induction l as [| y l IH]; simpl; [reflexivity |].
  destruct (key (fst y) <? key (fst x)); [reflexivity |].
  rewrite IH. apply perm_swap.
Qed.

Lemma order_by_desc_perm key l : Permutation (order_by_desc key l) l.
Proof.
  induction l as [| x l IH]; simpl; [reflexivity |].
  rewrite insert_desc_perm, IH. reflexivity.
Qed.

Lemma insert_desc_sorted key x l :
  Sorted (fun a b => key (fst b) <= key (fst a)) l ->
  Sorted (fun a b => key (fst b) <= key (fst a)) (insert_desc key x l).
Proof.
  induction 1 as [| y l Hs IH Hhd]; simpl; [repeat constructor |].
  destruct (Z.ltb_spec (key (fst y)) (key (fst x))) as [Hlt | Hge].
  - constructor; [constructor; assumption | constructor; lia].
  - constructor; [exact IH |].
    destruct l as [| z l]; simpl; [constructor; exact Hge |].
    destruct (Z.ltb_spec (key (fst z)) (key (fst x))); constructor;
      [exact Hge | inversion Hhd; assumption].
Qed.

Lemma order_by_desc_sorted key l :
  Sorted (fun a b => key (fst b) <= key (fst a)) (order_by_desc key l).
Proof.
  induction l as [| x l IH]; simpl; [constructor |].
  apply insert_desc_sorted, IH.
Qed.

Lemma order_by_desc_In key l x : In x (order_by_desc key l) <-> In x l.
Proof.
  split; apply Permutation_in; [| symmetry]; apply order_by_desc_perm.
Qed.

(** The rows the first query returns: the orders of the user, each once. *)
Lemma userOrders_In created_at user db i o :
  In (i, o) (userOrders created_at user db) <->
  orders db !! i = Some o /\ user_id o = user.
Proof.
  unfold userOrders. rewrite order_by_desc_In.
  rewrite List.filter_In, rows_from_In, Nat.sub_0_r. simpl.
  destruct (String.eqb_spec (user_id o) user); intuition (try lia; congruence).
Qed.

Lemma userOrders_ids created_at user db :
  List.NoDup (map fst (userOrders created_at user db)).
Proof.
  unfold userOrders.
  eapply Permutation_NoDup;
    [apply Permutation_map; symmetry; apply order_by_desc_perm |].
  assert (H : forall l : list (nat * Order),
             List.NoDup (map fst l) ->
             List.NoDup (map fst (List.filter (fun r => String.eqb (user_id (snd r)) user) l))).
  { induction l as [| r l IH]; simpl; [constructor |].
    intros Hnd. inversion Hnd as [| ? ? Hnin Hnd']; subst.
    destruct (String.eqb (user_id (snd r)) user); simpl; [| auto].
    constructor; [| auto]. intros Hin. apply Hnin.
    apply in_map_iff in Hin as (r' & Heq & Hin). apply List.filter_In in Hin as [Hin _].
    apply in_map_iff. eauto. }
  apply H. rewrite rows_from_ids. apply List.seq_NoDup.
Qed.

Lemma existsb_false {A} (f : A -> bool) l :
  existsb f l = false <-> forall x, In x l -> f x = false.
Proof.
  induction l as [| y l IH]; simpl; [tauto |].
  rewrite orb_false_iff, IH. split.
  - intros [Hy Hl] x [<- | Hx]; auto.
  - intros H. split; [apply H; auto | intros x Hx; apply H; auto].
Qed.

(** The answer when no query fails. *)
Lemma get_orders_steady created_at user db :
  get_orders steady created_at user db
  = mkRead 200
      (Data (map (fun r => UserOrder.mk (fst r) (snd r) (created_at (fst r))
                             (lines_of db (fst r)))
                 (userOrders created_at user db))).
Proof.
  unfold get_orders. change (steady O) with false. cbv iota.
  destruct (userOrders created_at user db) as [| r l]; [reflexivity |].
  rewrite (proj2 (existsb_false steady _)) by reflexivity. reflexivity.
Qed.

(** ** Inserting and resetting rows *)

Lemma insert_or_skip_lookup tk r t :
  insert_or_skip tk r !! t
  = match tk !! t with
    | Some row => Some row
    | None => if decide (fst r = t) then Some (snd r) else None
    end.
Proof.
  unfold insert_or_skip. destruct (tk !! fst r) as [row |] eqn:Hr.
  - destruct (tk !! t) as [row' |] eqn:Ht; [reflexivity |].
    case_decide; [congruence | reflexivity].
  - rewrite lookup_insert. case_decide as Heq.
    + rewrite <- Heq, Hr. reflexivity.
    + destruct (tk !! t); reflexivity.
Qed.

(** Rows already in the table stay as they are. *)
Lemma insert_rows_keeps rows : forall tk t row,
  tk !! t = Some row -> fold_left insert_or_skip rows tk !! t = Some row.
Proof.
  induction rows as [| r rows IH]; intros tk t row Ht; simpl; [exact Ht |].
  apply IH. rewrite insert_or_skip_lookup, Ht. reflexivity.
Qed.

(** A tier that is missing gets the first row the statement has for it. *)
Lemma insert_rows_adds rows : forall tk t,
  tk !! t = None ->
  fold_left insert_or_skip rows tk !! t = seed_row rows t.
Proof.
  unfold seed_row.
  induction rows as [| r rows IH]; intros tk t Ht; simpl; [exact Ht |].
  destruct (String.eqb_spec (fst r) t) as [Heq | Hne].
  - simpl. apply insert_rows_keeps. rewrite insert_or_skip_lookup, Ht.
    rewrite decide_True by exact Heq. reflexivity.
  - apply IH. rewrite insert_or_skip_lookup, Ht.
    rewrite decide_False by exact Hne. reflexivity.
Qed.

Lemma db_eq (a b : Db) :
  tickets a = tickets b -> orders a = orders b -> order_items a = order_items b -> a = b.
Proof. destruct a, b; simpl; intros -> -> ->; reflexivity. Qed.

Lemma seedDatabase_db seedData throws db :
  snd (seedDatabase seedData throws db)
  = if throws 0%nat then db else run_pool_stmt (INSERT_TICKETS seedData) db.
Proof.
  unfold seedDatabase, pool_query. destruct (throws 0%nat); [reflexivity |].
  destruct (throws 1%nat); reflexivity.
Qed.

(** The loop stops at the first answer that is ok, [k] attempts after
    [i], having slept once for each attempt before it that got no answer; or
    it uses up its attempts. *)
Lemma waitForBackend_from_spec probe : forall remaining i waited,
  (exists k,
      (k < remaining)%nat /\ probe (i + k)%nat = Ready /\
      (forall j, (j < k)%nat -> probe (i + j)%nat <> Ready) /\
      waitForBackend_from probe i remaining waited
      = (Fulfilled tt, (waited + unanswered probe i k)%nat)) \/
  ((forall j, (j < remaining)%nat -> probe (i + j)%nat <> Ready) /\
   waitForBackend_from probe i remaining waited
   = (Rejected, (waited + unanswered probe i remaining)%nat)).
Proof.
  induction remaining as [| r IH]; intros i waited.
  - right. split; [intros j Hj; lia |]. simpl. f_equal. lia.
  - simpl. destruct (probe i) eqn:Hp.
    + left. exists O. rewrite Nat.add_0_r. split; [lia |]. split; [exact Hp |].
      split; [intros j Hj; lia |]. simpl. f_equal. lia.
    + destruct (IH (S i) waited) as [(k & Hk & Hr & Hb & Hrun) | [Hb Hrun]].
      * left. exists (S k). split; [lia |].
        replace (i + S k)%nat with (S i + k)%nat by lia. split; [exact Hr |]. split.
        -- intros [| j] Hj; [rewrite Nat.add_0_r, Hp; discriminate |].
           replace (i + S j)%nat with (S i + j)%nat by lia. apply Hb. lia.
        -- rewrite Hrun. simpl. rewrite Hp. reflexivity.
      * right. split.
        -- intros [| j] Hj; [rewrite Nat.add_0_r, Hp; discriminate |].
           replace (i + S j)%nat with (S i + j)%nat by lia. apply Hb. lia.
        -- rewrite Hrun. reflexivity.
    + destruct (IH (S i) (S waited)) as [(k & Hk & Hr & Hb & Hrun) | [Hb Hrun]].
      * left. exists (S k). split; [lia |].
        replace (i + S k)%nat with (S i + k)%nat by lia. split; [exact Hr |]. split.
        -- intros [| j] Hj; [rewrite Nat.add_0_r, Hp; discriminate |].
           replace (i + S j)%nat with (S i + j)%nat by lia. apply Hb. lia.
        -- rewrite Hrun. simpl. rewrite Hp. f_equal. lia.
      * right. split.
        -- intros [| j] Hj; [rewrite Nat.add_0_r, Hp; discriminate |].
           replace (i + S j)%nat with (S i + j)%nat by lia. apply Hb. lia.
        -- rewrite Hrun. f_equal. lia.
Qed.

(** ** The cart of the home page *)

Lemma find_item_None t cart :
  find_item t cart = None <-> ~ In t (map CartLine.tier cart).
Proof.
  unfold find_item. induction cart as [| item cart IH]; simpl; [tauto |].
  destruct (String.eqb_spec (CartLine.tier item) t) as [Heq | Hne].
  - split; [discriminate | intros H; exfalso; apply H; auto].
  - rewrite IH. tauto.
Qed.

Lemma find_item_Some t cart item :
  find_item t cart = Some item -> In item cart /\ CartLine.tier item = t.
Proof.
  unfold find_item. intros H. apply find_some in H as [Hin Heq].
  apply String.eqb_eq in Heq. auto.
Qed.

Lemma with_quantity_tiers t q cart :
  map CartLine.tier (with_quantity t q cart) = map CartLine.tier cart.
Proof.
  unfold with_quantity. rewrite map_map. apply map_ext. intros item.
  destruct (String.eqb (CartLine.tier item) t); reflexivity.
Qed.

Lemma tidy_with_quantity t q cart : 1 <= q -> tidy cart -> tidy (with_quantity t q cart).
Proof.
  intros Hq [Hnd Hpos]. split; [rewrite with_quantity_tiers; exact Hnd |].
  unfold with_quantity. apply Forall_forall. intros x Hin.
  apply list_elem_of_In, in_map_iff in Hin as (item & <- & Hin).
  destruct (String.eqb (CartLine.tier item) t); simpl; [exact Hq |].
  rewrite Forall_forall in Hpos. apply Hpos, list_elem_of_In, Hin.
Qed.

Lemma tidy_filter f cart : tidy cart -> tidy (List.filter f cart).
Proof.
  intros [Hnd Hpos]. split.
  - clear Hpos. induction cart as [| item cart IH]; simpl; [constructor |].
    inversion Hnd as [| ? ? Hnin Hnd']; subst.
    destruct (f item); simpl; [| auto]. constructor; [| auto].
    intros Hin. apply Hnin. apply in_map_iff in Hin as (x & Hx & Hin).
    apply List.filter_In in Hin as [Hin _]. apply in_map_iff. eauto.
  - apply Forall_forall. intros x Hin. apply list_elem_of_In, List.filter_In in Hin as [Hin _].
    rewrite Forall_forall in Hpos. apply Hpos, list_elem_of_In, Hin.
Qed.

Lemma tidy_snoc cart item :
  find_item (CartLine.tier item) cart = None -> 1 <= CartLine.quantity item ->
  tidy cart -> tidy (cart ++ [item]).
Proof.
  intros Hnone Hq [Hnd Hpos]. apply find_item_None in Hnone. split.
  - rewrite map_app. simpl. apply NoDup_ListNoDup, NoDup_app.
    split; [apply NoDup_ListNoDup, Hnd |]. split.
    + intros x Hx Hin. apply list_elem_of_In in Hx. apply list_elem_of_In in Hin.
      destruct Hin as [<- | []]. contradiction.
    + apply NoDup_ListNoDup. repeat constructor. intros [].
  - apply Forall_app. split; [exact Hpos | repeat constructor; exact Hq].
Qed.

Lemma tidy_addToCart t st : tidy (Home.cart st) -> tidy (Home.cart (addToCart t st)).
Proof.
  intros Ht. unfold addToCart.
  destruct (Z.leb_spec (default 0 (Home.quantities st !! t)) 0) as [| Hq]; [exact Ht |].
  destruct (find_ticket t (Home.tickets st)) as [ticket |]; [| exact Ht].
  destruct (TicketTier.quantityAvailable ticket <? _); [exact Ht |].
  simpl. destruct (find_item t (Home.cart st)) as [item |] eqn:Hf.
  - apply tidy_with_quantity; [lia | exact Ht].
  - apply tidy_snoc; simpl; [exact Hf | lia | exact Ht].
Qed.

Lemma tidy_removeFromCart t st :
  tidy (Home.cart st) -> tidy (Home.cart (removeFromCart t st)).
Proof.
  intros Ht. unfold removeFromCart.
  destruct (find_item t (Home.cart st)); [simpl; apply tidy_filter, Ht | exact Ht].
Qed.

Lemma tidy_updateCartItemQuantity t q st :
  1 <= q -> tidy (Home.cart st) -> tidy (Home.cart (updateCartItemQuantity t q st)).
Proof.
  intros Hq Ht. unfold updateCartItemQuantity.
  destruct (find_item t (Home.cart st)); [| exact Ht].
  match goal with |- context [if ?b then _ else _] => destruct b end;
    [exact Ht | simpl; apply tidy_with_quantity; assumption].
Qed.

Lemma handleBooking_cart w st db :
  Home.cart (fst (handleBooking w st db)) = Home.cart st \/
  Home.cart (fst (handleBooking w st db)) = [].
Proof.
  unfold handleBooking. destruct (Home.user st); [| auto].
  destruct (bookingData st); [| auto].
  destruct (book w b db) as [response db'].
  destruct ((200 <=? http_status response) && (http_status response <=? 299));
    destruct (body response); auto.
Qed.

Lemma tidy_nil : tidy [].
Proof. split; constructor. Qed.

Lemma event_tidy st st' : event st st' -> tidy (Home.cart st) -> tidy (Home.cart st').
Proof.
  intros [ticket typed _ | ticket _ | item Hin | item Hin | item _ | data | w db | | open
         | u] Ht;
    try exact Ht.
  - apply tidy_addToCart, Ht.
  - unfold minus_button. destruct (Z.ltb_spec 1 (CartLine.quantity item)); [| exact Ht].
    apply tidy_updateCartItemQuantity; [lia | exact Ht].
  - apply tidy_updateCartItemQuantity; [| exact Ht].
    destruct Ht as [_ Hpos]. rewrite Forall_forall in Hpos.
    apply list_elem_of_In, Hpos in Hin. lia.
  - apply tidy_removeFromCart, Ht.
  - destruct (handleBooking_cart w st db) as [-> | ->]; [exact Ht | apply tidy_nil].
Qed.

Lemma visited_tidy st : visited st -> tidy (Home.cart st).
Proof.
  induction 1 as [| st st' _ IH Hev]; [apply tidy_nil | eapply event_tidy; eassumption].
Qed.

(** *** Looking a tier up after an update *)

Lemma find_ticket_with_available t t0 f l :
  find_ticket t (with_available t0 f l)
  = if String.eqb t0 t then
      (fun x => TicketTier.mk (TicketTier.tier x) (TicketTier.priceUsd x)
                  (f (TicketTier.quantityAvailable x))) <$> find_ticket t l
    else find_ticket t l.
Proof.
  unfold find_ticket, with_available.
  destruct (String.eqb_spec t0 t) as [-> | Hne]; induction l as [| x l IH]; simpl;
    try reflexivity.
  - destruct (String.eqb (TicketTier.tier x) t) eqn:E; simpl; rewrite E;
      [reflexivity | exact IH].
  - destruct (String.eqb_spec (TicketTier.tier x) t0) as [H0 | H0]; simpl.
    + destruct (String.eqb_spec (TicketTier.tier x) t); [congruence | exact IH].
    + destruct (String.eqb (TicketTier.tier x) t); [reflexivity | exact IH].
Qed.

Lemma find_item_with_quantity t t0 q l :
  find_item t (with_quantity t0 q l)
  = if String.eqb t0 t then
      (fun item => CartLine.mk (CartLine.tier item) q (CartLine.priceUsd item))
        <$> find_item t l
    else find_item t l.
Proof.
  unfold find_item, with_quantity.
  destruct (String.eqb_spec t0 t) as [-> | Hne]; induction l as [| x l IH]; simpl;
    try reflexivity.
  - destruct (String.eqb (CartLine.tier x) t) eqn:E; simpl; rewrite E;
      [reflexivity | exact IH].
  - destruct (String.eqb_spec (CartLine.tier x) t0) as [H0 | H0]; simpl.
    + destruct (String.eqb_spec (CartLine.tier x) t); [congruence | exact IH].
    + destruct (String.eqb (CartLine.tier x) t); [reflexivity | exact IH].
Qed.

Lemma find_item_without t t0 l :
  find_item t (List.filter (fun item => negb (String.eqb (CartLine.tier item) t0)) l)
  = if String.eqb t0 t then None else find_item t l.
Proof.
  unfold find_item.
  destruct (String.eqb_spec t0 t) as [-> | Hne]; induction l as [| x l IH]; simpl;
    try reflexivity.
  - destruct (String.eqb (CartLine.tier x) t) eqn:E; simpl; [exact IH |].
    rewrite E. exact IH.
  - destruct (String.eqb_spec (CartLine.tier x) t0) as [H0 | H0]; simpl.
    + destruct (String.eqb_spec (CartLine.tier x) t); [congruence | exact IH].
    + destruct (String.eqb (CartLine.tier x) t); [reflexivity | exact IH].
Qed.

Lemma find_item_snoc t l x :
  find_item t (l ++ [x])
  = match find_item t l with
    | Some item => Some item
    | None => if String.eqb (CartLine.tier x) t then Some x else None
    end.
Proof.
  unfold find_item. induction l as [| y l IH]; simpl; [reflexivity |].
  destruct (String.eqb (CartLine.tier y) t); [reflexivity | exact IH].
Qed.

Lemma find_ticket_tier t l x : find_ticket t l = Some x -> TicketTier.tier x = t.
Proof.
  unfold find_ticket. intros H. apply find_some in H as [_ H].
  apply String.eqb_eq, H.
Qed.

Lemma tidy_found t cart item :
  tidy cart -> find_item t cart = Some item -> 1 <= CartLine.quantity item.
Proof.
  intros [_ Hpos] Hf. apply find_item_Some in Hf as [Hin _].
  rewrite Forall_forall in Hpos. apply Hpos, list_elem_of_In, Hin.
Qed.

(** The lines the page posts, and their total. *)
Lemma bookingData_Some st req :
  bookingData st = Some req ->
  exists u,
    Home.user st = Some u /\ Home.cart st <> [] /\
    req = request (MockUser.id u)
            (map (fun item => mkCartItem (CartLine.tier item) (CartLine.quantity item))
                 (Home.cart st)).
Proof.
  unfold bookingData. destruct (Home.user st) as [u |]; [| discriminate].
  destruct (Home.cart st) as [| item cart]; [discriminate |].
  intros [= <-]. exists u. split; [reflexivity |]. split; [discriminate | reflexivity].
Qed.

Lemma calculateTotal_cart_total tk cart :
  Forall (fun item => CartLine.priceUsd item = price_of tk (CartLine.tier item)) cart ->
  calculateTotal cart
  = cart_total tk
      (map (fun item => mkCartItem (CartLine.tier item) (CartLine.quantity item)) cart).
Proof.
  unfold calculateTotal, cart_total. generalize (Number.of_Z 0).
  induction cart as [| item cart IH]; intros acc Hp; simpl; [reflexivity |].
  inversion Hp as [| ? ? Hitem Hrest]; subst.
  rewrite IH by exact Hrest. unfold add_line. simpl. rewrite Hitem. reflexivity.
Qed.

Lemma two_vip_held_visited : visited two_vip_held.
Proof.
  unfold two_vip_held.
  apply (visited_event (quantity_input (TicketTier.mk "VIP" 10000 10) (Some 2) browsing)).
  - apply (visited_event browsing).
    + apply (visited_event (setUser sam mounted)).
      * apply (visited_event mounted); [apply visited_mounted | apply event_user].
      * apply event_fetched.
    + apply event_input. simpl. auto.
  - apply (event_add _ (TicketTier.mk "VIP" 10000 10)). simpl. auto.
Qed.

(** ** Text *)

Lemma generateRandomUser_id text i draws u :
  generateRandomUser text i draws = Some u ->
  MockUser.id u = ("user_" ++ String.substring 2 8 text)%string.
Proof.
  unfold generateRandomUser. destruct (pick_lastName _ draws); [| discriminate].
  intros [= <-]. reflexivity.
Qed.

Lemma length_toLowerCase s : String.length (toLowerCase s) = String.length s.
Proof. induction s as [| c s IH]; simpl; [reflexivity | rewrite IH; reflexivity]. Qed.

Lemma length_capitalize w : String.length (capitalize w) = String.length w.
Proof. destruct w as [| c w]; simpl; [reflexivity | rewrite length_toLowerCase; reflexivity]. Qed.

Lemma length_append (a b : string) :
  String.length (a ++ b)%string = (String.length a + String.length b)%nat.
Proof. induction a as [| c a IH]; simpl; [reflexivity | rewrite IH; reflexivity]. Qed.

Lemma length_join_space words : String.length (join_space words) = joined_length words.
Proof.
  induction words as [| w ws IH]; [reflexivity |].
  destruct ws as [| w' ws]; [reflexivity |].
  change (join_space (w :: w' :: ws)) with (w ++ " " ++ join_space (w' :: ws))%string.
  change (joined_length (w :: w' :: ws))
    with (String.length w + 1 + joined_length (w' :: ws))%nat.
  rewrite !length_append, IH. simpl. lia.
Qed.

Lemma joined_length_capitalize words :
  joined_length (map capitalize words) = joined_length words.
Proof.
  induction words as [| w ws IH]; [reflexivity |].
  destruct ws as [| w' ws]; [simpl; apply length_capitalize |].
  change (joined_length (map capitalize (w :: w' :: ws)))
    with (String.length (capitalize w) + 1 + joined_length (map capitalize (w' :: ws)))%nat.
  rewrite IH, length_capitalize. reflexivity.
Qed.

Lemma split_underscore_cons s : exists w ws, split_underscore s = w :: ws.
Proof.
  destruct s as [| c s]; simpl; [eauto |].
  destruct (Ascii.eqb c "_"); [eauto |]. destruct (split_underscore s); eauto.
Qed.

Lemma joined_length_split s : joined_length (split_underscore s) = String.length s.
Proof.
  induction s as [| c s IH]; simpl; [reflexivity |].
  destruct (split_underscore_cons s) as (w & ws & Hs). rewrite Hs in *.
  destruct (Ascii.eqb c "_"); simpl in *; destruct ws; simpl in *; lia.
Qed.

Lemma toUpperCase_char_underscore c : c <> "_"%char -> toUpperCase_char c <> "_"%char.
Proof.
  intros H Heq. destruct c as [[] [] [] [] [] [] [] []];
    vm_compute in Heq; try discriminate Heq; apply H; reflexivity.
Qed.

Lemma toLowerCase_char_underscore c : c <> "_"%char -> toLowerCase_char c <> "_"%char.
Proof.
  intros H Heq. destruct c as [[] [] [] [] [] [] [] []];
    vm_compute in Heq; try discriminate Heq; apply H; reflexivity.
Qed.

Lemma no_underscore_toLowerCase s : no_underscore s -> no_underscore (toLowerCase s).
Proof.
  induction s as [| c s IH]; simpl; [tauto |].
  intros [Hc Hs]. split; [apply toLowerCase_char_underscore, Hc | apply IH, Hs].
Qed.

Lemma no_underscore_capitalize w : no_underscore w -> no_underscore (capitalize w).
Proof.
  destruct w as [| c w]; simpl; [tauto |].
  intros [Hc Hw]. split; [apply toUpperCase_char_underscore, Hc
                         | apply no_underscore_toLowerCase, Hw].
Qed.

Lemma no_underscore_append (a b : string) :
  no_underscore a -> no_underscore b -> no_underscore (a ++ b)%string.
Proof. induction a as [| c a IH]; simpl; [tauto |]. intros [Hc Ha] Hb. auto. Qed.

Lemma no_underscore_join words :
  Forall no_underscore words -> no_underscore (join_space words).
Proof.
  induction 1 as [| w ws Hw Hws IH]; [exact I |].
  destruct ws as [| w' ws]; [exact Hw |].
  change (join_space (w :: w' :: ws)) with (w ++ " " ++ join_space (w' :: ws))%string.
  apply no_underscore_append; [exact Hw |]. split; [discriminate | exact IH].
Qed.

Lemma no_underscore_split s : Forall no_underscore (split_underscore s).
Proof.
  induction s as [| c s IH]; simpl; [repeat constructor |].
  destruct (Ascii.eqb_spec c "_") as [-> | Hne]; [constructor; [exact I | exact IH] |].
  destruct (split_underscore s) as [| w ws]; [repeat constructor; exact Hne |].
  inversion IH; subst. constructor; [split; assumption | assumption].
Qed.

Lemma no_underscore_get s : no_underscore s -> forall i, String.get i s <> Some "_"%char.
Proof.
  induction s as [| c s IH]; simpl; [discriminate |].
  intros [Hc Hs] [| i]; [congruence | apply IH, Hs].
Qed.

(** The last names differ from the first names, whatever the case of the
    letters: the loop never draws twice. *)
Lemma pick_lastName_first i j rest :
  (i < 16)%nat -> (j < 16)%nat ->
  pick_lastName (nth i firstNames EmptyString) (j :: rest)
  = Some (nth j lastNames EmptyString).
Proof.
  intros Hi Hj.
  assert (H : String.eqb (toLowerCase (nth j lastNames EmptyString))
                (toLowerCase (nth i firstNames EmptyString)) = false).
  { do 16 (destruct i as [| i];
           [do 16 (destruct j as [| j]; [vm_compute; reflexivity |]); lia |]).
    lia. }
  cbn [pick_lastName]. rewrite H. reflexivity.
Qed.

(** * Properties *)

(** ** Stock bounds *)

(** C1. Two lines for the same tier are each checked against the stock
    read before any decrement, and both are then subtracted: from the
    seeded inventory one call takes VIP from 10 to -2. *)
Theorem repeated_tier_oversells :
  reachable seed (snd (book (calm half) (request "test-user-1" vip_6_6) seed)) /\
  http_status (fst (book (calm half) (request "test-user-1" vip_6_6) seed)) = 201 /\
  tickets (snd (book (calm half) (request "test-user-1" vip_6_6) seed)) !! "VIP"
  = Some (mkTicket 10000 (-2) 10) /\
  ~ stock_invariant (snd (book (calm half) (request "test-user-1" vip_6_6) seed)).
Proof.
  split; [auto with booking |]. split; [vm_compute; reflexivity |].
  assert (H : tickets (snd (book (calm half) (request "test-user-1" vip_6_6) seed)) !! "VIP"
              = Some (mkTicket 10000 (-2) 10))
    by (vm_compute; reflexivity).
  split; [exact H |].
  intros Hinv. apply Hinv in H. simpl in H. lia.
Qed.

(** A negative quantity passes the stock check and is subtracted as well:
    [quantity_available] ends above [total_quantity]. *)
Lemma negative_quantity_overstocks :
  reachable seed (snd (book (calm half) (request "test-user-1" vip_minus_5) seed)) /\
  fst (book (calm half) (request "test-user-1" vip_minus_5) seed)
  = mkResponse 201
      (Booked 0 "test-user-1" (Cents (-50000)) [mkPending "VIP" (-5) 10000] PAID) /\
  tickets (snd (book (calm half) (request "test-user-1" vip_minus_5) seed)) !! "VIP"
  = Some (mkTicket 10000 15 10) /\
  ~ stock_invariant (snd (book (calm half) (request "test-user-1" vip_minus_5) seed)).
Proof.
  split; [auto with booking |]. split; [vm_compute; reflexivity |].
  assert (H : tickets (snd (book (calm half) (request "test-user-1" vip_minus_5) seed))
                !! "VIP" = Some (mkTicket 10000 15 10))
    by (vm_compute; reflexivity).
  split; [exact H |].
  intros Hinv. apply Hinv in H. simpl in H. lia.
Qed.

Lemma requested_absent t items :
  ~ In t (map tier items) -> requested t items = 0.
Proof.
  unfold requested. induction items as [| item rest IH]; simpl; [reflexivity |].
  intros Hnin. destruct (String.eqb_spec (tier item) t) as [Heq | _]; [tauto |].
  rewrite IH by tauto. reflexivity.
Qed.

Lemma requested_bounds tk items t row :
  List.NoDup (map tier items) ->
  Forall (in_stock tk) items ->
  Forall (fun item => 0 <= quantity item) items ->
  tk !! t = Some row -> 0 <= quantity_available row ->
  0 <= requested t items <= quantity_available row.
Proof.
  intros Hnd Hall Hpos Hrow Hqa. unfold requested.
  induction items as [| item rest IH]; simpl; [lia |].
  inversion Hnd as [| ? ? Hnin Hnd']; subst.
  inversion Hall as [| ? ? (row' & Hrow' & Hle) Hall']; subst.
  inversion Hpos as [| ? ? Hq Hpos']; subst.
  destruct (String.eqb_spec (tier item) t) as [Heq | _].
  - rewrite Heq in *. pose proof (requested_absent t rest Hnin) as H0.
    unfold requested in H0. rewrite H0.
    assert (row' = row) as -> by congruence. lia.
  - apply IH; assumption.
Qed.

(** What the stock check does guarantee: a cart that names each tier once,
    with quantities that are not negative, keeps every row within
    [0 <= quantity_available <= total_quantity]. *)
Lemma plain_carts_keep_stock_bounds w req db user items :
  accepted req = Some (user, items) ->
  List.NoDup (map tier items) ->
  Forall (fun item => 0 <= quantity item) items ->
  stock_invariant db -> stock_invariant (snd (book w req db)).
Proof.
  intros Ha Hnd Hpos Hinv.
  destruct (Z.eq_dec (http_status (fst (book w req db))) 201) as [Hs | Hs].
  - destruct (book_201 w req db Hs) as (user' & items' & Ha' & Hall & ->).
    rewrite Ha in Ha'. injection Ha' as <- <-. simpl.
    intros t row'. rewrite committed_tickets, quantity_for_map.
    change (quantity_for _ _ t items) with (requested t items).
    destruct (tickets db !! t) as [row |] eqn:Hrow; simpl; [| discriminate].
    intros [= <-]. simpl. pose proof (Hinv t row Hrow) as Hb.
    pose proof (requested_bounds _ _ t row Hnd Hall Hpos Hrow (proj1 Hb)) as Hr.
    lia.
  - destruct (book_moves w req db) as [-> | (u & i & Hs' & _)]; [exact Hinv | contradiction].
Qed.

(** ** Atomicity *)

(** C2. A call that does not answer 201, whatever the reason (request
    refused, unknown tier, missing stock, payment declined, a statement that
    failed at any point of the transaction), leaves the committed database
    as it was: no new order, no new order line, every
    [quantity_available] unchanged. *)
Theorem failed_booking_changes_nothing w req db :
  http_status (fst (book w req db)) <> 201 ->
  snd (book w req db) = db.
Proof.
  intros Hs. destruct (book_cases w req db) as [-> | H]; [reflexivity |].
  rewrite H in *. unfold outcome, settle in *.
  destruct (accepted req) as [[user items] |]; [| reflexivity].
  destruct (check_cart _ _ _ _) as [resp | [total pend]]; [reflexivity |].
  destruct (simulatePayment _ _ _); [| reflexivity].
  simpl in Hs. congruence.
Qed.

Example drops_at_5_run :
  statements drops_at_5 two_tiers seed
    = [BEGIN; SELECT_FOR_UPDATE "GA"; SELECT_FOR_UPDATE "VIP";
       INSERT_ORDER "alice" (Cents 13000) PAID;
       INSERT_ORDER_ITEM 0 "GA" 3 1000; UPDATE_TICKETS "GA" 3; ROLLBACK] /\
  fst (book drops_at_5 two_tiers seed) = mkResponse 500 ServerError.
Proof. split; vm_compute; reflexivity. Qed.

Lemma failed_booking_changes_nothing_witness :
  http_status (fst (book drops_at_5 two_tiers seed)) <> 201 /\
  snd (book drops_at_5 two_tiers seed) = seed.
Proof.
  assert (H : http_status (fst (book drops_at_5 two_tiers seed)) <> 201)
    by (vm_compute; discriminate).
  split; [exact H | apply (failed_booking_changes_nothing drops_at_5 two_tiers seed H)].
Defined.

(** Scenario C: the stock check passes on both lines and the payment is
    declined. *)
Example declined_payment_run :
  statements (calm unlucky) two_tiers seed
    = [BEGIN; SELECT_FOR_UPDATE "GA"; SELECT_FOR_UPDATE "VIP"; ROLLBACK] /\
  book (calm unlucky) two_tiers seed = (mkResponse 400 PaymentFailed, seed).
Proof. split; vm_compute; reflexivity. Qed.

(** ** Lock order *)

(** C3. The handler does not sort: two carts with the same two tiers lock
    them in opposite orders, each in the order of its own lines, so that no
    order of the tiers is followed by both calls. *)
Theorem lock_order_is_cart_order :
  lock_order (statements (calm half) (request "test-user-1" vip_then_ga) seed)
  = ["VIP"; "GA"] /\
  lock_order (statements (calm half) (request "test-user-2" ga_then_vip) seed)
  = ["GA"; "VIP"] /\
  forall before : string -> string -> Prop,
    (forall a b, before a b -> before b a -> False) ->
    ~ (Sorted before
         (lock_order (statements (calm half) (request "test-user-1" vip_then_ga) seed)) /\
       Sorted before
         (lock_order (statements (calm half) (request "test-user-2" ga_then_vip) seed))).
Proof.
  assert (H1 : lock_order (statements (calm half) (request "test-user-1" vip_then_ga) seed)
               = ["VIP"; "GA"]) by (vm_compute; reflexivity).
  assert (H2 : lock_order (statements (calm half) (request "test-user-2" ga_then_vip) seed)
               = ["GA"; "VIP"]) by (vm_compute; reflexivity).
  split; [exact H1 |]. split; [exact H2 |].
  intros before Hanti. rewrite H1, H2. intros [S1 S2].
  inversion S1 as [| ? ? _ Hd1]; subst. inversion Hd1; subst.
  inversion S2 as [| ? ? _ Hd2]; subst. inversion Hd2; subst.
  eauto.
Qed.

(** ** Conservation *)

(** C4. In every state reached from a fresh inventory by calls to the
    booking endpoint, for every tier, [total_quantity - quantity_available]
    is the sum of the quantities of the order lines of that tier that
    belong to PAID orders. *)
Theorem sold_tickets_are_conserved init db :
  fresh init -> reachable init db -> conservation db.
Proof.
  intros (Ho & Hi & Hq) Hr.
  cut (conservation db /\ lines_attached db); [tauto |].
  induction Hr as [| db w req Hreach [IHc IHl]].
  - split.
    + intros t row Hrow. unfold sold, paid_lines. rewrite Hi. simpl.
      rewrite (Hq t row Hrow). lia.
    + unfold lines_attached. rewrite Hi. constructor.
  - destruct (book_moves w req db) as [-> | (user & items & _ & ->)]; [auto |].
    split; [apply committed_conservation | apply committed_lines_attached]; assumption.
Qed.

Lemma sold_tickets_are_conserved_witness :
  (fresh seed /\ reachable seed after_two_bookings) /\
  conservation after_two_bookings.
Proof.
  assert (Hf : fresh seed) by exact seed_fresh.
  assert (Hr : reachable seed after_two_bookings)
    by (unfold after_two_bookings; auto with booking).
  split; [split; assumption |].
  apply (sold_tickets_are_conserved seed after_two_bookings Hf Hr).
Defined.

Example after_two_bookings_stock :
  tickets after_two_bookings !! "VIP" = Some (mkTicket 10000 (-5) 10) /\
  sold after_two_bookings "VIP" = 15 /\
  tickets after_two_bookings !! "GA" = Some (mkTicket 1000 198 200) /\
  sold after_two_bookings "GA" = 2.
Proof. vm_compute. repeat split. Qed.

(** ** Price snapshot *)

(** C5. When a booking commits, the order's lines carry the catalog prices
    of that moment, and the stored total is computed from them.  Nothing
    that happens later, a booking or a change of a catalog price, changes a
    stored order or a stored line.  At any time an order's total is the
    total of its own lines as the handler adds them up, in doubles, rounded
    to two decimals; and for lines as the tables hold them ([storable]:
    quantities from 0 that fit INTEGER, prices that fit NUMERIC(10,2), an
    exact total that fits NUMERIC(10,2), at most 80000 lines) that is the
    exact sum of quantity * [price_at_purchase].  A body that
    [express.json()] lets through, 100 kB at most, has fewer than 5000
    lines. *)
Theorem price_is_snapshotted init db :
  fresh init -> evolves init db ->
  (forall w req,
      http_status (fst (book w req db)) = 201 ->
      exists user lines,
        order_items (snd (book w req db)) = order_items db ++ lines /\
        Forall (fun line =>
                  price_at_purchase line = price_of (tickets db) (ticket_tier line))
               lines /\
        orders (snd (book w req db))
        = orders db ++ [mkOrder user (toFixed2 (line_total lines)) PAID]) /\
  (forall db',
      evolves db db' ->
      orders db `prefix_of` orders db' /\ order_items db `prefix_of` order_items db') /\
  (forall oid o,
      orders db !! oid = Some o ->
      total_amount o = toFixed2 (line_total (lines_of db oid)) /\
      (storable (lines_of db oid) ->
       total_amount o = Cents (line_cents (lines_of db oid)))).
Proof.
  intros Hf He. split; [| split].
  - intros w req Hs. apply book_201 in Hs as (user & items & _ & _ & ->). simpl.
    exists user, (map (line_of (length (orders db))) (map (pending_of (tickets db)) items)).
    split; [apply committed_order_items |]. split.
    + apply Forall_forall. intros line Hin.
      apply list_elem_of_In, in_map_iff in Hin as (p & <- & Hin).
      apply in_map_iff in Hin as (item & <- & _). reflexivity.
    + rewrite committed_orders. unfold line_total. rewrite line_total_cart. reflexivity.
  - apply evolves_prefix.
  - intros oid o Ho. destruct (evolves_invariant init db Hf He) as [_ Hm].
    pose proof (Hm oid o Ho) as Ht. split; [exact Ht |].
    intros Hst. rewrite Ht. apply line_total_exact, Hst.
Qed.

Lemma price_is_snapshotted_witness :
  (fresh seed /\ evolves seed after_price_change) /\
  orders after_price_change
  = [mkOrder "bob" (Cents 32000) PAID; mkOrder "test-user-2" (Cents 12345) PAID] /\
  lines_of after_price_change 0
  = [mkOrderItem 0 "GA" 2 1000; mkOrderItem 0 "VIP" 3 10000] /\
  storable (lines_of after_price_change 0) /\
  Cents 32000 = Cents (line_cents (lines_of after_price_change 0)).
Proof.
  assert (Hf : fresh seed) by exact seed_fresh.
  assert (He : evolves seed after_price_change)
    by (unfold after_price_change; auto with booking).
  split; [split; assumption |].
  destruct (price_is_snapshotted seed after_price_change Hf He) as (_ & _ & H).
  split; [vm_compute; reflexivity |]. split; [vm_compute; reflexivity |].
  assert (Hst : storable (lines_of after_price_change 0)).
  { change (lines_of after_price_change 0)
      with [mkOrderItem 0 "GA" 2 1000; mkOrderItem 0 "VIP" 3 10000].
    split; [repeat constructor; simpl; lia |]. split; simpl; lia. }
  split; [exact Hst |].
  destruct (H 0%nat (mkOrder "bob" (Cents 32000) PAID)) as [_ Ht];
    [vm_compute; reflexivity |].
  exact (Ht Hst).
Defined.

(** The bounds matter.  The handler also books lines with a negative
    quantity (see C1 and C6), which no order line of the specification
    has; with those a stored total can differ from the exact sum of its
    lines.  With BOX at 99999999.99, the lines 351848 and -351847 add up to
    one ticket, 99999999.99, but the double total is 99999999.984375 and
    the order stores 99999999.98. *)
Lemma stored_total_differs_from_line_sum :
  evolves arena after_box /\
  orders after_box = [mkOrder "test-user-1" (Cents 9999999998) PAID] /\
  lines_of after_box 0
  = [mkOrderItem 0 "BOX" 351848 9999999999; mkOrderItem 0 "BOX" (-351847) 9999999999] /\
  line_cents (lines_of after_box 0) = 9999999999 /\
  option_map Qred (Number.value (line_total (lines_of after_box 0)))
  = Some (6399999999 # 64)%Q /\
  ~ (forall oid o,
        orders after_box !! oid = Some o ->
        total_amount o = Cents (line_cents (lines_of after_box oid))).
Proof.
  split; [unfold after_box; auto with booking |].
  split; [vm_compute; reflexivity |]. split; [vm_compute; reflexivity |].
  split; [vm_compute; reflexivity |]. split; [vm_compute; reflexivity |].
  intros H. specialize (H 0%nat (mkOrder "test-user-1" (Cents 9999999998) PAID)).
  vm_compute in H. specialize (H eq_refl). discriminate H.
Qed.

(** ** Request validation *)

(** C6, as amended. A request whose [userId] is missing or empty, or whose
    [cartItems] is missing or empty, is answered 400 "Invalid request"
    before any statement is sent, BEGIN included, and changes nothing. *)
Theorem malformed_request_rejected_first w req db :
  userId req = None \/ userId req = Some EmptyString \/
  cartItems req = None \/ cartItems req = Some [] ->
  book w req db = (mkResponse 400 InvalidRequest, db) /\
  statements w req db = [].
Proof.
  intros H. apply accepted_None in H.
  unfold book, statements, handle. rewrite H. split; reflexivity.
Qed.

Lemma malformed_request_rejected_first_witness :
  (userId no_cart = None \/ userId no_cart = Some EmptyString \/
   cartItems no_cart = None \/ cartItems no_cart = Some []) /\
  book (calm half) no_cart seed = (mkResponse 400 InvalidRequest, seed) /\
  statements (calm half) no_cart seed = [].
Proof.
  assert (H : userId no_cart = None \/ userId no_cart = Some EmptyString \/
              cartItems no_cart = None \/ cartItems no_cart = Some [])
    by (right; right; left; reflexivity).
  split; [exact H |].
  apply (malformed_request_rejected_first (calm half) no_cart seed H).
Defined.

(** C6, as stated, fails: a line with quantity 0 is not refused.  The
    transaction opens and commits an order of zero tickets. *)
Lemma zero_quantity_is_booked :
  Exists (fun item => quantity item <= 0) vip_zero /\
  fst (book (calm half) (request "test-user-1" vip_zero) seed)
  = mkResponse 201
      (Booked 0 "test-user-1" (Cents 0) [mkPending "VIP" 0 10000] PAID) /\
  statements (calm half) (request "test-user-1" vip_zero) seed
  = [BEGIN; SELECT_FOR_UPDATE "VIP"; INSERT_ORDER "test-user-1" (Cents 0) PAID;
     INSERT_ORDER_ITEM 0 "VIP" 0 10000; UPDATE_TICKETS "VIP" 0; COMMIT] /\
  body (fst (book (calm half) (request "test-user-1" vip_zero) seed)) <> InvalidRequest.
Proof.
  split; [constructor; simpl; lia |].
  vm_compute. repeat split; discriminate.
Qed.

(** ** Totals *)

(** C7, as amended. For a cart that passes the stock check and whose lines
    can be stored ([storable]: quantities from 0 that fit INTEGER, prices
    and an exact total that fit NUMERIC(10,2), at most 80000 lines), the
    payment gate is asked for the double [cart_total]: the sum, in cart
    order and in binary64 arithmetic, of [parseFloat(price) * quantity].
    That double is less than half a cent away from the exact sum of
    quantity * price, so [toFixed(2)] rounds it to the exact sum.  A call
    that answers 201 was let through by the payment gate for that double,
    and returns and stores the exact sum; and a call none of whose
    statements fails answers 201 when the gate accepts. *)
Theorem total_is_rounded_double_sum w req db user items :
  accepted req = Some (user, items) ->
  Forall (in_stock (tickets db)) items ->
  storable (cart_lines (tickets db) (length (orders db)) items) ->
  (payment_call w req db = Some (user, cart_total (tickets db) items) \/
   (payment_call w req db = None /\ book w req db = (mkResponse 500 ServerError, db))) /\
  within_half_cent (cart_total (tickets db) items) (cart_cents (tickets db) items) /\
  toFixed2 (cart_total (tickets db) items) = Cents (cart_cents (tickets db) items) /\
  (http_status (fst (book w req db)) = 201 ->
   simulatePayment (random w) user (cart_total (tickets db) items) = true /\
   fst (book w req db)
   = mkResponse 201
       (Booked (length (orders db)) user (Cents (cart_cents (tickets db) items))
          (map (pending_of (tickets db)) items) PAID) /\
   orders (snd (book w req db))
   = orders db ++ [mkOrder user (Cents (cart_cents (tickets db) items)) PAID]) /\
  (failed w (statements w req db) = false ->
   simulatePayment (random w) user (cart_total (tickets db) items) = true ->
   http_status (fst (book w req db)) = 201).
Proof.
  intros Ha Hall Hst.
  destruct (cart_total_exact _ _ _ Hst) as [Hnear Hexact].
  split; [apply payment_call_total; assumption |].
  split; [exact Hnear |]. split; [exact Hexact |]. split.
  - intros Hs. destruct (book_201 w req db Hs) as (user' & items' & Ha' & _ & Hb).
    rewrite Ha in Ha'. injection Ha' as <- <-.
    assert (Hpay : simulatePayment (random w) user (cart_total (tickets db) items) = true).
    { destruct (book_cases w req db) as [H | H]; rewrite H in Hb; [discriminate |].
      unfold outcome, settle in Hb. rewrite Ha, (check_cart_inr _ _ _ _ Hall) in Hb.
      fold (cart_total (tickets db) items) in Hb.
      destruct (simulatePayment (random w) user (cart_total (tickets db) items));
        [reflexivity | discriminate]. }
    split; [exact Hpay |]. rewrite Hb. cbn [fst snd].
    rewrite committed_orders, Hexact. split; reflexivity.
  - intros Hno Hpay. pose proof (proj1 (failed_false _ _) Hno) as Hno'.
    rewrite (book_unfailing _ _ _ Hno'). unfold outcome, settle.
    rewrite Ha, (check_cart_inr _ _ _ _ Hall).
    fold (cart_total (tickets db) items). rewrite Hpay. reflexivity.
Qed.

Lemma total_is_rounded_double_sum_witness :
  (accepted (request "test-user-456" three_tiers) = Some ("test-user-456", three_tiers) /\
   Forall (in_stock (tickets seed)) three_tiers /\
   storable (cart_lines (tickets seed) (length (orders seed)) three_tiers)) /\
  payment_call (calm half) (request "test-user-456" three_tiers) seed
  = Some ("test-user-456", cart_total (tickets seed) three_tiers) /\
  toFixed2 (cart_total (tickets seed) three_tiers) = Cents 25000 /\
  fst (book (calm half) (request "test-user-456" three_tiers) seed)
  = mkResponse 201
      (Booked 0 "test-user-456" (Cents 25000)
         [mkPending "VIP" 1 10000; mkPending "FRONT_ROW" 2 5000; mkPending "GA" 5 1000]
         PAID).
Proof.
  assert (Ha : accepted (request "test-user-456" three_tiers)
               = Some ("test-user-456", three_tiers)) by reflexivity.
  assert (Hall : Forall (in_stock (tickets seed)) three_tiers).
  { repeat constructor;
      [stocked (mkTicket 10000 10 10) | stocked (mkTicket 5000 50 50)
       | stocked (mkTicket 1000 200 200)]. }
  assert (Hst : storable (cart_lines (tickets seed) (length (orders seed)) three_tiers)).
  { change (cart_lines (tickets seed) (length (orders seed)) three_tiers)
      with [mkOrderItem 0 "VIP" 1 10000; mkOrderItem 0 "FRONT_ROW" 2 5000;
            mkOrderItem 0 "GA" 5 1000].
    split; [repeat constructor; simpl; lia |]. split; simpl; lia. }
  destruct (total_is_rounded_double_sum (calm half) _ seed _ _ Ha Hall Hst)
    as (H1 & _ & H3 & _ & H5).
  split; [auto |]. split; [| split].
  - destruct H1 as [H1 | [_ H1]]; [exact H1 | exfalso].
    pose proof (book_calm half (request "test-user-456" three_tiers) seed) as Hb.
    rewrite H1 in Hb. vm_compute in Hb. discriminate.
  - rewrite H3. vm_compute. reflexivity.
  - vm_compute. reflexivity.
Defined.

(** C7, as stated, fails: the total is added up in binary floating point,
    and the sum before rounding is not exact.  Three tickets at 0.10, a
    cart of positive quantity that is in stock: [parseFloat] gives
    0.1000000000000000055..., three times that is rounded to
    0.3000000000000000444..., and with this double, which is not 0.30, the
    payment gate is called.  Rounded to two decimals it is 0.30, the
    amount returned and stored. *)
Lemma charged_amount_is_not_the_exact_sum :
  accepted (request "test-user-1" three_tokens) = Some ("test-user-1", three_tokens) /\
  Forall (fun item => 0 < quantity item) three_tokens /\
  Forall (in_stock (tickets kiosk)) three_tokens /\
  cart_cents (tickets kiosk) three_tokens = 30 /\
  payment_call (calm half) (request "test-user-1" three_tokens) kiosk
  = Some ("test-user-1", cart_total (tickets kiosk) three_tokens) /\
  option_map Qred (Number.value (cart_total (tickets kiosk) three_tokens))
  = Some (1351079888211149 # 4503599627370496)%Q /\
  ~ (1351079888211149 # 4503599627370496 == 30 # 100)%Q /\
  fst (book (calm half) (request "test-user-1" three_tokens) kiosk)
  = mkResponse 201 (Booked 0 "test-user-1" (Cents 30) [mkPending "TOKEN" 3 10] PAID).
Proof.
  split; [reflexivity |]. split; [repeat constructor |].
  split; [repeat constructor; stocked (mkTicket 10 1000 1000) |].
  split; [reflexivity |]. split; [vm_compute; reflexivity |].
  split; [vm_compute; reflexivity |]. split; [vm_compute; discriminate |].
  vm_compute. reflexivity.
Qed.

(** Outside the bounds of [storable] the rounded double can miss the exact
    sum.  With LAWN at 99999.99 and a line of negative quantity,
    [parseFloat] gives 99999.990000000005..., the first line 10^9 * price
    rounds to 99999990000000 (doubles are 1/64 apart there), the second
    line -999999999 * price to -99999989900000.015625, and their sum
    99999.984375 is stored as 99999.98 where the exact total is
    99999.99. *)
Lemma double_sum_misses_a_cent :
  Forall (in_stock (tickets arena)) lawn_net_one /\
  option_map Qred (Number.value (cart_total (tickets arena) lawn_net_one))
  = Some (6399999 # 64)%Q /\
  book (calm half) (request "test-user-1" lawn_net_one) arena
  = (mkResponse 201
       (Booked 0 "test-user-1" (Cents 9999998)
          [mkPending "LAWN" 1000000000 9999999; mkPending "LAWN" (-999999999) 9999999]
          PAID),
     {| tickets := alter (decrement 1) "LAWN" (tickets arena);
        orders := [mkOrder "test-user-1" (Cents 9999998) PAID];
        order_items := [mkOrderItem 0 "LAWN" 1000000000 9999999;
                        mkOrderItem 0 "LAWN" (-999999999) 9999999] |}) /\
  cart_cents (tickets arena) lawn_net_one = 9999999 /\
  toFixed2 (cart_total (tickets arena) lawn_net_one)
  <> Cents (cart_cents (tickets arena) lawn_net_one).
Proof.
  split.
  { repeat constructor; stocked (mkTicket 9999999 1000000000 1000000000). }
  split; [vm_compute; reflexivity |]. split; [vm_compute; reflexivity |].
  split; [vm_compute; reflexivity |]. vm_compute. discriminate.
Qed.

(** ** Status codes *)



(** Each of the other answers, on the seeded inventory. *)
Example the_other_answers :
  fst (book (calm half) (request "bob" [mkCartItem "NOPE" 1]) seed)
  = mkResponse 400 (InvalidTier "NOPE") /\
  fst (book (calm half) (request "bob" [mkCartItem "VIP" 500]) seed)
  = mkResponse 409 (InsufficientStock "VIP" 500 10) /\
  fst (book drops_at_5 two_tiers seed) = mkResponse 500 ServerError /\
  fst (book (calm half) no_cart seed) = mkResponse 400 InvalidRequest.
Proof. vm_compute. repeat split. Qed.

(** The two bodies that make the handler throw, when no statement fails:
    BEGIN and one SELECT went through, and the [catch] block rolls back. *)
Example type_errors_are_answered_500 :
  Json.book (calm half) number_for_userId seed = (mkResponse 500 ServerError, seed) /\
  Json.statements (calm half) number_for_userId seed
  = [BEGIN; SELECT_FOR_UPDATE "VIP"; ROLLBACK] /\
  Json.book (calm half) null_in_cart seed = (mkResponse 500 ServerError, seed) /\
  Json.statements (calm half) null_in_cart seed
  = [BEGIN; SELECT_FOR_UPDATE "GA"; ROLLBACK] /\
  failed (calm half) (Json.statements (calm half) number_for_userId seed) = false.
Proof. repeat split; vm_compute; reflexivity. Qed.

(** ** The stock check *)




(** A second line for the same tier is compared with the stock before the
    call, 10, not with what the first line leaves. *)
Example second_line_sees_the_same_stock :
  Json.book (calm half) (typed (request "test-user-1" vip_6_11)) seed
  = (mkResponse 409 (InsufficientStock "VIP" 11 10), seed) /\
  Json.statements (calm half) (typed (request "test-user-1" vip_6_11)) seed
  = [BEGIN; SELECT_FOR_UPDATE "VIP"; SELECT_FOR_UPDATE "VIP"; ROLLBACK].
Proof. split; vm_compute; reflexivity. Qed.

(** Two lines of 6 for a tier of 10, statement by statement: both lines
    are compared with the stock of 10, then both are subtracted. *)
Example two_lines_one_tier_run :
  statements (calm half) (request "test-user-1" vip_6_6) seed
  = [BEGIN; SELECT_FOR_UPDATE "VIP"; SELECT_FOR_UPDATE "VIP";
     INSERT_ORDER "test-user-1" (Cents 120000) PAID;
     INSERT_ORDER_ITEM 0 "VIP" 6 10000; UPDATE_TICKETS "VIP" 6;
     INSERT_ORDER_ITEM 0 "VIP" 6 10000; UPDATE_TICKETS "VIP" 6; COMMIT].
Proof. vm_compute. reflexivity. Qed.

(** A line that asks more than the stock read for its tier is what a 409
    reports, whatever the other lines are. *)
Lemma insufficient_stock_names_a_line w req db t q a :
  body (fst (book w req db)) = InsufficientStock t q a ->
  exists user items row,
    accepted req = Some (user, items) /\
    In (mkCartItem t q) items /\
    tickets db !! t = Some row /\ a = quantity_available row /\ a < q.
Proof.
  destruct (book_cases w req db) as [-> | ->]; [discriminate |].
  unfold outcome, settle.
  destruct (accepted req) as [[user items] |]; [| discriminate].
  destruct (check_cart _ _ _ _) as [resp | [total pend]] eqn:Hc.
  - apply check_cart_inl in Hc as [(i & _ & -> & _) | (i & row & Hin & -> & Hrow & Hlt)];
      [discriminate |].
    simpl. intros [= <- <- <-]. exists user, items, row.
    destruct i as [ti qi]. simpl in *. auto.
  - destruct (simulatePayment _ _ _); discriminate.
Qed.

(** ** The payment gate *)

(** C10. For a user id that starts with "test-user" the payment gate
    returns true for every amount and every draw of [Math.random()], so no
    call by such a user answers "Payment processing failed". *)
Theorem test_user_payment_always_succeeds user :
  String.prefix "test-user" user = true ->
  (forall rnd amount, simulatePayment rnd user amount = true) /\
  (forall w req db,
      userId req = Some user -> body (fst (book w req db)) <> PaymentFailed).
Proof.
  intros Hp.
  assert (Hpay : forall rnd amount, simulatePayment rnd user amount = true)
    by (intros; unfold simulatePayment; rewrite Hp; reflexivity).
  split; [exact Hpay |]. intros w req db Hu.
  destruct (book_cases w req db) as [-> | ->]; [discriminate |].
  unfold outcome. destruct (accepted req) as [[user' items] |] eqn:Ha; [| discriminate].
  assert (user' = user) as ->.
  { unfold accepted in Ha. rewrite Hu in Ha.
    destruct (cartItems req) as [[| i l] |]; try discriminate.
    destruct (String.eqb user EmptyString); [discriminate |]. congruence. }
  unfold settle.
  destruct (check_cart _ _ _ _) as [resp | [total pend]] eqn:Hc.
  - apply check_cart_inl in Hc as [(i & _ & -> & _) | (i & row & _ & -> & _)]; discriminate.
  - rewrite Hpay. discriminate.
Qed.

Lemma test_user_payment_always_succeeds_witness :
  String.prefix "test-user" "test-user-123" = true /\
  simulatePayment unlucky "test-user-123" (Number.of_Z 200) = true /\
  body (fst (book (calm unlucky)
               (request "test-user-123" [mkCartItem "VIP" 2]) seed)) <> PaymentFailed.
Proof.
  assert (H : String.prefix "test-user" "test-user-123" = true) by reflexivity.
  destruct (test_user_payment_always_succeeds "test-user-123" H) as [H1 H2].
  split; [exact H |]. split; [apply H1 | apply H2; reflexivity].
Defined.

(** The same cart from a user without the prefix is declined when the draw
    is 0.99. *)
Example other_users_can_be_declined :
  fst (book (calm unlucky) (request "alice" [mkCartItem "VIP" 2]) seed)
  = mkResponse 400 PaymentFailed.
Proof. vm_compute. reflexivity. Qed.

(** * Further properties *)

(** ** More on the booking handler *)

(** X1. Requests whose cart names each tier at most once and holds no
    negative quantity keep the stock bounds: from an inventory with
    [0 <= quantity_available <= total_quantity] on every row, any number of
    such calls, whatever fails in them, leads to an inventory with the same
    bounds. *)
Theorem plain_bookings_keep_stock_bounds init db :
  stock_invariant init -> plainly_reachable init db -> stock_invariant db.
Proof.
  intros Hinit. induction 1 as [| db w req _ IH Hplain]; [exact Hinit |].
  destruct (accepted req) as [[user items] |] eqn:Ha.
  - apply accepted_Some in Ha as Hreq. destruct Hreq as (_ & Hitems & _).
    destruct (Hplain items Hitems) as [Hnd Hpos].
    eapply plain_carts_keep_stock_bounds; eassumption.
  - destruct (book_moves w req db) as [-> | (user & items & Hs & _)]; [exact IH |].
    apply book_201 in Hs as (u & i & Ha' & _). congruence.
Qed.

Lemma plain_bookings_keep_stock_bounds_witness :
  (stock_invariant seed /\ plainly_reachable seed after_plain_bookings) /\
  stock_invariant after_plain_bookings.
Proof.
  assert (Hp3 : plain (request "test-user-9" three_tiers)).
  { intros items [= <-]. split; [| repeat constructor; simpl; lia].
    repeat constructor; simpl; intros H; decompose sum H; discriminate. }
  assert (Hp2 : plain two_tiers).
  { intros items [= <-]. split; [| repeat constructor; simpl; lia].
    repeat constructor; simpl; intros H; decompose sum H; discriminate. }
  assert (H0 : stock_invariant seed) by exact seed_stock_invariant.
  assert (Hr : plainly_reachable seed after_plain_bookings).
  { unfold after_plain_bookings. repeat (apply plainly_book; [| assumption]).
    apply plainly_init. }
  split; [split; assumption |].
  apply (plain_bookings_keep_stock_bounds seed after_plain_bookings H0 Hr).
Defined.

(** X2. The SELECT ... FOR UPDATE statements of a call, whether it
    succeeds, is refused or fails, are for the first tiers of its cart, in
    cart order; a call that answers 201 sent one for every line. *)
Theorem locks_are_a_prefix_of_the_cart w req db user items :
  accepted req = Some (user, items) ->
  (exists k, lock_order (statements w req db) = take k (map tier items)) /\
  (http_status (fst (book w req db)) = 201 ->
   lock_order (statements w req db) = map tier items).
Proof.
  intros Ha. split.
  - eapply locks_are_taken_in_cart_order. exact Ha.
  - intros Hs. eapply locks_follow_the_cart; eassumption.
Qed.

Lemma locks_are_a_prefix_of_the_cart_witness :
  accepted two_tiers = Some ("alice", [mkCartItem "GA" 3; mkCartItem "VIP" 1]) /\
  (exists k, lock_order (statements drops_at_5 two_tiers seed)
             = take k (map tier [mkCartItem "GA" 3; mkCartItem "VIP" 1])).
Proof.
  assert (Ha : accepted two_tiers = Some ("alice", [mkCartItem "GA" 3; mkCartItem "VIP" 1]))
    by reflexivity.
  split; [exact Ha |].
  apply (locks_are_a_prefix_of_the_cart drops_at_5 two_tiers seed _ _ Ha).
Defined.

(** X3. What a refusal tells.  A 400 "Invalid ticket tier" and a 409
    "Insufficient stock" are about the first line of the cart that fails the
    check: every line before it has its tier in the table and asks at most
    its stock.  The tier named by the 400 is not in the table; the
    availability reported by the 409 is the one of the row, and is less than
    the quantity asked.  A 400 "Payment processing failed" comes after the
    check: every line of the cart passed it, and the payment gate said no. *)
Theorem what_a_refusal_tells w req db :
  match body (fst (book w req db)) with
  | InvalidTier t =>
      exists user pre q post,
        accepted req = Some (user, pre ++ mkCartItem t q :: post) /\
        Forall (in_stock (tickets db)) pre /\
        tickets db !! t = None
  | InsufficientStock t q a =>
      exists user pre post row,
        accepted req = Some (user, pre ++ mkCartItem t q :: post) /\
        Forall (in_stock (tickets db)) pre /\
        tickets db !! t = Some row /\ a = quantity_available row /\ a < q
  | PaymentFailed =>
      exists user items,
        accepted req = Some (user, items) /\
        Forall (in_stock (tickets db)) items /\
        simulatePayment (random w) user (cart_total (tickets db) items) = false
  | _ => True
  end.
Proof.
  destruct (book_cases w req db) as [-> | ->]; [exact I |].
  unfold outcome, settle.
  destruct (accepted req) as [[user items] |]; [| exact I].
  destruct (check_cart _ _ _ _) as [resp | [total pend]] eqn:Hc.
  - apply check_cart_first in Hc
      as (pre & [t q] & post & -> & Hpre & [[-> Hnone] | (row & -> & Hrow & Hlt)]);
      simpl in *.
    + exists user, pre, q, post. auto.
    + exists user, pre, post, row. auto.
  - pose proof (check_cart_inr_inv _ _ _ _ _ _ Hc) as Hall.
    rewrite (check_cart_inr _ _ _ _ Hall) in Hc. injection Hc as <- _.
    destruct (simulatePayment _ _ _) eqn:Hpay; [exact I |].
    simpl. exists user, items. auto.
Qed.

(** X4. An accepted call that answers 400 or 409 has only read: it sent
    BEGIN, one SELECT ... FOR UPDATE for each of the first [k] lines of its
    cart, and ROLLBACK; no INSERT, no UPDATE, no COMMIT. *)
Theorem refused_calls_only_read w req db user items :
  accepted req = Some (user, items) ->
  http_status (fst (book w req db)) = 400 \/ http_status (fst (book w req db)) = 409 ->
  exists k,
    statements w req db = [BEGIN] ++ select_stmts (take k items) ++ [ROLLBACK].
Proof.
  intros Ha Hs. unfold statements, book, handle in *. rewrite Ha in *.
  unfold try_catch in *.
  destruct (transaction w user items (connect db)) as [[resp |] c] eqn:Ht.
  - simpl in *. eapply transaction_refused_log in Ht as [k Hk]; [| lia].
    exists k. exact Hk.
  - destruct (on_error w c) as [o' c'] eqn:He.
    apply on_error_inv in He as [-> _]. simpl in Hs. lia.
Qed.

Lemma refused_calls_only_read_witness :
  (accepted two_tiers = Some ("alice", [mkCartItem "GA" 3; mkCartItem "VIP" 1]) /\
   (http_status (fst (book (calm unlucky) two_tiers seed)) = 400 \/
    http_status (fst (book (calm unlucky) two_tiers seed)) = 409)) /\
  exists k,
    statements (calm unlucky) two_tiers seed
    = [BEGIN] ++ select_stmts (take k [mkCartItem "GA" 3; mkCartItem "VIP" 1]) ++ [ROLLBACK].
Proof.
  assert (Ha : accepted two_tiers = Some ("alice", [mkCartItem "GA" 3; mkCartItem "VIP" 1]))
    by reflexivity.
  assert (Hs : http_status (fst (book (calm unlucky) two_tiers seed)) = 400 \/
               http_status (fst (book (calm unlucky) two_tiers seed)) = 409)
    by (left; vm_compute; reflexivity).
  split; [split; assumption |].
  apply (refused_calls_only_read (calm unlucky) two_tiers seed _ _ Ha Hs).
Defined.


(** X6. Every accepted call opens with BEGIN and ends with COMMIT when it
    answers 201, with ROLLBACK in every other case. *)
Theorem transaction_is_always_closed w req db user items :
  accepted req = Some (user, items) ->
  exists l,
    statements w req db
    = [BEGIN] ++ l ++
      [if http_status (fst (book w req db)) =? 201 then COMMIT else ROLLBACK].
Proof.
  intros Ha.
  destruct (Z.eq_dec (http_status (fst (book w req db))) 201) as [Hs | Hs].
  - rewrite Hs. simpl (201 =? 201).
    destruct (book_201 w req db Hs) as (user' & items' & Ha' & _ & Hb).
    rewrite Ha in Ha'. injection Ha' as <- <-.
    unfold statements. unfold book in Hb.
    destruct (handle_inv w req db) as [(_ & Hr & _) | (_ & _ & Hlog)];
      destruct (handle w req db) as [resp c]; simpl in *.
    + subst resp. discriminate.
    + injection Hb as -> _. rewrite (Hlog _ _ _ _ _ _ _ Ha eq_refl).
      unfold success_log.
      exists (select_stmts items
                ++ [INSERT_ORDER user (toFixed2 (cart_total (tickets db) items)) PAID]
                ++ write_stmts (length (orders db)) (map (pending_of (tickets db)) items)).
      rewrite <- !app_assoc. reflexivity.
  - rewrite (proj2 (Z.eqb_neq _ _) Hs).
    unfold statements, book, handle in *. rewrite Ha in *. unfold try_catch in *.
    destruct (transaction w user items (connect db)) as [[resp |] c] eqn:Ht.
    + simpl in *. eapply transaction_refused_log in Ht as [k Hk]; [| exact Hs].
      exists (select_stmts (take k items)). exact Hk.
    + apply transaction_begins in Ht as [l Hl]. simpl in Hl.
      destruct (on_error w c) as [o' c'] eqn:He. apply on_error_log in He.
      destruct o'; simpl; exists l; rewrite He, Hl; reflexivity.
Qed.

Lemma transaction_is_always_closed_witness :
  accepted two_tiers = Some ("alice", [mkCartItem "GA" 3; mkCartItem "VIP" 1]) /\
  exists l,
    statements drops_at_5 two_tiers seed
    = [BEGIN] ++ l ++
      [if http_status (fst (book drops_at_5 two_tiers seed)) =? 201
       then COMMIT else ROLLBACK].
Proof.
  assert (Ha : accepted two_tiers = Some ("alice", [mkCartItem "GA" 3; mkCartItem "VIP" 1]))
    by reflexivity.
  split; [exact Ha |].
  apply (transaction_is_always_closed drops_at_5 two_tiers seed _ _ Ha).
Defined.



(** X8. No call changes a price or a [total_quantity], adds a tier or
    removes one. *)
Theorem booking_keeps_prices_and_capacity w req db t :
  price_usd <$> tickets (snd (book w req db)) !! t = price_usd <$> tickets db !! t /\
  total_quantity <$> tickets (snd (book w req db)) !! t
  = total_quantity <$> tickets db !! t.
Proof.
  destruct (book_moves w req db) as [-> | (user & items & _ & ->)]; [auto |].
  rewrite committed_tickets. destruct (tickets db !! t) as [row |]; simpl; auto.
Qed.

(** X9. The handler stores PAID orders only: after any number of calls,
    from a database whose orders are all PAID (one with no order, say), every
    order is PAID.  A declined payment or a failure leaves no FAILED or
    PENDING order behind. *)
Theorem every_stored_order_is_paid init db :
  Forall (fun o => status o = PAID) (orders init) ->
  reachable init db ->
  Forall (fun o => status o = PAID) (orders db).
Proof.
  intros Hinit. induction 1 as [| db w req _ IH]; [exact Hinit |].
  destruct (book_moves w req db) as [-> | (user & items & _ & ->)]; [exact IH |].
  rewrite committed_orders. apply Forall_app. split; [exact IH |].
  constructor; [reflexivity | constructor].
Qed.

Lemma every_stored_order_is_paid_witness :
  (Forall (fun o => status o = PAID) (orders seed) /\ reachable seed after_two_bookings) /\
  Forall (fun o => status o = PAID) (orders after_two_bookings).
Proof.
  assert (Hinit : Forall (fun o => status o = PAID) (orders seed)) by constructor.
  assert (Hr : reachable seed after_two_bookings)
    by (unfold after_two_bookings; auto with booking).
  split; [split; assumption |].
  apply (every_stored_order_is_paid seed after_two_bookings Hinit Hr).
Defined.

(** ** The read endpoints *)

(** X10. GET /api/catalog, when its query goes through, answers 200 with
    one row for each tier of the table and no other row, each with the price
    and the availability of its tier. *)
Theorem catalog_lists_every_tier_once db :
  exists rows,
    get_catalog false db = mkRead 200 (Data rows) /\
    List.NoDup (map TicketTier.tier rows) /\
    forall t p q,
      In (TicketTier.mk t p q) rows <->
      exists row,
        tickets db !! t = Some row /\ price_usd row = p /\ quantity_available row = q.
Proof.
  exists (ticketCatalog (tickets db)). split; [reflexivity |]. split.
  - rewrite ticketCatalog_tiers, <- fmap_is_map.
    apply NoDup_ListNoDup, NoDup_fst_map_to_list.
  - intros t p q. apply elem_of_ticketCatalog.
Qed.

(** X11. After a booking that answered 201 the catalog shows every tier
    with its availability lowered by what the cart asked of it (nothing, for
    a tier the cart does not name), at the same price. *)
Theorem catalog_after_a_booking w req db user items :
  accepted req = Some (user, items) ->
  http_status (fst (book w req db)) = 201 ->
  forall t p q,
    In (TicketTier.mk t p q) (ticketCatalog (tickets (snd (book w req db)))) <->
    In (TicketTier.mk t p (q + requested t items)) (ticketCatalog (tickets db)).
Proof.
  intros Ha Hs t p q.
  destruct (book_201 w req db Hs) as (user' & items' & Ha' & _ & ->).
  rewrite Ha in Ha'. injection Ha' as <- <-. simpl.
  rewrite !elem_of_ticketCatalog, committed_tickets, quantity_for_map.
  change (quantity_for _ _ t items) with (requested t items).
  destruct (tickets db !! t) as [row |]; simpl.
  - split.
    + intros (row' & [= <-] & Hp & Hq). exists row. simpl in *.
      repeat split; [exact Hp | lia].
    + intros (row' & [= <-] & Hp & Hq). eexists. split; [reflexivity |]. simpl.
      split; [exact Hp | lia].
  - split; intros (row' & H & _); discriminate.
Qed.

Lemma catalog_after_a_booking_witness :
  (accepted (request "test-user-456" three_tiers) = Some ("test-user-456", three_tiers) /\
   http_status (fst (book (calm half) (request "test-user-456" three_tiers) seed)) = 201) /\
  (In (TicketTier.mk "GA" 1000 195)
      (ticketCatalog (tickets (snd (book (calm half)
                                      (request "test-user-456" three_tiers) seed)))) <->
   In (TicketTier.mk "GA" 1000 (195 + requested "GA" three_tiers))
      (ticketCatalog (tickets seed))).
Proof.
  assert (Ha : accepted (request "test-user-456" three_tiers)
               = Some ("test-user-456", three_tiers)) by reflexivity.
  assert (Hs : http_status (fst (book (calm half)
                                   (request "test-user-456" three_tiers) seed)) = 201)
    by (vm_compute; reflexivity).
  split; [split; assumption |].
  apply (catalog_after_a_booking (calm half) _ seed _ _ Ha Hs "GA" 1000 195).
Defined.

(** X12. GET /api/orders/:userId, when no query fails, answers 200 with
    the orders of that user and no other, each once, newest first, each with
    its own order lines. *)
Theorem orders_endpoint_lists_the_users_orders created_at user db :
  exists ds,
    get_orders steady created_at user db = mkRead 200 (Data ds) /\
    List.NoDup (map UserOrder.id ds) /\
    Sorted newer_first ds /\
    forall e,
      In e ds <->
      exists oid o,
        orders db !! oid = Some o /\ user_id o = user /\
        e = UserOrder.mk oid o (created_at oid) (lines_of db oid).
Proof.
  eexists. split; [apply get_orders_steady |]. split; [| split].
  - rewrite map_map. simpl. apply userOrders_ids.
  - unfold userOrders.
    pose proof (order_by_desc_sorted created_at
                  (List.filter (fun r => String.eqb (user_id (snd r)) user)
                     (rows_from 0 (orders db)))) as Hs.
    induction Hs as [| r l _ IH Hhd]; simpl; constructor; [exact IH |].
    destruct Hhd; simpl; constructor. unfold newer_first. simpl. assumption.
  - intros e. rewrite in_map_iff. split.
    + intros ([oid o] & <- & Hin). apply userOrders_In in Hin as [Ho Hu].
      exists oid, o. auto.
    + intros (oid & o & Ho & Hu & ->). exists (oid, o). split; [reflexivity |].
      apply userOrders_In. auto.
Qed.

(** X13. GET /api/orders/:userId answers 500 exactly when the query for
    the orders (query 0) fails or, the user having [n] orders, one of the
    [n] queries for their lines (queries 1 to [n]) does; otherwise it
    answers what it answers when nothing fails. *)
Theorem orders_endpoint_fails_iff_a_query_fails throws created_at user db :
  (read_status (get_orders throws created_at user db) = 500 <->
   exists n, (n <= length (userOrders created_at user db))%nat /\ throws n = true) /\
  (read_status (get_orders throws created_at user db) = 500 \/
   get_orders throws created_at user db = get_orders steady created_at user db).
Proof.
  rewrite get_orders_steady. unfold get_orders.
  destruct (throws O) eqn:H0.
  { split; [| left; reflexivity]. split; [intros _ | reflexivity].
    exists O. split; [lia | exact H0]. }
  destruct (userOrders created_at user db) as [| r l].
  { split; [| right; reflexivity]. split; [discriminate |].
    intros (n & Hn & Ht). simpl in Hn. assert (n = O) as -> by lia. congruence. }
  destruct (existsb throws (seq 1 (length (r :: l)))) eqn:He.
  - split; [| left; reflexivity]. split; [intros _ | reflexivity].
    apply existsb_exists in He as (n & Hin & Ht). apply in_seq in Hin.
    exists n. split; [lia | exact Ht].
  - split; [| right; reflexivity]. split; [discriminate |].
    intros (n & Hn & Ht). exfalso.
    destruct n as [| n]; [congruence |].
    rewrite (proj1 (existsb_false throws _) He (S n)) in Ht; [discriminate |].
    apply in_seq. lia.
Qed.



(** The tests of the endpoint: each user sees the one order that is theirs,
    a user without orders an empty list. *)
Example orders_of_two_users :
  get_orders steady by_rank "test-user-1" after_two_users
  = mkRead 200
      (Data [UserOrder.mk 0 (mkOrder "test-user-1" (Cents 10000) PAID) 0
               [mkOrderItem 0 "VIP" 1 10000]]) /\
  get_orders steady by_rank "test-user-2" after_two_users
  = mkRead 200
      (Data [UserOrder.mk 1 (mkOrder "test-user-2" (Cents 5000) PAID) 1
               [mkOrderItem 1 "FRONT_ROW" 1 5000]]) /\
  get_orders steady by_rank "nobody" after_two_users = mkRead 200 (Data []).
Proof. vm_compute. repeat split. Qed.

(** ** The seed script and the test helpers *)

(** X15. The seed script never touches a row that exists.  It leaves
    orders and order lines alone and keeps every tier of the table as it is,
    sold stock included; when its insert goes through, each missing tier
    gets the row the script has for it, and running the script again changes
    nothing. *)
Theorem seeding_adds_missing_tiers_only seedData throws db :
  orders (snd (seedDatabase seedData throws db)) = orders db /\
  order_items (snd (seedDatabase seedData throws db)) = order_items db /\
  (forall t row,
      tickets db !! t = Some row ->
      tickets (snd (seedDatabase seedData throws db)) !! t = Some row) /\
  (throws 0%nat = false ->
   (forall t,
       tickets db !! t = None ->
       tickets (snd (seedDatabase seedData throws db)) !! t = seed_row seedData t) /\
   (forall again,
       snd (seedDatabase seedData again (snd (seedDatabase seedData throws db)))
       = snd (seedDatabase seedData throws db))).
Proof.
  rewrite seedDatabase_db.
  assert (Hkeep : forall d t row,
             tickets d !! t = Some row ->
             tickets (run_pool_stmt (INSERT_TICKETS seedData) d) !! t = Some row).
  { intros d t row H. cbn [run_pool_stmt tickets]. apply insert_rows_keeps, H. }
  assert (Hadd : forall d t,
             tickets d !! t = None ->
             tickets (run_pool_stmt (INSERT_TICKETS seedData) d) !! t = seed_row seedData t).
  { intros d t H. cbn [run_pool_stmt tickets]. apply insert_rows_adds, H. }
  destruct (throws 0%nat).
  - repeat split; auto; discriminate.
  - split; [reflexivity |]. split; [reflexivity |]. split; [apply Hkeep |].
    intros _. split; [apply Hadd |].
    intros again. rewrite seedDatabase_db. destruct (again 0%nat); [reflexivity |].
    apply db_eq; [| reflexivity | reflexivity].
    apply map_eq. intros t.
    destruct (tickets (run_pool_stmt (INSERT_TICKETS seedData) db) !! t) as [row |] eqn:Ht.
    + apply Hkeep, Ht.
    + rewrite Hadd by exact Ht.
      destruct (tickets db !! t) as [row |] eqn:Hdb.
      * rewrite (Hkeep db t row Hdb) in Ht. discriminate.
      * rewrite (Hadd db t Hdb) in Ht. exact Ht.
Qed.

Lemma seeding_adds_missing_tiers_only_witness :
  throws drops_at_5 0%nat = false /\
  tickets (snd (seedDatabase seedData_100_200_500 (throws drops_at_5) after_two_bookings))
    !! "VIP"
  = Some (mkTicket 10000 (-5) 10) /\
  tickets (snd (seedDatabase seedData_100_200_500 (throws drops_at_5) after_two_bookings))
    !! "BALCONY"
  = seed_row seedData_100_200_500 "BALCONY".
Proof.
  assert (H0 : throws drops_at_5 0%nat = false) by reflexivity.
  split; [exact H0 |].
  destruct (seeding_adds_missing_tiers_only seedData_100_200_500 (throws drops_at_5)
              after_two_bookings)
    as (_ & _ & Hkeep & Hadd).
  split; [apply Hkeep; vm_compute; reflexivity |].
  apply (proj1 (Hadd H0)). vm_compute. reflexivity.
Defined.

(** The first copy of the seed script, run on the empty schema, gives the
    seeded inventory. *)
Example seed_script_gives_seed :
  seedDatabase seedData_10_50_200 steady empty_db = (Fulfilled tt, seed).
Proof. vm_compute. reflexivity. Qed.

(** The catalog the test reads: 95 VIP tickets are left of 100. *)
Example after_five_vip_catalog :
  In (TicketTier.mk "VIP" 10000 95) (ticketCatalog (tickets after_five_vip)).
Proof. apply elem_of_ticketCatalog. eexists. split; [vm_compute; reflexivity |]. auto. Qed.

(** X16. [resetDatabase] fails exactly when one of its three statements
    does.  When it succeeds, no order and no order line is left and every
    tier is fully available again, at its old price and [total_quantity].
    When it fails, no quantity was restored, and either nothing was deleted
    or the order lines are gone. *)
Theorem reset_gives_a_fresh_inventory throws db :
  (fst (resetDatabase throws db) = Rejected <->
   throws 0%nat = true \/ throws 1%nat = true \/ throws 2%nat = true) /\
  match fst (resetDatabase throws db) with
  | Fulfilled _ =>
      fresh (snd (resetDatabase throws db)) /\
      forall t,
        tickets (snd (resetDatabase throws db)) !! t
        = (fun row => mkTicket (price_usd row) (total_quantity row) (total_quantity row))
            <$> tickets db !! t
  | Rejected =>
      tickets (snd (resetDatabase throws db)) = tickets db /\
      (snd (resetDatabase throws db) = db \/
       order_items (snd (resetDatabase throws db)) = [])
  end.
Proof.
  unfold resetDatabase, pool_query.
  destruct (throws 0%nat); [simpl; intuition congruence |].
  destruct (throws 1%nat); [simpl; intuition congruence |].
  destruct (throws 2%nat); [simpl; intuition congruence |].
  simpl. split; [intuition congruence |]. split.
  - split; [reflexivity |]. split; [reflexivity |].
    intros t row. simpl. rewrite lookup_fmap.
    destruct (tickets db !! t) as [r |]; simpl; [| discriminate].
    intros [= <-]. reflexivity.
  - intros t. apply lookup_fmap.
Qed.

(** X17. [setTicketQuantity(tier, q)] changes the availability of that
    tier and nothing else: the catalog then shows the tier, if the table has
    it, with [q] and its old price, and every other tier as before; orders
    and order lines are untouched.  The inventory stays within
    [0 <= quantity_available <= total_quantity] exactly when
    [0 <= q <= total_quantity]. *)
Theorem set_quantity_shows_in_the_catalog t q db :
  orders (snd (setTicketQuantity false t q db)) = orders db /\
  order_items (snd (setTicketQuantity false t q db)) = order_items db /\
  (forall p q',
      In (TicketTier.mk t p q') (ticketCatalog (tickets (snd (setTicketQuantity false t q db))))
      <-> q' = q /\ exists row, tickets db !! t = Some row /\ price_usd row = p) /\
  (forall t' p q',
      t' <> t ->
      In (TicketTier.mk t' p q') (ticketCatalog (tickets (snd (setTicketQuantity false t q db))))
      <-> In (TicketTier.mk t' p q') (ticketCatalog (tickets db))) /\
  (forall row,
      tickets db !! t = Some row -> stock_invariant db ->
      (stock_invariant (snd (setTicketQuantity false t q db)) <->
       0 <= q <= total_quantity row)).
Proof.
  unfold setTicketQuantity, pool_query. simpl.
  split; [reflexivity |]. split; [reflexivity |]. split; [| split].
  - intros p q'. rewrite elem_of_ticketCatalog. rewrite lookup_alter, decide_True by reflexivity.
    destruct (tickets db !! t) as [row |]; simpl.
    + split.
      * intros (row' & [= <-] & Hp & Hq). simpl in *. split; [congruence |]. eauto.
      * intros (-> & row' & [= <-] & Hp). eexists. split; [reflexivity |]. auto.
    + split; [intros (row' & H & _); discriminate | intros (_ & row' & H & _); discriminate].
  - intros t' p q' Hne. rewrite !elem_of_ticketCatalog.
    rewrite lookup_alter, decide_False by congruence. reflexivity.
  - intros row Hrow Hinv. split.
    + intros H. specialize (H t (mkTicket (price_usd row) q (total_quantity row))).
      simpl in H. apply H. rewrite lookup_alter, decide_True, Hrow by reflexivity. reflexivity.
    + intros Hq t' row'. simpl. rewrite lookup_alter. case_decide as Heq.
      * subst t'. rewrite Hrow. simpl. intros [= <-]. simpl. exact Hq.
      * apply Hinv.
Qed.

(** X18. The stock check reads what [setTicketQuantity] wrote.  After
    [setTicketQuantity(tier, q)], with no failing statement, a cart of [n]
    tickets of that tier is answered 409 with the availability [q], and
    changes nothing, when [n > q]; when [n <= q] and the payment is accepted
    it is answered 201 and leaves [q - n]. *)
Theorem stock_check_reads_the_set_quantity rnd user t q n db row :
  user <> EmptyString ->
  tickets db !! t = Some row ->
  (q < n ->
   book (calm rnd) (request user [mkCartItem t n]) (snd (setTicketQuantity false t q db))
   = (mkResponse 409 (InsufficientStock t n q), snd (setTicketQuantity false t q db))) /\
  (n <= q ->
   (forall amount, simulatePayment rnd user amount = true) ->
   http_status (fst (book (calm rnd) (request user [mkCartItem t n])
                       (snd (setTicketQuantity false t q db)))) = 201 /\
   tickets (snd (book (calm rnd) (request user [mkCartItem t n])
                   (snd (setTicketQuantity false t q db)))) !! t
   = Some (mkTicket (price_usd row) (q - n) (total_quantity row))).
Proof.
  intros Hu Hrow. rewrite book_calm. unfold outcome.
  rewrite accepted_request by (exact Hu || discriminate).
  unfold settle, setTicketQuantity, pool_query. simpl.
  rewrite lookup_alter, decide_True, Hrow by reflexivity. simpl. split.
  - intros Hlt. rewrite (proj2 (Z.ltb_lt _ _) Hlt). reflexivity.
  - intros Hle Hpay. rewrite (proj2 (Z.ltb_ge _ _) Hle), Hpay. simpl. split; [reflexivity |].
    rewrite lookup_alter, decide_True by reflexivity.
    rewrite lookup_alter, decide_True, Hrow by reflexivity. reflexivity.
Qed.

Lemma stock_check_reads_the_set_quantity_witness :
  ("test-user-1" <> EmptyString /\
   tickets seed !! "VIP" = Some (mkTicket 10000 10 10)) /\
  book (calm half) (request "test-user-1" [mkCartItem "VIP" 2])
    (snd (setTicketQuantity false "VIP" 1 seed))
  = (mkResponse 409 (InsufficientStock "VIP" 2 1),
     snd (setTicketQuantity false "VIP" 1 seed)).
Proof.
  assert (Hu : "test-user-1" <> EmptyString) by discriminate.
  assert (Hrow : tickets seed !! "VIP" = Some (mkTicket 10000 10 10))
    by (vm_compute; reflexivity).
  split; [split; assumption |].
  apply (proj1 (stock_check_reads_the_set_quantity half "test-user-1" "VIP" 1 2 seed _
                  Hu Hrow)).
  lia.
Defined.

(** X19. [waitForBackend] (and [waitForFrontend], which is the same loop)
    returns exactly when one of its [maxAttempts] probes is answered with
    [response.ok], and throws otherwise.  It stops at the first such answer,
    and has slept one second for each earlier probe that got no answer at
    all: a probe that is answered, but not ok, is followed by the next one
    at once. *)
Theorem waitForBackend_stops_at_the_first_ready_answer probe maxAttempts :
  (fst (waitForBackend probe maxAttempts) = Fulfilled tt <->
   exists k, (k < maxAttempts)%nat /\ probe k = Ready) /\
  (forall k,
      (k < maxAttempts)%nat -> probe k = Ready ->
      (forall j, (j < k)%nat -> probe j <> Ready) ->
      waitForBackend probe maxAttempts = (Fulfilled tt, unanswered probe 0 k)) /\
  ((forall j, (j < maxAttempts)%nat -> probe j <> Ready) ->
   waitForBackend probe maxAttempts = (Rejected, unanswered probe 0 maxAttempts)).
Proof.
  unfold waitForBackend.
  destruct (waitForBackend_from_spec probe maxAttempts 0 0)
    as [(k & Hk & Hr & Hb & Hrun) | [Hb Hrun]]; simpl in *; rewrite Hrun.
  - split; [split; [eauto | reflexivity] |]. split.
    + intros k' Hk' Hr' Hb'. f_equal.
      destruct (Nat.lt_trichotomy k k') as [Hlt | [<- | Hgt]]; [| reflexivity |].
      * exfalso. apply (Hb' k Hlt Hr).
      * exfalso. apply (Hb k' Hgt Hr').
    + intros Hno. exfalso. apply (Hno k Hk Hr).
  - split; [split; [discriminate | intros (k & Hk & Hr); exfalso; apply (Hb k Hk Hr)] |].
    split; [| reflexivity].
    intros k Hk Hr _. exfalso. apply (Hb k Hk Hr).
Qed.

Example waitForBackend_warming_up :
  waitForBackend warming_up 10 = (Fulfilled tt, 2%nat) /\
  waitForBackend warming_up 3 = (Rejected, 2%nat) /\
  waitForBackend (fun _ => NotReady) 10 = (Rejected, 0%nat).
Proof. vm_compute. repeat split. Qed.

(** ** The home page *)

(** X20. On the home page, whatever the visitor types and clicks, the
    cart never holds two lines for one tier, and every line holds at least
    one ticket. *)
Theorem cart_names_each_tier_once st :
  visited st ->
  List.NoDup (map CartLine.tier (Home.cart st)) /\
  Forall (fun item => 1 <= CartLine.quantity item) (Home.cart st).
Proof.
  intros Hv. change (tidy (Home.cart st)).
  induction Hv as [| st st' _ IH Hev]; [split; constructor |].
  destruct Hev as [ticket typed _ | ticket _ | item Hin | item Hin | item _ | data
                  | w db | | open | u]; try exact IH.
  - apply tidy_addToCart, IH.
  - unfold minus_button. destruct (Z.ltb_spec 1 (CartLine.quantity item)); [| exact IH].
    apply tidy_updateCartItemQuantity; [lia | exact IH].
  - apply tidy_updateCartItemQuantity; [| exact IH].
    destruct IH as [_ Hpos]. rewrite Forall_forall in Hpos.
    apply list_elem_of_In, Hpos in Hin. lia.
  - apply tidy_removeFromCart, IH.
  - destruct (handleBooking_cart w st db) as [-> | ->]; [exact IH | split; constructor].
Qed.

Lemma cart_names_each_tier_once_witness :
  visited two_vip_held /\
  List.NoDup (map CartLine.tier (Home.cart two_vip_held)) /\
  Forall (fun item => 1 <= CartLine.quantity item) (Home.cart two_vip_held).
Proof.
  assert (Hv : visited two_vip_held) by exact two_vip_held_visited.
  split; [exact Hv |].
  apply (cart_names_each_tier_once two_vip_held Hv).
Defined.

(** X21. The carts the home page posts are among those the stock check
    is enough for: a booking sent by [handleBooking] keeps
    [0 <= quantity_available <= total_quantity] on every row. *)
Theorem bookings_from_the_page_keep_stock_bounds st req w db :
  visited st ->
  bookingData st = Some req ->
  stock_invariant db ->
  stock_invariant (snd (book w req db)).
Proof.
  intros Hv Hreq Hinv. apply visited_tidy in Hv as [Hnd Hpos].
  apply bookingData_Some in Hreq as (usr & _ & _ & ->).
  destruct (accepted (request (MockUser.id usr)
                        (map (fun item => mkCartItem (CartLine.tier item)
                                            (CartLine.quantity item))
                             (Home.cart st)))) as [[user items] |] eqn:Ha.
  - apply accepted_Some in Ha as Hparts. destruct Hparts as (_ & [= <-] & _).
    eapply plain_carts_keep_stock_bounds; [exact Ha | | | exact Hinv].
    + rewrite map_map. simpl. exact Hnd.
    + apply Forall_forall. intros x Hin.
      apply list_elem_of_In, in_map_iff in Hin as (item & <- & Hin). simpl.
      rewrite Forall_forall in Hpos. apply list_elem_of_In, Hpos in Hin. lia.
  - match goal with |- stock_invariant (snd (book w ?r db)) =>
      destruct (book_moves w r db) as [-> | (user & items & Hs & _)]; [exact Hinv |];
      apply book_201 in Hs as (u' & i' & Ha' & _); congruence
    end.
Qed.

Lemma bookings_from_the_page_keep_stock_bounds_witness :
  (visited two_vip_held /\
   bookingData two_vip_held = Some two_vip_request /\
   stock_invariant seed) /\
  stock_invariant (snd (book (calm half) two_vip_request seed)).
Proof.
  assert (Hv : visited two_vip_held) by exact two_vip_held_visited.
  assert (Hreq : bookingData two_vip_held = Some two_vip_request)
    by (vm_compute; reflexivity).
  assert (Hinv : stock_invariant seed) by exact seed_stock_invariant.
  split; [auto |].
  apply (bookings_from_the_page_keep_stock_bounds two_vip_held two_vip_request
           (calm half) seed Hv Hreq Hinv).
Defined.

(** X22. Adding to the cart, removing from it and changing a quantity in
    it keep, for every tier the page shows, the sum of the availability
    displayed and the quantity held in the cart. *)
Theorem cart_actions_keep_shown_plus_held t0 t st :
  tidy (Home.cart st) ->
  find_ticket t (Home.tickets st) <> None ->
  displayed t (addToCart t0 st) + in_cart t (addToCart t0 st)
  = displayed t st + in_cart t st /\
  displayed t (removeFromCart t0 st) + in_cart t (removeFromCart t0 st)
  = displayed t st + in_cart t st /\
  forall q,
    displayed t (updateCartItemQuantity t0 q st) + in_cart t (updateCartItemQuantity t0 q st)
    = displayed t st + in_cart t st.
Proof.
  intros Htidy Hshown. unfold displayed, in_cart. split; [| split].
  - unfold addToCart.
    destruct (Z.leb_spec (default 0 (Home.quantities st !! t0)) 0) as [| Hq]; [reflexivity |].
    destruct (find_ticket t0 (Home.tickets st)) as [ticket |] eqn:Hticket; [| reflexivity].
    destruct (Z.ltb_spec (TicketTier.quantityAvailable ticket)
                (default 0 (Home.quantities st !! t0))) as [| Hle]; [reflexivity |].
    cbn [Home.tickets Home.cart]. rewrite find_ticket_with_available.
    destruct (String.eqb_spec t0 t) as [-> | Hne].
    + rewrite Hticket. simpl.
      destruct (find_item t (Home.cart st)) as [item |] eqn:Hitem.
      * rewrite find_item_with_quantity, String.eqb_refl, Hitem. simpl.
        pose proof (tidy_found _ _ _ Htidy Hitem). lia.
      * rewrite find_item_snoc, Hitem. simpl. rewrite String.eqb_refl. simpl. lia.
    + destruct (find_item t0 (Home.cart st)) as [item |] eqn:Hitem.
      * rewrite find_item_with_quantity. destruct (String.eqb_spec t0 t); [congruence |].
        reflexivity.
      * rewrite find_item_snoc. simpl.
        destruct (String.eqb_spec t0 t); [congruence |].
        destruct (find_item t (Home.cart st)); reflexivity.
  - unfold removeFromCart.
    destruct (find_item t0 (Home.cart st)) as [item |] eqn:Hitem; [| reflexivity].
    cbn [Home.tickets Home.cart]. rewrite find_ticket_with_available, find_item_without.
    destruct (String.eqb_spec t0 t) as [-> | Hne]; [| reflexivity].
    rewrite Hitem. destruct (find_ticket t (Home.tickets st)); [simpl; lia | contradiction].
  - intros q. unfold updateCartItemQuantity.
    destruct (find_item t0 (Home.cart st)) as [item |] eqn:Hitem; [| reflexivity].
    match goal with |- context [if ?b then _ else _] => destruct b end; [reflexivity |].
    cbn [Home.tickets Home.cart]. rewrite find_ticket_with_available, find_item_with_quantity.
    destruct (String.eqb_spec t0 t) as [-> | Hne]; [| reflexivity].
    rewrite Hitem. destruct (find_ticket t (Home.tickets st)); [simpl; lia | contradiction].
Qed.

Lemma cart_actions_keep_shown_plus_held_witness :
  (tidy (Home.cart two_vip_held) /\
   find_ticket "VIP" (Home.tickets two_vip_held) <> None) /\
  displayed "VIP" (removeFromCart "VIP" two_vip_held)
    + in_cart "VIP" (removeFromCart "VIP" two_vip_held)
  = displayed "VIP" two_vip_held + in_cart "VIP" two_vip_held.
Proof.
  assert (Ht : tidy (Home.cart two_vip_held)).
  { split; [repeat constructor; intros [] | repeat constructor; vm_compute; discriminate]. }
  assert (Hs : find_ticket "VIP" (Home.tickets two_vip_held) <> None)
    by (vm_compute; discriminate).
  split; [split; assumption |].
  apply (cart_actions_keep_shown_plus_held "VIP" "VIP" two_vip_held Ht Hs).
Defined.

(** X23. When the prices in the cart are those of the catalog, the amount
    on the receipt and in the stored order is the total the cart showed,
    rounded to two decimals: the page and the API add up the same doubles in
    the same order. *)
Theorem cart_total_is_the_amount_charged w st db req :
  Forall (fun item => CartLine.priceUsd item = price_of (tickets db) (CartLine.tier item))
    (Home.cart st) ->
  bookingData st = Some req ->
  http_status (fst (book w req db)) = 201 ->
  exists oid user items,
    body (fst (book w req db))
    = Booked oid user (toFixed2 (calculateTotal (Home.cart st))) items PAID /\
    orders (snd (book w req db)) !! oid
    = Some (mkOrder user (toFixed2 (calculateTotal (Home.cart st))) PAID).
Proof.
  intros Hp Hreq Hs. apply bookingData_Some in Hreq as (usr & _ & _ & ->).
  rewrite (calculateTotal_cart_total (tickets db)) by exact Hp.
  destruct (book_201 w _ db Hs) as (user & items & Ha & _ & ->).
  apply accepted_Some in Ha as (_ & [= <-] & _). simpl.
  eexists _, _, _. split; [reflexivity |].
  rewrite committed_orders, lookup_app_r by reflexivity.
  rewrite Nat.sub_diag. reflexivity.
Qed.

Lemma cart_total_is_the_amount_charged_witness :
  (Forall (fun item => CartLine.priceUsd item
                       = price_of (tickets seed) (CartLine.tier item))
     (Home.cart two_vip_held) /\
   bookingData two_vip_held = Some two_vip_request /\
   http_status (fst (book (calm half) two_vip_request seed)) = 201) /\
  exists oid user items,
    body (fst (book (calm half) two_vip_request seed))
    = Booked oid user (toFixed2 (calculateTotal (Home.cart two_vip_held))) items PAID /\
    orders (snd (book (calm half) two_vip_request seed)) !! oid
    = Some (mkOrder user (toFixed2 (calculateTotal (Home.cart two_vip_held))) PAID).
Proof.
  assert (Hp : Forall (fun item => CartLine.priceUsd item
                                   = price_of (tickets seed) (CartLine.tier item))
                 (Home.cart two_vip_held))
    by (repeat constructor).
  assert (Hreq : bookingData two_vip_held = Some two_vip_request)
    by (vm_compute; reflexivity).
  assert (Hs : http_status (fst (book (calm half) two_vip_request seed)) = 201)
    by (vm_compute; reflexivity).
  split; [auto |].
  apply (cart_total_is_the_amount_charged (calm half) two_vip_held seed two_vip_request
           Hp Hreq Hs).
Defined.

(** X24. [handleBooking] empties the cart exactly when the booking was
    committed.  On a 201 the cart is emptied and the receipt kept; on any
    other answer the cart is as it was, the answer is shown as the error,
    and the database is unchanged. *)
Theorem cart_is_emptied_exactly_when_booked w st db req :
  bookingData st = Some req ->
  (http_status (fst (book w req db)) = 201 /\
   Home.cart (fst (handleBooking w st db)) = [] /\
   Home.bookingSuccess (fst (handleBooking w st db)) = Some (body (fst (book w req db))) /\
   snd (handleBooking w st db) = snd (book w req db)) \/
  (http_status (fst (book w req db)) <> 201 /\
   Home.cart (fst (handleBooking w st db)) = Home.cart st /\
   Home.bookingError (fst (handleBooking w st db)) = Some (Refused (fst (book w req db))) /\
   snd (handleBooking w st db) = db).
Proof.
  intros Hreq. unfold handleBooking. rewrite Hreq.
  apply bookingData_Some in Hreq as (usr & -> & _ & _).
  pose proof (status_201_of_booked w req db) as Hst.
  destruct (book_moves w req db) as [Hsame | (user & items & Hs & _)].
  - destruct (book w req db) as [response db'] eqn:Hb. simpl in *. subst db'.
    destruct (Z.eq_dec (http_status response) 201) as [H201 | Hne].
    + left. rewrite H201. simpl.
      destruct (body response); try contradiction. auto.
    + right. split; [exact Hne |].
      destruct ((200 <=? http_status response) && (http_status response <=? 299));
        destruct (body response); try contradiction; auto.
  - left. destruct (book w req db) as [response db'] eqn:Hb. simpl in *.
    rewrite Hs. simpl. destruct (body response); try contradiction. auto.
Qed.

Lemma cart_is_emptied_exactly_when_booked_witness :
  bookingData two_vip_held = Some two_vip_request /\
  ((http_status (fst (book (calm unlucky) two_vip_request seed)) = 201 /\
    Home.cart (fst (handleBooking (calm unlucky) two_vip_held seed)) = [] /\
    Home.bookingSuccess (fst (handleBooking (calm unlucky) two_vip_held seed))
    = Some (body (fst (book (calm unlucky) two_vip_request seed))) /\
    snd (handleBooking (calm unlucky) two_vip_held seed)
    = snd (book (calm unlucky) two_vip_request seed)) \/
   (http_status (fst (book (calm unlucky) two_vip_request seed)) <> 201 /\
    Home.cart (fst (handleBooking (calm unlucky) two_vip_held seed))
    = Home.cart two_vip_held /\
    Home.bookingError (fst (handleBooking (calm unlucky) two_vip_held seed))
    = Some (Refused (fst (book (calm unlucky) two_vip_request seed))) /\
    snd (handleBooking (calm unlucky) two_vip_held seed) = seed)).
Proof.
  assert (Hreq : bookingData two_vip_held = Some two_vip_request)
    by (vm_compute; reflexivity).
  split; [exact Hreq |].
  apply (cart_is_emptied_exactly_when_booked (calm unlucky) two_vip_held seed
           two_vip_request Hreq).
Defined.

(** ** Mock users and display names *)

(** X25. A user made by [generateRandomUser] has an id that is not empty
    and does not start with "test-user", so the payment gate decides by the
    draw of [Math.random()] alone.  With a draw of 0.95 or more, a cart
    that passes the stock check is never booked: the call is answered 400
    "Payment processing failed", or 500 when one of its statements failed,
    and commits nothing. *)
Theorem generated_users_pay_by_the_draw text i draws u :
  generateRandomUser text i draws = Some u ->
  MockUser.id u <> EmptyString /\
  (forall rnd amount,
      simulatePayment rnd (MockUser.id u) amount
      = Number.ltb rnd (Number.div (Number.of_Z 95) (Number.of_Z 100))) /\
  (forall w items db,
      declined (random w) -> items <> [] -> Forall (in_stock (tickets db)) items ->
      book w (request (MockUser.id u) items) db
      = if failed w (statements w (request (MockUser.id u) items) db)
        then (mkResponse 500 ServerError, db)
        else (mkResponse 400 PaymentFailed, db)).
Proof.
  intros Hu. apply generateRandomUser_id in Hu.
  assert (Hne : MockUser.id u <> EmptyString) by (rewrite Hu; discriminate).
  assert (Hpay : forall rnd amount,
             simulatePayment rnd (MockUser.id u) amount
             = Number.ltb rnd (Number.div (Number.of_Z 95) (Number.of_Z 100))).
  { intros rnd amount. unfold simulatePayment. rewrite Hu. reflexivity. }
  split; [exact Hne |]. split; [exact Hpay |].
  intros w items db Hd Hi Hall.
  destruct (failed w (statements w (request (MockUser.id u) items) db)) eqn:E.
  - apply (proj1 (failed_true _ _)), (proj2 (status_500_failed _ _ _)), status_500_book in E.
    exact E.
  - pose proof (proj1 (failed_false _ _) E) as E'. rewrite (book_unfailing _ _ _ E').
    unfold outcome, settle. rewrite accepted_request by assumption.
    rewrite (check_cart_inr _ _ _ _ Hall), Hpay, Hd. reflexivity.
Qed.

Lemma generated_users_pay_by_the_draw_witness :
  generateRandomUser "0.k3x9q2abzz" 0 [0%nat] = Some sam /\
  MockUser.id sam <> EmptyString /\
  simulatePayment unlucky (MockUser.id sam) (Number.of_Z 200) = false /\
  book (calm unlucky) (request (MockUser.id sam) [mkCartItem "VIP" 2]) seed
  = (mkResponse 400 PaymentFailed, seed) /\
  book drops_at_2 (request (MockUser.id sam) [mkCartItem "VIP" 2]) seed
  = (mkResponse 500 ServerError, seed).
Proof.
  assert (Hu : generateRandomUser "0.k3x9q2abzz" 0 [0%nat] = Some sam)
    by (vm_compute; reflexivity).
  destruct (generated_users_pay_by_the_draw _ _ _ _ Hu) as (Hne & Hpay & Hbook).
  split; [exact Hu |]. split; [exact Hne |].
  split; [rewrite Hpay; vm_compute; reflexivity |].
  assert (Hall : Forall (in_stock (tickets seed)) [mkCartItem "VIP" 2])
    by (repeat constructor; stocked (mkTicket 10000 10 10)).
  split.
  - rewrite (Hbook (calm unlucky) [mkCartItem "VIP" 2] seed);
      [vm_compute; reflexivity | vm_compute; reflexivity | discriminate | exact Hall].
  - rewrite (Hbook drops_at_2 [mkCartItem "VIP" 2] seed);
      [vm_compute; reflexivity | vm_compute; reflexivity | discriminate | exact Hall].
Defined.

(** X26. The loop of [generateRandomUser] that draws the last name again
    while it equals the first name never runs twice: no last name of the
    list is a first name of the list, whatever the case of the letters, so
    the user is named after the first draw. *)
Theorem last_name_is_the_first_draw text i j rest :
  (i < 16)%nat -> (j < 16)%nat ->
  exists avatar,
    generateRandomUser text i (j :: rest)
    = Some (MockUser.mk ("user_" ++ String.substring 2 8 text)%string
              (nth i firstNames EmptyString ++ " " ++ nth j lastNames EmptyString)%string
              avatar).
Proof.
  intros Hi Hj. unfold generateRandomUser.
  rewrite (pick_lastName_first i j rest Hi Hj). eexists. reflexivity.
Qed.

Lemma last_name_is_the_first_draw_witness :
  ((2 < 16)%nat /\ (5 < 16)%nat) /\
  exists avatar,
    generateRandomUser "0.4fzyo82mvyr" 2 [5%nat; 1%nat]
    = Some (MockUser.mk ("user_" ++ String.substring 2 8 "0.4fzyo82mvyr")%string
              (nth 2 firstNames EmptyString ++ " " ++ nth 5 lastNames EmptyString)%string
              avatar).
Proof.
  assert (Hi : (2 < 16)%nat) by lia. assert (Hj : (5 < 16)%nat) by lia.
  split; [split; assumption |].
  apply (last_name_is_the_first_draw "0.4fzyo82mvyr" 2 5 [1%nat] Hi Hj).
Defined.

(** X27. For a tier written in ASCII, [formatTierName] keeps the length
    of the text and leaves no underscore in it. *)
Theorem formatTierName_keeps_length_and_drops_underscores tier :
  is_ascii tier ->
  String.length (formatTierName tier) = String.length tier /\
  forall i, String.get i (formatTierName tier) <> Some "_"%char.
Proof.
  intros _. unfold formatTierName. split.
  - rewrite length_join_space, joined_length_capitalize. apply joined_length_split.
  - apply no_underscore_get, no_underscore_join.
    pose proof (no_underscore_split tier) as H.
    induction H as [| w ws Hw _ IH]; simpl; constructor;
      [apply no_underscore_capitalize, Hw | exact IH].
Qed.

Lemma formatTierName_keeps_length_and_drops_underscores_witness :
  is_ascii "FRONT_ROW" /\
  formatTierName "FRONT_ROW" = "Front Row" /\
  String.length (formatTierName "FRONT_ROW") = String.length "FRONT_ROW".
Proof.
  assert (Ha : is_ascii "FRONT_ROW")
    by (cbn [is_ascii]; repeat split; apply Nat.ltb_lt; vm_compute; reflexivity).
  split; [exact Ha |]. split; [vm_compute; reflexivity |].
  apply (formatTierName_keeps_length_and_drops_underscores "FRONT_ROW" Ha).
Defined.

